(** * VTY I/O FIFO (lib/vio_fifo.c): a shallow embedding and its properties

    The FIFO is a list of fixed-size lumps with four cursors (hold, get,
    end, put) and three selectors ([p_start], [p_end], [p_get_end]) that
    alias one of the cursor fields.  The embedding keeps that shape:

    - a lump is its address and its [data] array;
    - a [char*] is a pair (lump address, offset into that lump's data):
      the lump header sits before [data], so no address inside one lump's
      [data .. end] is an address inside another's, and pointer equality
      is equality of pairs;
    - each selector is an enumeration of the fields it can point at;
    - the doubly linked list [base] is the list of its lumps, head first;
    - [assert] failures, NULL dereferences and out-of-lump accesses are
      [None] in the option monad.

    The build modelled is the production one: the blocks guarded by
    [vio_fifo_debug] and [VIO_FIFO_DEBUG_VERIFY] only check and abort, and
    are left out; the one place where the flag changes data (the lump size
    in [vio_fifo_new]) takes the flag as an argument.  Byte counts ([ulen])
    are natural numbers. *)

From stdpp Require Import base tactics option list gmap.
From Stdlib Require Import Strings.Byte ZArith Lia.
From Stdlib Require Strings.String.

Local Open Scope nat_scope.

(** ** Data model *)

(** A lump: [lump_addr] stands for the address of the [vio_fifo_lump_t],
    [lump_data] for its [data[]].  Its [end] field is set to
    [data + vff->size] when the lump is made and never changes, so
    [lump->end] is read as offset [size]. *)
Record vio_fifo_lump := Lump {
  lump_addr : nat;
  lump_data : list byte
}.

(** [char*] into a lump: (address of the lump, offset from [data]). *)
Definition ptr : Type := nat * nat.

(** [p_start]: [&get_ptr] or [&hold_ptr]. *)
Inductive start_sel := StartGet | StartHold.
(** [p_end]: [&put_ptr] or [&end_ptr]. *)
Inductive end_sel := EndPut | EndEnd.
(** [p_get_end]: [&put_ptr], [&end_ptr] or [&lump->end] of some lump. *)
Inductive get_end_sel := GetEndPut | GetEndEnd | GetEndLump (l : nat).

Global Instance start_sel_eq_dec : EqDecision start_sel.
Proof. solve_decision. Defined.
Global Instance end_sel_eq_dec : EqDecision end_sel.
Proof. solve_decision. Defined.
Global Instance get_end_sel_eq_dec : EqDecision get_end_sel.
Proof. solve_decision. Defined.

(** [struct vio_fifo].  [allocated] and [freed] record the calls of
    XMALLOC and XFREE for lumps: the embedded [own_lump] has address
    [own_lump], the n-th allocated lump has address n. *)
Record vio_fifo := Fifo {
  base      : list vio_fifo_lump;
  p_start   : start_sel;
  hold_ptr  : option ptr;
  get_lump  : nat;
  get_ptr   : ptr;
  p_get_end : get_end_sel;
  end_lump  : nat;
  end_ptr   : option ptr;
  put_ptr   : ptr;
  put_end   : ptr;
  p_end     : end_sel;
  size      : nat;
  spare     : option vio_fifo_lump;
  allocated : nat;
  freed     : list nat
}.

Definition own_lump : nat := 0.

(** Field updates. *)
Definition set_base (v : vio_fifo) (x : list vio_fifo_lump) : vio_fifo :=
  Fifo x (p_start v) (hold_ptr v) (get_lump v) (get_ptr v) (p_get_end v)
       (end_lump v) (end_ptr v) (put_ptr v) (put_end v) (p_end v) (size v)
       (spare v) (allocated v) (freed v).
Definition set_p_start (v : vio_fifo) (x : start_sel) : vio_fifo :=
  Fifo (base v) x (hold_ptr v) (get_lump v) (get_ptr v) (p_get_end v)
       (end_lump v) (end_ptr v) (put_ptr v) (put_end v) (p_end v) (size v)
       (spare v) (allocated v) (freed v).
Definition set_hold_ptr (v : vio_fifo) (x : option ptr) : vio_fifo :=
  Fifo (base v) (p_start v) x (get_lump v) (get_ptr v) (p_get_end v)
       (end_lump v) (end_ptr v) (put_ptr v) (put_end v) (p_end v) (size v)
       (spare v) (allocated v) (freed v).
Definition set_get_lump (v : vio_fifo) (x : nat) : vio_fifo :=
  Fifo (base v) (p_start v) (hold_ptr v) x (get_ptr v) (p_get_end v)
       (end_lump v) (end_ptr v) (put_ptr v) (put_end v) (p_end v) (size v)
       (spare v) (allocated v) (freed v).
Definition set_get_ptr (v : vio_fifo) (x : ptr) : vio_fifo :=
  Fifo (base v) (p_start v) (hold_ptr v) (get_lump v) x (p_get_end v)
       (end_lump v) (end_ptr v) (put_ptr v) (put_end v) (p_end v) (size v)
       (spare v) (allocated v) (freed v).
Definition set_p_get_end (v : vio_fifo) (x : get_end_sel) : vio_fifo :=
  Fifo (base v) (p_start v) (hold_ptr v) (get_lump v) (get_ptr v) x
       (end_lump v) (end_ptr v) (put_ptr v) (put_end v) (p_end v) (size v)
       (spare v) (allocated v) (freed v).
Definition set_end_lump (v : vio_fifo) (x : nat) : vio_fifo :=
  Fifo (base v) (p_start v) (hold_ptr v) (get_lump v) (get_ptr v) (p_get_end v)
       x (end_ptr v) (put_ptr v) (put_end v) (p_end v) (size v)
       (spare v) (allocated v) (freed v).
Definition set_end_ptr (v : vio_fifo) (x : option ptr) : vio_fifo :=
  Fifo (base v) (p_start v) (hold_ptr v) (get_lump v) (get_ptr v) (p_get_end v)
       (end_lump v) x (put_ptr v) (put_end v) (p_end v) (size v)
       (spare v) (allocated v) (freed v).
Definition set_put_ptr (v : vio_fifo) (x : ptr) : vio_fifo :=
  Fifo (base v) (p_start v) (hold_ptr v) (get_lump v) (get_ptr v) (p_get_end v)
       (end_lump v) (end_ptr v) x (put_end v) (p_end v) (size v)
       (spare v) (allocated v) (freed v).
Definition set_put_end (v : vio_fifo) (x : ptr) : vio_fifo :=
  Fifo (base v) (p_start v) (hold_ptr v) (get_lump v) (get_ptr v) (p_get_end v)
       (end_lump v) (end_ptr v) (put_ptr v) x (p_end v) (size v)
       (spare v) (allocated v) (freed v).
Definition set_p_end (v : vio_fifo) (x : end_sel) : vio_fifo :=
  Fifo (base v) (p_start v) (hold_ptr v) (get_lump v) (get_ptr v) (p_get_end v)
       (end_lump v) (end_ptr v) (put_ptr v) (put_end v) x (size v)
       (spare v) (allocated v) (freed v).
Definition set_spare (v : vio_fifo) (x : option vio_fifo_lump) : vio_fifo :=
  Fifo (base v) (p_start v) (hold_ptr v) (get_lump v) (get_ptr v) (p_get_end v)
       (end_lump v) (end_ptr v) (put_ptr v) (put_end v) (p_end v) (size v)
       x (allocated v) (freed v).
Definition set_allocated (v : vio_fifo) (x : nat) : vio_fifo :=
  Fifo (base v) (p_start v) (hold_ptr v) (get_lump v) (get_ptr v) (p_get_end v)
       (end_lump v) (end_ptr v) (put_ptr v) (put_end v) (p_end v) (size v)
       (spare v) x (freed v).
Definition set_freed (v : vio_fifo) (x : list nat) : vio_fifo :=
  Fifo (base v) (p_start v) (hold_ptr v) (get_lump v) (get_ptr v) (p_get_end v)
       (end_lump v) (end_ptr v) (put_ptr v) (put_end v) (p_end v) (size v)
       (spare v) (allocated v) x.

(** ** Pointers and lump storage *)

(** [lump->data] and [lump->end]. *)
Definition lump_data_ptr (l : vio_fifo_lump) : ptr := (lump_addr l, 0).
Definition lump_end_ptr (v : vio_fifo) (l : nat) : ptr := (l, size v).

Definition ptr_eqb (a b : ptr) : bool := bool_decide (a = b).
Definition optr_eqb (a b : option ptr) : bool := bool_decide (a = b).

(** [a - b] and [a >= b] on pointers: defined inside one lump only. *)
Definition ptr_sub (a b : ptr) : option nat :=
  if bool_decide (a.1 = b.1) && bool_decide (b.2 ≤ a.2)
  then Some (a.2 - b.2) else None.
Definition ptr_ge (a b : ptr) : option bool :=
  if bool_decide (a.1 = b.1) then Some (bool_decide (b.2 ≤ a.2)) else None.
Definition ptr_add (a : ptr) (n : nat) : ptr := (a.1, a.2 + n).

Definition assert (b : bool) : option unit := if b then Some () else None.

(** [memcpy(p, bs, length bs)] into the lump of the list that [p] points
    into; [None] when no lump of the list has that address or the copy
    would run past the lump's end. *)
Fixpoint lump_write (b : list vio_fifo_lump) (p : ptr) (bs : list byte)
  : option (list vio_fifo_lump) :=
  match b with
  | [] => None
  | l :: r =>
      if bool_decide (lump_addr l = p.1) then
        if bool_decide (p.2 + length bs ≤ length (lump_data l)) then
          Some (Lump (lump_addr l)
                  (take p.2 (lump_data l) ++ bs
                     ++ drop (p.2 + length bs) (lump_data l)) :: r)
        else None
      else r' ← lump_write r p bs; Some (l :: r')
  end.

(** [memcpy(dst, p, n)] out of the lump that [p] points into. *)
Fixpoint lump_read (b : list vio_fifo_lump) (p : ptr) (n : nat)
  : option (list byte) :=
  match b with
  | [] => None
  | l :: r =>
      if bool_decide (lump_addr l = p.1) then
        if bool_decide (p.2 + n ≤ length (lump_data l)) then
          Some (take n (drop p.2 (lump_data l)))
        else None
      else lump_read r p n
  end.

(** ** The list macros of lib/list_util.h, on [base]

    Modelled from the spec: lib/list_util.h is not among the sources; the
    lump list is "an ordered, non-empty list of lumps, head (oldest) ...
    tail (newest)", [ddl_append] adds at the tail, [ddl_pop] removes and
    yields the head, [ddl_crop] removes and yields the tail, [ddl_next]
    is the successor (NULL after the tail); each yields NULL on an empty
    list. *)
Definition ddl_head (b : list vio_fifo_lump) : option vio_fifo_lump := head b.
Definition ddl_tail (b : list vio_fifo_lump) : option vio_fifo_lump := last b.
Definition ddl_append (b : list vio_fifo_lump) (l : vio_fifo_lump) := b ++ [l].
Definition ddl_pop (b : list vio_fifo_lump)
  : option vio_fifo_lump * list vio_fifo_lump := (head b, tail b).
Definition ddl_crop (b : list vio_fifo_lump)
  : option vio_fifo_lump * list vio_fifo_lump := (last b, removelast b).
Fixpoint ddl_next (l : nat) (b : list vio_fifo_lump) : option vio_fifo_lump :=
  match b with
  | [] => None
  | x :: r => if bool_decide (lump_addr x = l) then head r else ddl_next l r
  end.

(** Address of an optional lump, for comparisons such as
    [ddl_head(vff->base) != upto] ([None] is NULL). *)
Definition addr_of (l : option vio_fifo_lump) : option nat := lump_addr <$> l.

(** ** Selectors *)

Definition vio_fifo_have_hold_mark (v : vio_fifo) : bool :=
  bool_decide (p_start v = StartHold).
Definition vio_fifo_have_end_mark (v : vio_fifo) : bool :=
  bool_decide (p_end v = EndEnd).

(** [*vff->p_start], [*vff->p_end], [*vff->p_get_end]. *)
Definition deref_start (v : vio_fifo) : option ptr :=
  match p_start v with StartGet => Some (get_ptr v) | StartHold => hold_ptr v end.
Definition deref_end (v : vio_fifo) : option ptr :=
  match p_end v with EndPut => Some (put_ptr v) | EndEnd => end_ptr v end.
Definition deref_get_end (v : vio_fifo) : option ptr :=
  match p_get_end v with
  | GetEndPut => Some (put_ptr v)
  | GetEndEnd => end_ptr v
  | GetEndLump l => Some (lump_end_ptr v l)
  end.
Definition get_end_of (e : end_sel) : get_end_sel :=
  match e with EndPut => GetEndPut | EndEnd => GetEndEnd end.

(** ** Cursor maintenance *)

Definition vio_fifo_reset_ptrs (v : vio_fifo) : option vio_fifo :=
  t ← ddl_tail (base v);
  let p := lump_data_ptr t in
  Some (set_put_ptr (set_end_ptr (set_get_ptr (set_hold_ptr v (Some p)) p)
                       (Some p)) p).

Definition vio_fifo_set_get_end (v : vio_fifo) : vio_fifo :=
  set_p_get_end v (if bool_decide (get_lump v = end_lump v)
                   then get_end_of (p_end v)
                   else GetEndLump (get_lump v)).

(** The third argument is not used by the body: [get_ptr] is set to
    [lump->data]. *)
Definition vio_fifo_set_get_ptr (v : vio_fifo) (lump : vio_fifo_lump)
    (p : ptr) : vio_fifo :=
  vio_fifo_set_get_end
    (set_get_ptr (set_get_lump v (lump_addr lump)) (lump_data_ptr lump)).

Definition vio_fifo_release_lump (v : vio_fifo) (lump : option vio_fifo_lump)
  : option vio_fifo :=
  l ← lump;
  _ ← assert (negb (bool_decide (lump_addr l = get_lump v)));
  _ ← assert (negb (bool_decide (lump_addr l = end_lump v)));
  match spare v with
  | None => Some (set_spare v (Some l))
  | Some sp =>
      if bool_decide (lump_addr l = own_lump)
      then Some (set_freed (set_spare v (Some l)) (lump_addr sp :: freed v))
      else Some (set_freed v (lump_addr l :: freed v))
  end.

(** [while (ddl_head(vff->base) != upto) release(ddl_pop(..))]; [ls] is
    [vff->base] at each turn.  On an empty list the head is NULL, differs
    from [upto], and the pop yields NULL, which the release asserts
    against. *)
Fixpoint release_upto_loop (ls : list vio_fifo_lump) (v : vio_fifo)
    (upto : nat) : option vio_fifo :=
  match ls with
  | [] => None
  | l :: r =>
      if bool_decide (lump_addr l = upto) then Some v
      else v' ← vio_fifo_release_lump (set_base v r) (Some l);
           release_upto_loop r v' upto
  end.
Definition vio_fifo_release_upto (v : vio_fifo) (upto : nat) : option vio_fifo :=
  release_upto_loop (base v) v upto.

Definition vio_fifo_sync_get (v : vio_fifo) : option vio_fifo :=
  if bool_decide (get_lump v = end_lump v) then
    if optr_eqb (deref_start v) (Some (put_ptr v))
    then vio_fifo_reset_ptrs v else Some v
  else
    nl ← ddl_next (get_lump v) (base v);
    let v := vio_fifo_set_get_ptr v nl (lump_data_ptr nl) in
    if negb (vio_fifo_have_hold_mark v)
    then vio_fifo_release_upto v (lump_addr nl) else Some v.

(** ** Creation *)

(** Modelled from the spec: VIO_FIFO_DEFAULT_LUMP_SIZE is declared in
    lib/vio_fifo.h, which is not among the sources; the spec names 4096 as
    the size of a default FIFO. *)
Definition VIO_FIFO_DEFAULT_LUMP_SIZE : nat := 4096.

(** Contents of fresh dynamic memory (XMALLOC leaves them unspecified,
    XCALLOC zeroes them). *)
Definition fresh_data (n : nat) : list byte := replicate n x00.

Definition lump_size (debug : bool) (size : nat) : nat :=
  let size := if bool_decide (size = 0) then VIO_FIFO_DEFAULT_LUMP_SIZE else size in
  let size := ((size + 128 - 1) / 128) * 128 in
  if debug then 29 else size.

Definition vio_fifo_new (debug : bool) (size : nat) : vio_fifo :=
  let size := lump_size debug size in
  let own := Lump own_lump (fresh_data size) in
  {| base := ddl_append [] own;
     p_start := StartGet;
     hold_ptr := None;
     get_lump := own_lump;
     get_ptr := lump_data_ptr own;
     p_get_end := GetEndPut;
     end_lump := own_lump;
     end_ptr := None;
     put_ptr := lump_data_ptr own;
     put_end := (own_lump, size);
     p_end := EndPut;
     size := size;
     spare := None;
     allocated := 0;
     freed := [] |}.

(** ** Growing *)

Definition vio_fifo_add_lump (v : vio_fifo) : option vio_fifo :=
  _ ← assert (ptr_eqb (put_ptr v) (put_end v));
  _ ← assert (negb (optr_eqb (Some (put_ptr v)) (deref_start v)));
  let '(lump, v) :=
    match spare v with
    | Some l => (l, set_spare v None)
    | None => (Lump (S (allocated v)) (fresh_data (size v)),
               set_allocated (set_spare v None) (S (allocated v)))
    end in
  let v := set_base v (ddl_append (base v) lump) in
  let v := if ptr_eqb (get_ptr v) (put_ptr v)
           then set_get_ptr (set_get_lump v (lump_addr lump)) (lump_data_ptr lump)
           else v in
  let v := if optr_eqb (Some (put_ptr v)) (deref_end v)
           then set_end_ptr (set_end_lump v (lump_addr lump))
                  (Some (lump_data_ptr lump))
           else v in
  let v := set_put_end (set_put_ptr v (lump_data_ptr lump))
             (lump_end_ptr v (lump_addr lump)) in
  Some (vio_fifo_set_get_end v).

(** ** Put *)

(** [while (n > 0)] of [vio_fifo_put_bytes]; [src] is the [n] bytes still
    to be put.  Every turn puts at least one byte when lumps are not
    empty, so [n] turns are enough. *)
Fixpoint put_bytes_loop (fuel : nat) (v : vio_fifo) (src : list byte)
  : option vio_fifo :=
  match src with
  | [] => Some v
  | _ :: _ =>
      match fuel with
      | 0 => None
      | S fuel =>
          full ← ptr_ge (put_ptr v) (put_end v);
          v ← (if full : bool then vio_fifo_add_lump v else Some v);
          room ← ptr_sub (put_end v) (put_ptr v);
          let take_ := if bool_decide (length src < room) then length src else room in
          b ← lump_write (base v) (put_ptr v) (take take_ src);
          let v := set_put_ptr (set_base v b) (ptr_add (put_ptr v) take_) in
          put_bytes_loop fuel v (drop take_ src)
      end
  end.

Definition vio_fifo_put_bytes (v : vio_fifo) (src : list byte) : option vio_fifo :=
  put_bytes_loop (length src) v src.

(** ** The inline accessors of lib/vio_fifo.h

    Modelled from the spec: lib/vio_fifo.h (with [vio_fifo_get],
    [vio_fifo_get_ptr] and [vio_fifo_step]) is not among the sources.  The
    spec: the visible limit for GET is what [p_get_end] selects, and the
    advance-GET protocol ([vio_fifo_sync_get]) is "invoked whenever
    get == visible-limit" after GET has moved past the bytes used. *)
Definition vio_fifo_get (v : vio_fifo) : option nat :=
  e ← deref_get_end v; ptr_sub e (get_ptr v).

Definition vio_fifo_get_ptr (v : vio_fifo) : ptr := get_ptr v.

Definition vio_fifo_step (v : vio_fifo) (step : nat) : option vio_fifo :=
  let v := set_get_ptr v (ptr_add (get_ptr v) step) in
  e ← deref_get_end v;
  at_end ← ptr_ge (get_ptr v) e;
  if at_end : bool then vio_fifo_sync_get v else Some v.

(** ** Get *)

(** [while (n > 0)] of [vio_fifo_get_bytes]; the result carries the bytes
    copied to [dst] (their number is the function's return value). *)
Fixpoint get_bytes_loop (fuel : nat) (v : vio_fifo) (n : nat)
  : option (vio_fifo * list byte) :=
  match n with
  | 0 => Some (v, [])
  | S _ =>
      match fuel with
      | 0 => None
      | S fuel =>
          e ← deref_get_end v;
          have ← ptr_sub e (get_ptr v);
          let take_ := if bool_decide (n < have) then n else have in
          if negb (bool_decide (n < have)) && bool_decide (take_ = 0)
          then Some (v, [])
          else
            bs ← lump_read (base v) (get_ptr v) take_;
            v ← vio_fifo_step v take_;
            '(v, rest) ← get_bytes_loop fuel v (n - take_);
            Some (v, bs ++ rest)
      end
  end.

Definition vio_fifo_get_bytes (v : vio_fifo) (n : nat)
  : option (vio_fifo * list byte) :=
  get_bytes_loop n v n.

(** ** End mark *)

Definition vio_fifo_set_end_mark (v : vio_fifo) : option vio_fifo :=
  let v := set_p_end v EndEnd in
  let v := set_end_ptr v (Some (put_ptr v)) in
  t ← ddl_tail (base v);
  Some (vio_fifo_set_get_end (set_end_lump v (lump_addr t))).

Definition vio_fifo_step_end_mark (v : vio_fifo) : option vio_fifo :=
  if vio_fifo_have_end_mark v then
    let v := set_end_ptr v (Some (put_ptr v)) in
    t ← ddl_tail (base v);
    Some (vio_fifo_set_get_end (set_end_lump v (lump_addr t)))
  else Some v.

Definition vio_fifo_clear_end_mark (v : vio_fifo) : option vio_fifo :=
  let v := set_p_end v EndPut in
  t ← ddl_tail (base v);
  Some (vio_fifo_set_get_end (set_end_lump v (lump_addr t))).

(** [do release(ddl_crop(..)) while (end_lump != ddl_tail(base))]: a turn
    on an empty list asserts, so the list's length plus one bounds the
    turns. *)
Fixpoint crop_loop (fuel : nat) (v : vio_fifo) : option vio_fifo :=
  match fuel with
  | 0 => None
  | S fuel =>
      let '(l, b) := ddl_crop (base v) in
      v ← vio_fifo_release_lump (set_base v b) l;
      if negb (bool_decide (Some (end_lump v) = addr_of (ddl_tail (base v))))
      then crop_loop fuel v else Some v
  end.

Definition vio_fifo_back_to_end_mark (v : vio_fifo) (keep : bool)
  : option vio_fifo :=
  v ← (if negb (optr_eqb (deref_end v) (Some (put_ptr v))) then
         v ← (if negb (bool_decide (Some (end_lump v) = addr_of (ddl_tail (base v))))
              then v ← crop_loop (S (length (base v))) v;
                   Some (set_put_end v (lump_end_ptr v (end_lump v)))
              else Some v);
         if optr_eqb (deref_start v) (end_ptr v)
         then vio_fifo_reset_ptrs v
         else e ← end_ptr v; Some (set_put_ptr v e)
       else Some v);
  if negb keep then Some (vio_fifo_set_get_end (set_p_end v EndPut))
  else Some v.

(** ** Hold mark *)

Definition vio_fifo_set_hold_mark (v : vio_fifo) : option vio_fifo :=
  v ← vio_fifo_release_upto v (get_lump v);
  v ← (if ptr_eqb (get_ptr v) (put_ptr v) then vio_fifo_reset_ptrs v
       else Some (set_hold_ptr v (Some (get_ptr v))));
  Some (set_p_start v StartHold).

Definition vio_fifo_clear_hold_mark (v : vio_fifo) : option vio_fifo :=
  v ← vio_fifo_release_upto v (get_lump v);
  v ← (if ptr_eqb (get_ptr v) (put_ptr v) then vio_fifo_reset_ptrs v
       else Some v);
  Some (set_p_start v StartGet).

(** [vff->hold_ptr] is passed as a [char*]; NULL is passed as it is (the
    callee does not read it). *)
Definition vio_fifo_back_to_hold_mark (v : vio_fifo) (set : bool)
  : option vio_fifo :=
  v ← (if vio_fifo_have_hold_mark v then
         h ← ddl_head (base v);
         Some (vio_fifo_set_get_ptr v h (default (0, 0) (hold_ptr v)))
       else Some v);
  Some (set_p_start v (if set then StartHold else StartGet)).

(** ** Clear and skip *)

Definition vio_fifo_clear (v : vio_fifo) (clear_marks : bool) : option vio_fifo :=
  lump ← ddl_tail (base v);
  v ← vio_fifo_release_upto v (lump_addr lump);
  let v := set_end_lump (set_get_lump v (lump_addr lump)) (lump_addr lump) in
  v ← vio_fifo_reset_ptrs v;
  let v := if clear_marks then set_p_end (set_p_start v StartGet) EndPut else v in
  Some (set_p_get_end v (get_end_of (p_end v))).

Definition vio_fifo_skip_to_end (v : vio_fifo) : option vio_fifo :=
  let v := set_get_lump v (end_lump v) in
  e ← deref_end v;
  let v := set_get_ptr v e in
  let v := set_p_get_end v (get_end_of (p_end v)) in
  vio_fifo_sync_get v.

(** ** Descriptors

    Modelled from the spec: [read_nb] and [write_nb] (lib/network.h) are
    external collaborators, "the non-blocking read/write primitives over
    file descriptors".  From the code that calls them: [read_nb] returns
    the number of bytes read, 0 when it would block, -1 on error and -2 at
    end of input; [write_nb] returns the number of bytes written (0 when it
    would block) or a negative number on error.

    A source descriptor is the list of what its coming reads meet: data
    ready to be read, a would-block condition, an error; end of input when
    the list is empty.  A sink descriptor is the list of what its coming
    writes meet: room for up to [n] bytes, or an error; it blocks when the
    list is empty. *)
Inductive fd_event := FdData (bs : list byte) | FdBlock | FdError.
Inductive sink_event := SinkTake (n : nat) | SinkError.

Definition read_nb (fd : list fd_event) (len : nat)
  : Z * list byte * list fd_event :=
  match fd with
  | [] => ((-2)%Z, [], [])
  | FdBlock :: r => (0%Z, [], r)
  | FdError :: r => ((-1)%Z, [], r)
  | FdData bs :: r =>
      if bool_decide (len < length bs)
      then (Z.of_nat len, take len bs, FdData (drop len bs) :: r)
      else (Z.of_nat (length bs), bs, r)
  end.

Definition write_nb (e : option sink_event) (have : nat) : Z :=
  match e with
  | None => 0%Z
  | Some (SinkTake n) => Z.of_nat (n `min` have)
  | Some SinkError => (-1)%Z
  end.

(** [fwrite(p, have, 1, file)]: 1 when the whole item went out, else 0;
    the second component is the number of bytes that reached the file. *)
Definition fwrite (e : option sink_event) (have : nat) : Z * nat :=
  match e with
  | None => (0%Z, 0)
  | Some (SinkTake n) => if bool_decide (have ≤ n) then (1%Z, have) else (0%Z, n)
  | Some SinkError => (0%Z, 0)
  end.

(** Every read takes an event or at least one byte off the descriptor. *)
Definition fd_weight (fd : list fd_event) : nat :=
  sum_list ((λ e, match e with FdData bs => S (length bs) | _ => 1 end) <$> fd).

(** [do ... while (request > 0)] of [vio_fifo_read_nb]. *)
Fixpoint read_nb_loop (fuel : nat) (v : vio_fifo) (fd : list fd_event)
    (request total : nat) : option (vio_fifo * list fd_event * Z) :=
  match fuel with
  | 0 => None
  | S fuel =>
      full ← ptr_ge (put_ptr v) (put_end v);
      '(v, request) ←
         (if full : bool then
            v ← vio_fifo_add_lump v;
            Some (v, if bool_decide (0 < request) then request - 1 else request)
          else Some (v, request));
      room ← ptr_sub (put_end v) (put_ptr v);
      let '(got, bs, fd) := read_nb fd room in
      if bool_decide (got ≤ 0)%Z then
        if bool_decide (got = -2)%Z
        then Some (v, fd, if bool_decide (0 < total) then Z.of_nat total else got)
        else Some (v, fd, if bool_decide (got = 0)%Z then Z.of_nat total else got)
      else
        b ← lump_write (base v) (put_ptr v) bs;
        let v := set_put_ptr (set_base v b) (ptr_add (put_ptr v) (Z.to_nat got)) in
        let total := total + Z.to_nat got in
        if bool_decide (0 < request)
        then read_nb_loop fuel v fd request total
        else Some (v, fd, Z.of_nat total)
  end.

(** The result: the FIFO, what is left of the descriptor, the return
    value. *)
Definition vio_fifo_read_nb (v : vio_fifo) (fd : list fd_event) (request : nat)
  : option (vio_fifo * list fd_event * Z) :=
  read_nb_loop (S (fd_weight fd)) v fd request 0.

(** One turn of the [while (1)] of [vio_fifo_write_nb] against the sink's
    next event: the FIFO, the bytes the sink took, and the return value
    when the turn leaves the loop. *)
Definition write_nb_turn (v : vio_fifo) (all : bool) (e : option sink_event)
  : option (vio_fifo * list byte * option Z) :=
  if bool_decide (get_lump v = end_lump v) && negb all then Some (v, [], Some 0%Z)
  else
    have ← vio_fifo_get v;
    if bool_decide (have = 0) then Some (v, [], Some 0%Z)
    else
      let done := write_nb e have in
      if bool_decide (done < 0)%Z then Some (v, [], Some (-1)%Z)
      else
        bs ← lump_read (base v) (vio_fifo_get_ptr v) (Z.to_nat done);
        v ← vio_fifo_step v (Z.to_nat done);
        if bool_decide (done < Z.of_nat have)%Z then Some (v, bs, Some 1%Z)
        else Some (v, bs, None).

(** A turn that leaves the loop before writing uses no event. *)
Definition write_nb_uses (v : vio_fifo) (all : bool) : bool :=
  negb (bool_decide (get_lump v = end_lump v) && negb all)
  && negb (bool_decide (vio_fifo_get v = Some 0)).

(** The result: the FIFO, the return value, the bytes written, what is
    left of the sink. *)
Fixpoint vio_fifo_write_nb (v : vio_fifo) (sink : list sink_event) (all : bool)
  : option (vio_fifo * Z * list byte * list sink_event) :=
  let uses := write_nb_uses v all in
  '(v, bs, r) ← write_nb_turn v all (head sink);
  match r with
  | Some r => Some (v, r, bs, if uses then tail sink else sink)
  | None =>
      match sink with
      | [] => None
      | _ :: sink' =>
          '(v, r, out, s) ← vio_fifo_write_nb v sink' all;
          Some (v, r, bs ++ out, s)
      end
  end.

Definition fwrite_turn (v : vio_fifo) (e : option sink_event)
  : option (vio_fifo * list byte * option Z) :=
  have ← vio_fifo_get v;
  if bool_decide (have = 0) then Some (v, [], Some 0%Z)
  else
    let '(done, n) := fwrite e have in
    bs ← lump_read (base v) (vio_fifo_get_ptr v) n;
    if bool_decide (done < 1)%Z then Some (v, bs, Some (-1)%Z)
    else v ← vio_fifo_step v have; Some (v, bs, None).

Fixpoint vio_fifo_fwrite (v : vio_fifo) (file : list sink_event)
  : option (vio_fifo * Z * list byte * list sink_event) :=
  let uses := negb (bool_decide (vio_fifo_get v = Some 0)) in
  '(v, bs, r) ← fwrite_turn v (head file);
  match r with
  | Some r => Some (v, r, bs, if uses then tail file else file)
  | None =>
      match file with
      | [] => None
      | _ :: file' =>
          '(v, r, out, s) ← vio_fifo_fwrite v file';
          Some (v, r, bs ++ out, s)
      end
  end.

(** ** Copy

    The two FIFOs are objects in memory: a store maps the address of a
    [struct vio_fifo] to its value, and NULL is [None].  The loops read
    [src] through its address at every turn, as the code does. *)
Definition store_new (st : list vio_fifo) (v : vio_fifo) : list vio_fifo * nat :=
  (st ++ [v], length st).

Fixpoint copy_loop (fuel : nat) (st : list vio_fifo) (dst src : nat)
    (src_lump : nat) (src_ptr : ptr) : option (list vio_fifo) :=
  match fuel with
  | 0 => None
  | S fuel =>
      s ← st !! src;
      src_end ← (if negb (bool_decide (src_lump = end_lump s))
                 then Some (lump_end_ptr s src_lump) else deref_end s);
      n ← ptr_sub src_end src_ptr;
      bs ← lump_read (base s) src_ptr n;
      d ← st !! dst;
      d ← vio_fifo_put_bytes d bs;
      let st := <[dst := d]> st in
      s ← st !! src;
      if bool_decide (src_lump = end_lump s) then Some st
      else
        nl ← ddl_next src_lump (base s);
        copy_loop fuel st dst src (lump_addr nl) (lump_data_ptr nl)
  end.

Definition vio_fifo_copy (debug : bool) (st : list vio_fifo)
    (dst : option nat) (src : nat) : option (list vio_fifo * nat) :=
  s ← st !! src;
  let '(st, dst) := match dst with
                    | Some d => (st, d)
                    | None => store_new st (vio_fifo_new debug (size s))
                    end in
  s ← st !! src;
  st ← copy_loop (S (length (base s))) st dst src (get_lump s) (get_ptr s);
  Some (st, dst).

Fixpoint copy_tail_loop (fuel : nat) (st : list vio_fifo) (dst src : nat)
    (src_lump : nat) (src_ptr : ptr) (tail_ : option vio_fifo_lump)
  : option (list vio_fifo) :=
  match fuel with
  | 0 => None
  | S fuel =>
      s ← st !! src;
      let src_end := if negb (bool_decide (Some src_lump = addr_of tail_))
                     then lump_end_ptr s src_lump else put_ptr s in
      n ← ptr_sub src_end src_ptr;
      bs ← lump_read (base s) src_ptr n;
      d ← st !! dst;
      d ← vio_fifo_put_bytes d bs;
      let st := <[dst := d]> st in
      s ← st !! src;
      if bool_decide (Some src_lump = addr_of tail_) then Some st
      else
        nl ← ddl_next src_lump (base s);
        copy_tail_loop fuel st dst src (lump_addr nl) (lump_data_ptr nl) tail_
  end.

Definition vio_fifo_copy_tail (debug : bool) (st : list vio_fifo)
    (dst : option nat) (src : nat) : option (list vio_fifo * nat) :=
  s ← st !! src;
  let '(st, dst) := match dst with
                    | Some d => (st, d)
                    | None => store_new st (vio_fifo_new debug (size s))
                    end in
  s ← st !! src;
  if negb (vio_fifo_have_end_mark s) then Some (st, dst)
  else
    src_ptr ← end_ptr s;
    st ← copy_tail_loop (S (length (base s))) st dst src (end_lump s) src_ptr
           (ddl_tail (base s));
    Some (st, dst).

(** ** Freeing *)

(** [do { if (lump != own_lump) XFREE(lump) ; ddl_pop(&lump, base) ; }
    while (lump != NULL)]: [ls] is [vff->base] at each turn, [lump] the lump
    in hand (NULL is [None], which XFREE accepts) and [fr] the lumps handed
    to XFREE so far. *)
Fixpoint free_loop (ls : list vio_fifo_lump) (lump : option vio_fifo_lump)
    (fr : list nat) : list nat :=
  let fr := match lump with
            | Some l =>
                if bool_decide (lump_addr l = own_lump) then fr
                else lump_addr l :: fr
            | None => fr
            end in
  match ls with
  | [] => fr
  | l :: r => free_loop r (Some l) fr
  end.

(** [vio_fifo_free] frees the lumps and the FIFO and returns NULL.  The
    value here is its effect: the lumps handed to XFREE over the life of
    the FIFO, this call included; none for a NULL FIFO.  The embedded lump
    goes with the [struct vio_fifo] itself. *)
Definition vio_fifo_free (v : option vio_fifo) : list nat :=
  match v with
  | None => []
  | Some v => free_loop (base v) (spare v) (freed v)
  end.

(** ** Verification

    [vio_fifo_verify], which the debug build runs before and after each
    operation.  [zabort] is [None].  Pointers are compared inside one
    lump, as [ptr_ge]; a comparison with NULL aborts (NULL is below every
    lump). *)

(** [a > b]. *)
Definition ptr_gt (a b : ptr) : option bool := ge ← ptr_ge b a; Some (negb ge).

(** [a || b] on comparisons: [b] is not evaluated when [a] holds. *)
Definition or_else (a b : option bool) : option bool :=
  x ← a; if x : bool then Some true else b.

(** [if (b) zabort(..)]. *)
Definition zabort_if (b : bool) : option unit := if b then None else Some ().

(** The first walk: from the head to [get_lump], the lump in hand
    looked at before it is compared.  [ls] is the list from the lump in
    hand on, so that [ddl_next] is the head of its tail.  The result is
    the list from the lump reached on, and [own_seen]. *)
Fixpoint verify_find (ls : list vio_fifo_lump) (own_seen : bool) (target : nat)
  : option (list vio_fifo_lump * bool) :=
  match ls with
  | [] => None
  | lump :: r =>
      let own_seen := own_seen || bool_decide (lump_addr lump = own_lump) in
      if bool_decide (lump_addr lump = target) then Some (ls, own_seen)
      else verify_find r own_seen target
  end.

(** The second and third walks: [while (lump != target)], stepping to the
    next lump and looking at it. *)
Fixpoint verify_walk (ls : list vio_fifo_lump) (own_seen : bool) (target : nat)
  : option (list vio_fifo_lump * bool) :=
  match ls with
  | [] => None
  | lump :: r =>
      if bool_decide (lump_addr lump = target) then Some (ls, own_seen)
      else
        match r with
        | [] => None
        | next :: _ =>
            verify_walk r (own_seen || bool_decide (lump_addr next = own_lump))
              target
        end
  end.

Definition vio_fifo_verify (v : vio_fifo) : option unit :=
  head ← ddl_head (base v);
  tail ← ddl_tail (base v);
  (* the lump pointers: head <= get_lump <= end_lump <= tail *)
  '(ls, own_seen) ← verify_find (base v) false (get_lump v);
  '(ls, own_seen) ← verify_walk ls own_seen (end_lump v);
  '(ls, own_seen) ← verify_walk ls own_seen (lump_addr tail);
  _ ← zabort_if (if bool_decide (addr_of (spare v) = Some own_lump)
                 then own_seen else negb own_seen);
  (* p_start and p_end are one of their two fields by construction *)
  _ ← zabort_if
        (negb (bool_decide
                 (p_get_end v = if bool_decide (get_lump v = end_lump v)
                                then get_end_of (p_end v)
                                else GetEndLump (get_lump v))));
  (* the pointers are within their lumps *)
  _ ← (if vio_fifo_have_hold_mark v then
         h ← hold_ptr v;
         out ← or_else (ptr_gt (lump_data_ptr head) h)
                 (ptr_gt h (lump_end_ptr v (lump_addr head)));
         _ ← zabort_if out;
         if bool_decide (get_lump v = lump_addr head)
         then gt ← ptr_gt h (get_ptr v); zabort_if gt
         else Some ()
       else zabort_if (negb (bool_decide (get_lump v = lump_addr head))));
  e ← deref_get_end v;
  out ← or_else (ptr_gt (get_lump v, 0) (get_ptr v))
          (or_else (ptr_gt (get_ptr v) e)
             (ptr_gt e (lump_end_ptr v (get_lump v))));
  _ ← zabort_if out;
  _ ← (if vio_fifo_have_end_mark v then
         e ← end_ptr v;
         out ← or_else (ptr_gt (end_lump v, 0) e)
                 (ptr_gt e (lump_end_ptr v (end_lump v)));
         _ ← zabort_if out;
         if bool_decide (end_lump v = lump_addr tail)
         then gt ← ptr_gt e (put_ptr v); zabort_if gt
         else Some ()
       else zabort_if (negb (bool_decide (end_lump v = lump_addr tail))));
  out ← or_else (ptr_gt (lump_data_ptr tail) (put_ptr v))
          (or_else (ptr_gt (put_ptr v) (put_end v))
             (Some (negb (ptr_eqb (put_end v)
                            (lump_end_ptr v (lump_addr tail))))));
  _ ← zabort_if out;
  (* GET at its end: the FIFO is empty or a mark is set *)
  _ ← (if optr_eqb (Some (get_ptr v)) (deref_get_end v) then
         if negb (optr_eqb (deref_start v) (Some (put_ptr v))) then
           zabort_if (negb (vio_fifo_have_hold_mark v
                            || vio_fifo_have_end_mark v))
         else Some ()
       else Some ());
  (* an empty FIFO has its pointers reset *)
  if optr_eqb (deref_start v) (Some (put_ptr v)) then
    zabort_if
      (negb (bool_decide (lump_addr tail = lump_addr head))
       || negb (bool_decide (get_lump v = lump_addr head))
       || negb (bool_decide (end_lump v = lump_addr head))
       || negb (ptr_eqb (get_ptr v) (lump_data_ptr head))
       || negb (ptr_eqb (put_ptr v) (lump_data_ptr head))
       || negb (ptr_eqb (put_end v) (lump_end_ptr v (lump_addr head)))
       || negb (optr_eqb (hold_ptr v) None
                || optr_eqb (hold_ptr v) (Some (lump_data_ptr head)))
       || negb (optr_eqb (end_ptr v) None
                || optr_eqb (end_ptr v) (Some (lump_data_ptr head))))
  else Some ().

(** ** What a FIFO holds: positions and contents *)

Definition addrs (b : list vio_fifo_lump) : list nat := lump_addr <$> b.

(** The lumps a FIFO owns: those of its list and its spare. *)
Definition lumps (v : vio_fifo) : list vio_fifo_lump :=
  base v ++ option_list (spare v).

(** Place of the lump at address [a] in the list (the list's length when
    it is not there). *)
Fixpoint lump_index (a : nat) (b : list vio_fifo_lump) : nat :=
  match b with
  | [] => 0
  | l :: r => if bool_decide (lump_addr l = a) then 0 else S (lump_index a r)
  end.

(** The lumps' data laid end to end. *)
Fixpoint flat (b : list vio_fifo_lump) : list byte :=
  match b with
  | [] => []
  | l :: r => lump_data l ++ flat r
  end.

Definition slice {A} (a b : nat) (l : list A) : list A := take (b - a) (drop a l).

(** A pointer as (place of its lump, offset), and as an offset into
    [flat]. *)
Definition ix (v : vio_fifo) (a : nat) : nat := lump_index a (base v).
Definition pos (v : vio_fifo) (p : ptr) : nat := ix v p.1 * size v + p.2.

Definition get_pos (v : vio_fifo) : nat := pos v (get_ptr v).
Definition put_pos (v : vio_fifo) : nat := pos v (put_ptr v).
Definition end_pos (v : vio_fifo) : nat :=
  pos v (default (put_ptr v) (deref_end v)).

(** The bytes a consumer can get: from GET to the end mark, or to PUT when
    no end mark is set. *)
Definition visible (v : vio_fifo) : list byte :=
  slice (get_pos v) (end_pos v) (flat (base v)).
(** All the bytes from GET to PUT. *)
Definition stored (v : vio_fifo) : list byte :=
  slice (get_pos v) (put_pos v) (flat (base v)).
(** The bytes put after the end mark. *)
Definition pending (v : vio_fifo) : list byte :=
  slice (end_pos v) (put_pos v) (flat (base v)).
(** The visible bytes that lie in the lumps before the end lump. *)
Definition whole_lumps (v : vio_fifo) : list byte :=
  slice (get_pos v) (ix v (end_lump v) * size v) (flat (base v)).

(** Order of two (place, offset) pairs. *)
Definition lex_le (a b : nat * nat) : Prop :=
  a.1 < b.1 ∨ (a.1 = b.1 ∧ a.2 ≤ b.2).

Definition ipos (v : vio_fifo) (p : ptr) : nat * nat := (ix v p.1, p.2).

(** The effective end of the visible data: [*p_end]. *)
Definition eff_end (v : vio_fifo) : ptr := default (put_ptr v) (deref_end v).

(** The state invariant, first part: the lumps.  Every lump has [size]
    bytes, no two lumps share an address, the embedded lump is in the list
    or is the spare, and it has never been freed. *)
Record wf_mem (v : vio_fifo) : Prop := {
  wf_size : 0 < size v;
  wf_data : Forall (λ l, length (lump_data l) = size v) (lumps v);
  wf_nodup : NoDup (addrs (lumps v));
  wf_alloc : Forall (λ a, a ≤ allocated v) (addrs (lumps v));
  wf_own : own_lump ∈ addrs (lumps v);
  wf_freed : Forall (λ a, a ≠ own_lump) (freed v)
}.

(** The state invariant, second part: GET, END and PUT. *)
Record wf_cur (v : vio_fifo) : Prop := {
  wf_get_lump : get_lump v ∈ addrs (base v);
  wf_end_lump : end_lump v ∈ addrs (base v);
  wf_get_ptr : (get_ptr v).1 = get_lump v;
  wf_put_ptr : last (addrs (base v)) = Some (put_ptr v).1;
  wf_put_end : put_end v = lump_end_ptr v (put_ptr v).1;
  wf_put_off : (put_ptr v).2 ≤ size v;
  wf_end :
    match p_end v with
    | EndPut => end_lump v = (put_ptr v).1
    | EndEnd =>
        ∃ e, end_ptr v = Some e ∧ e.1 = end_lump v
             ∧ lex_le (ipos v e) (ipos v (put_ptr v))
             ∧ (e.1 ≠ (put_ptr v).1 → e.2 < size v)
    end;
  wf_get_end :
    p_get_end v = (if bool_decide (get_lump v = end_lump v)
                   then get_end_of (p_end v) else GetEndLump (get_lump v));
  wf_get_off : lex_le (ipos v (get_ptr v)) (ipos v (eff_end v));
  wf_get_in : get_lump v ≠ end_lump v → (get_ptr v).2 < size v
}.

(** The state invariant, third part: the start of the retained data, and
    the shape of an empty FIFO. *)
Record wf_start (v : vio_fifo) : Prop := {
  wf_hold :
    match p_start v with
    | StartGet => ix v (get_lump v) = 0
    | StartHold =>
        ∃ h, hold_ptr v = Some h ∧ ix v h.1 = 0 ∧ h.1 ∈ addrs (base v)
             ∧ h.2 ≤ size v ∧ lex_le (ipos v h) (ipos v (eff_end v))
    end;
  wf_empty :
    deref_start v = Some (put_ptr v) →
    length (base v) = 1 ∧ (put_ptr v).2 = 0
}.

(** The state invariant.  It is what [vio_fifo_verify] checks, less its
    demands that the pointer of an unset mark be NULL or reset and that
    HOLD be at or before GET. *)
Record wf (v : vio_fifo) : Prop := {
  wf_lumps : wf_mem v;
  wf_cursors : wf_cur v;
  wf_retained : wf_start v
}.

(** ** Sequences of calls *)

Fixpoint put_all (v : vio_fifo) (bss : list (list byte)) : option vio_fifo :=
  match bss with
  | [] => Some v
  | bs :: bss => v ← vio_fifo_put_bytes v bs; put_all v bss
  end.

(** A loop of [vio_fifo_get_bytes] calls, one for each request size, that
    collects what each call returned. *)
Fixpoint get_all (v : vio_fifo) (ns : list nat)
  : option (vio_fifo * list (list byte)) :=
  match ns with
  | [] => Some (v, [])
  | n :: ns =>
      '(v, bs) ← vio_fifo_get_bytes v n;
      '(v, outs) ← get_all v ns;
      Some (v, bs :: outs)
  end.

(** * Definitions for the statements *)

(** Two states with the same list and cursors. *)
Record same_cursors (v v' : vio_fifo) : Prop := {
  sc_base : base v' = base v;
  sc_p_start : p_start v' = p_start v;
  sc_hold_ptr : hold_ptr v' = hold_ptr v;
  sc_get_lump : get_lump v' = get_lump v;
  sc_get_ptr : get_ptr v' = get_ptr v;
  sc_p_get_end : p_get_end v' = p_get_end v;
  sc_end_lump : end_lump v' = end_lump v;
  sc_end_ptr : end_ptr v' = end_ptr v;
  sc_put_ptr : put_ptr v' = put_ptr v;
  sc_put_end : put_end v' = put_end v;
  sc_p_end : p_end v' = p_end v;
  sc_size : size v' = size v
}.

(** HOLD at or before GET: what [vio_fifo_verify] asks of a hold mark on
    top of [wf]. *)
Definition hold_ok (v : vio_fifo) : Prop :=
  match p_start v with
  | StartGet => True
  | StartHold =>
      ∃ h, hold_ptr v = Some h ∧ lex_le (ipos v h) (ipos v (get_ptr v))
  end.

(** The offset [*p_get_end] stands at. *)
Definition get_end_off (v : vio_fifo) : nat :=
  if bool_decide (get_lump v = end_lump v) then (eff_end v).2 else size v.

(** The cursors after a lump is appended at a full tail. *)
Definition grown (v : vio_fifo) (lump : vio_fifo_lump) : vio_fifo :=
  let v := set_base v (ddl_append (base v) lump) in
  let v := if ptr_eqb (get_ptr v) (put_ptr v)
           then set_get_ptr (set_get_lump v (lump_addr lump)) (lump_data_ptr lump)
           else v in
  let v := if optr_eqb (Some (put_ptr v)) (deref_end v)
           then set_end_ptr (set_end_lump v (lump_addr lump))
                  (Some (lump_data_ptr lump))
           else v in
  let v := set_put_end (set_put_ptr v (lump_data_ptr lump))
             (lump_end_ptr v (lump_addr lump)) in
  vio_fifo_set_get_end v.

(** What a sequence of requests gets from the bytes [l]. *)
Fixpoint chunks (ns : list nat) (l : list byte) : list (list byte) :=
  match ns with
  | [] => []
  | n :: ns => take n l :: chunks ns (drop n l)
  end.

(** The end of the visible data moved up to PUT, with the end mark set
    ([pe = EndEnd], [ep] the new [end_ptr]) or cleared. *)
Definition end_at_put (v : vio_fifo) (pe : end_sel) (ep : option ptr) : vio_fifo :=
  vio_fifo_set_get_end
    (set_end_lump (set_end_ptr (set_p_end v pe) ep) (put_ptr v).1).

(** The lumps that were released: the spare one and those freed since. *)
Definition released (v : vio_fifo) : list nat :=
  addrs (option_list (spare v)) ++ freed v.

(** One lump, and every cursor in use at its start. *)
Record at_start (v : vio_fifo) (t : vio_fifo_lump) : Prop := {
  as_base : base v = [t];
  as_get_lump : get_lump v = lump_addr t;
  as_end_lump : end_lump v = lump_addr t;
  as_get_ptr : get_ptr v = (lump_addr t, 0);
  as_put_ptr : put_ptr v = (lump_addr t, 0);
  as_put_end : put_end v = (lump_addr t, size v);
  as_end_ptr : p_end v = EndEnd → end_ptr v = Some (lump_addr t, 0);
  as_hold_ptr : p_start v = StartHold → hold_ptr v = Some (lump_addr t, 0);
  as_p_get_end : p_get_end v = get_end_of (p_end v)
}.

(** How a call of [vio_fifo_read_nb] ends. *)
Inductive stop := StopEof | StopError | StopBlock | StopDone.

(** The value returned, from how the call ended and the bytes read. *)
Definition read_result (s : stop) (total : nat) : Z :=
  match s with
  | StopEof => if bool_decide (0 < total) then Z.of_nat total else (-2)%Z
  | StopError => (-1)%Z
  | StopBlock | StopDone => Z.of_nat total
  end.

(** [fd_consumed fd bs fd1]: reading the bytes [bs] off [fd], in reads of
    any sizes, leaves [fd1]. *)
Inductive fd_consumed : list fd_event → list byte → list fd_event → Prop :=
| fc_nil fd : fd_consumed fd [] fd
| fc_all c r bs fd1 :
    c ≠ [] → fd_consumed r bs fd1 → fd_consumed (FdData c :: r) (c ++ bs) fd1
| fc_part c1 c2 r bs fd1 :
    c1 ≠ [] → c2 ≠ [] → fd_consumed (FdData c2 :: r) bs fd1 →
    fd_consumed (FdData (c1 ++ c2) :: r) (c1 ++ bs) fd1.

(** What the last read met ([fd1] before it, [fd'] after it). *)
Definition stop_at (s : stop) (fd1 fd' : list fd_event) : Prop :=
  match s with
  | StopEof => fd1 = [] ∧ fd' = []
  | StopError => fd1 = FdError :: fd'
  | StopBlock => fd1 = FdBlock :: fd' ∨ fd1 = FdData [] :: fd'
  | StopDone => fd1 = fd'
  end.

(** What [vio_fifo_write_nb] is to write: all the visible bytes, or those
    in the lumps before the end lump. *)
Definition to_write (all : bool) (v : vio_fifo) : list byte :=
  if all then visible v else whole_lumps v.

(** What appending [bs] to [dv] gives [dv']. *)
Definition appended (dv dv' : vio_fifo) (bs : list byte) : Prop :=
  wf dv' ∧ stored dv' = stored dv ++ bs
  ∧ visible dv' = visible dv
                  ++ (match p_end dv with EndPut => bs | EndEnd => [] end)
  ∧ p_start dv' = p_start dv ∧ p_end dv' = p_end dv ∧ size dv' = size dv.

(** The operations on one FIFO, [vio_fifo_skip_to_end] apart. *)
Inductive op :=
| OpPutBytes (bs : list byte)
| OpGetBytes (n : nat)
| OpSetHoldMark
| OpClearHoldMark
| OpBackToHoldMark (set : bool)
| OpSetEndMark
| OpStepEndMark
| OpClearEndMark
| OpBackToEndMark (keep : bool)
| OpClear (clear_marks : bool)
| OpReadNb (fd : list fd_event) (request : nat)
| OpWriteNb (sink : list sink_event) (all : bool)
| OpFwrite (file : list sink_event).

Definition run_op (v : vio_fifo) (o : op) : option vio_fifo :=
  match o with
  | OpPutBytes bs => vio_fifo_put_bytes v bs
  | OpGetBytes n => r ← vio_fifo_get_bytes v n; Some r.1
  | OpSetHoldMark => vio_fifo_set_hold_mark v
  | OpClearHoldMark => vio_fifo_clear_hold_mark v
  | OpBackToHoldMark set => vio_fifo_back_to_hold_mark v set
  | OpSetEndMark => vio_fifo_set_end_mark v
  | OpStepEndMark => vio_fifo_step_end_mark v
  | OpClearEndMark => vio_fifo_clear_end_mark v
  | OpBackToEndMark keep => vio_fifo_back_to_end_mark v keep
  | OpClear clear_marks => vio_fifo_clear v clear_marks
  | OpReadNb fd request => r ← vio_fifo_read_nb v fd request; Some r.1.1
  | OpWriteNb sink all => r ← vio_fifo_write_nb v sink all; Some r.1.1.1
  | OpFwrite file => r ← vio_fifo_fwrite v file; Some r.1.1.1
  end.

(** [vio_fifo_back_to_hold_mark] asked to leave a hold mark set where
    there is none to go back to is left out. *)
Definition op_ok (v : vio_fifo) (o : op) : Prop :=
  match o with
  | OpBackToHoldMark set => p_start v = StartHold ∨ set = false
  | _ => True
  end.

(** The states a FIFO goes through from its creation. *)
Inductive reachable : vio_fifo → Prop :=
| reach_new debug size : reachable (vio_fifo_new debug size)
| reach_op v o v' :
    reachable v → op_ok v o → run_op v o = Some v' → reachable v'.

(** The texts of the scenarios. *)
Definition HELLOWORLD : list byte :=
  [x48; x45; x4c; x4c; x4f; x57; x4f; x52; x4c; x44].
Definition ABCDE : list byte := [x41; x42; x43; x44; x45].
Definition FGHIJ : list byte := [x46; x47; x48; x49; x4a].

(** The run of C2: HELLOWORLD is put into a FIFO of 128-byte lumps, 3
    bytes are read, the hold mark is set, 4 bytes are read,
    [vio_fifo_back_to_hold_mark] is called (the mark is cleared) and the
    FIFO is drained.  The result: the three reads, [hold_ptr] once the mark
    is set, and [get_ptr] after the rewind. *)
Definition hold_rewind_run
  : option (list byte * list byte * list byte * option ptr * ptr) :=
  v ← vio_fifo_put_bytes (vio_fifo_new false 128) HELLOWORLD;
  '(v, r1) ← vio_fifo_get_bytes v 3;
  v ← vio_fifo_set_hold_mark v;
  let hold := hold_ptr v in
  '(v, r2) ← vio_fifo_get_bytes v 4;
  v ← vio_fifo_back_to_hold_mark v false;
  let get := get_ptr v in
  '(v, r3) ← vio_fifo_get_bytes v 10;
  Some (r1, r2, r3, hold, get).

(** A producer and a consumer at work on one FIFO, their calls in any
    order. *)
Inductive io := IoPut (bs : list byte) | IoGet (n : nat).

(** The calls made one after the other; the result carries the bytes the
    [vio_fifo_get_bytes] calls returned, in order. *)
Fixpoint run_io (v : vio_fifo) (l : list io) : option (vio_fifo * list byte) :=
  match l with
  | [] => Some (v, [])
  | IoPut bs :: l => v ← vio_fifo_put_bytes v bs; run_io v l
  | IoGet n :: l =>
      '(v, out) ← vio_fifo_get_bytes v n;
      '(v, rest) ← run_io v l;
      Some (v, out ++ rest)
  end.

(** The bytes the calls put. *)
Fixpoint io_put (l : list io) : list byte :=
  match l with
  | [] => []
  | IoPut bs :: l => bs ++ io_put l
  | IoGet _ :: l => io_put l
  end.

(** GET moved to the end of the visible data: the state
    [vio_fifo_skip_to_end] hands to [vio_fifo_sync_get]. *)
Definition skipped (v : vio_fifo) : vio_fifo :=
  set_p_get_end (set_get_ptr (set_get_lump v (end_lump v)) (eff_end v))
    (get_end_of (p_end v)).

(** Every lump made so far (the embedded one, and those XMALLOC gave) is
    in the list, is the spare or has been freed, and is so once. *)
Definition accounted (v : vio_fifo) : Prop :=
  addrs (base v) ++ released v ≡ₚ seq 0 (S (allocated v)).

(** Two states with the same lumps. *)
Definition same_lumps (v v' : vio_fifo) : Prop :=
  addrs (base v') = addrs (base v) ∧ spare v' = spare v
  ∧ freed v' = freed v ∧ allocated v' = allocated v.

(** In an empty FIFO the two mark pointers are NULL or at PUT. *)
Definition marks_tidy (v : vio_fifo) : Prop :=
  deref_start v = Some (put_ptr v) →
  (hold_ptr v = None ∨ hold_ptr v = Some (put_ptr v))
  ∧ (end_ptr v = None ∨ end_ptr v = Some (put_ptr v)).

(** Two states that differ in GET only. *)
Record get_moved (v v' : vio_fifo) : Prop := {
  gm_base : base v' = base v;
  gm_p_start : p_start v' = p_start v;
  gm_hold_ptr : hold_ptr v' = hold_ptr v;
  gm_end_lump : end_lump v' = end_lump v;
  gm_end_ptr : end_ptr v' = end_ptr v;
  gm_put_ptr : put_ptr v' = put_ptr v;
  gm_put_end : put_end v' = put_end v;
  gm_p_end : p_end v' = p_end v;
  gm_size : size v' = size v;
  gm_spare : spare v' = spare v;
  gm_allocated : allocated v' = allocated v;
  gm_freed : freed v' = freed v
}.

(** The most a call of [vio_fifo_read_nb] reads: up to the end of the
    tail lump and then [request] lumps; when the tail lump is full,
    [request] lumps and at least one. *)
Definition read_limit (v : vio_fifo) (request : nat) : nat :=
  if bool_decide (size v ≤ (put_ptr v).2) then (request `max` 1) * size v
  else size v - (put_ptr v).2 + request * size v.

(** The run of X19, in the debug build (the build in which
    [vio_fifo_verify] runs; its lumps have 29 bytes whatever size is asked
    for): a byte is put and got, which resets the pointers; a lump-full is
    put; a read that would block adds a lump and reads nothing; the
    lump-full is got.  The result: what [vio_fifo_verify] gives on the new
    FIFO and after each of the five calls, and of the last state
    [hold_ptr], [get_ptr], the address of the spare lump and the addresses
    of the list. *)
Definition blocked_read_run (n : nat) (b c : byte) (fd : list fd_event)
    (request : nat)
  : option (list (option unit) * option ptr * ptr * option nat * list nat) :=
  let v0 := vio_fifo_new true n in
  v1 ← vio_fifo_put_bytes v0 [b];
  '(v2, _) ← vio_fifo_get_bytes v1 1;
  v3 ← vio_fifo_put_bytes v2 (replicate (size v2) c);
  '(v4, _, _) ← vio_fifo_read_nb v3 (FdBlock :: fd) request;
  '(v5, _) ← vio_fifo_get_bytes v4 (size v4);
  Some ([vio_fifo_verify v0; vio_fifo_verify v1; vio_fifo_verify v2;
         vio_fifo_verify v3; vio_fifo_verify v4; vio_fifo_verify v5],
        hold_ptr v5, get_ptr v5, addr_of (spare v5), addrs (base v5)).

(** * Lemmas *)

(** Take a record of the invariant apart, its parts named after its
    fields. *)
Ltac drec H :=
  lazymatch type of H with
  | wf_mem _ =>
      destruct H as [wf_size wf_data wf_nodup wf_alloc wf_own wf_freed]
  | wf_cur _ =>
      destruct H as [wf_get_lump wf_end_lump wf_get_ptr wf_put_ptr wf_put_end
                     wf_put_off wf_end wf_get_end wf_get_off wf_get_in]
  | wf_start _ => destruct H as [wf_hold wf_empty]
  | wf _ => destruct H as [wf_lumps wf_cursors wf_retained]
  | _ => destruct H
  end.

(** ** Slices *)
Section slices.
Context {A : Type}.
Implicit Types l : list A.

Lemma slice_length a b l : b ≤ length l → length (slice a b l) = b - a.
Proof. intros. unfold slice. rewrite length_take, length_drop. lia. Qed.

Lemma slice_nil a b l : b ≤ a → slice a b l = [].
Proof. intros. unfold slice. replace (b - a) with 0 by lia. done. Qed.

Lemma slice_app a b c l :
  a ≤ b → b ≤ c → slice a b l ++ slice b c l = slice a c l.
Proof.
  intros. unfold slice.
  replace (drop b l) with (drop (b - a) (drop a l))
    by (rewrite drop_drop; f_equal; lia).
  rewrite take_take_drop. f_equal. lia.
Qed.

Lemma drop_take_sub n k l : drop k (take n l) = take (n - k) (drop k l).
Proof.
  revert n k. induction l as [|x l IH]; intros [|n] [|k]; simpl; try done.
  by rewrite take_nil.
Qed.

Lemma slice_drop k a b l : drop k (slice a b l) = slice (a + k) b l.
Proof.
  unfold slice. rewrite drop_take_sub, drop_drop. f_equal. lia.
Qed.

Lemma slice_take k a b l : a + k ≤ b → take k (slice a b l) = slice a (a + k) l.
Proof.
  intros. unfold slice. rewrite take_take. f_equal. lia.
Qed.

Lemma slice_app_l a b l l' : b ≤ length l → slice a b (l ++ l') = slice a b l.
Proof.
  intros. unfold slice.
  destruct (decide (a ≤ length l)).
  - rewrite drop_app_le by done. rewrite take_app_le; [done|].
    rewrite length_drop. lia.
  - replace (b - a) with 0 by lia. done.
Qed.

Lemma slice_shift k a b l : slice a b (drop k l) = slice (k + a) (k + b) l.
Proof. unfold slice. rewrite drop_drop. f_equal. lia. Qed.

Lemma slice_take_l a b n l : b ≤ n → slice a b (take n l) = slice a b l.
Proof.
  intros. unfold slice. rewrite drop_take_sub, take_take. f_equal. lia.
Qed.

(** A slice of a list with the part from [p] overwritten. *)
Lemma slice_write_before a b p bs l :
  b ≤ p → p ≤ length l →
  slice a b (take p l ++ bs ++ drop (p + length bs) l) = slice a b l.
Proof.
  intros. rewrite slice_app_l by (rewrite length_take; lia).
  by apply slice_take_l.
Qed.

Lemma slice_write_upto a p bs l :
  a ≤ p → p ≤ length l →
  slice a (p + length bs) (take p l ++ bs ++ drop (p + length bs) l)
  = slice a p l ++ bs.
Proof.
  intros. rewrite <- (slice_app a p (p + length bs)) by lia. f_equal.
  - by apply slice_write_before.
  - unfold slice. rewrite drop_app_length' by (rewrite length_take; lia).
    rewrite take_app_length'; [done|lia].
Qed.

Lemma slice_0 b l : slice 0 b l = take b l.
Proof. unfold slice. rewrite drop_0. f_equal. lia. Qed.
End slices.


(** ** Lump lists *)

Lemma flat_app b c : flat (b ++ c) = flat b ++ flat c.
Proof. induction b as [|l b IH]; simpl; [done|]. by rewrite IH, (assoc (++)). Qed.

Lemma flat_length sz b :
  Forall (λ l, length (lump_data l) = sz) b → length (flat b) = length b * sz.
Proof.
  induction 1 as [|l b Hl _ IH]; simpl; [done|].
  rewrite length_app, IH, Hl. lia.
Qed.

Lemma lump_index_le a b : lump_index a b ≤ length b.
Proof. induction b; simpl; [done|]. case_bool_decide; lia. Qed.

Lemma lump_index_lt a b : a ∈ addrs b → lump_index a b < length b.
Proof.
  induction b as [|l b IH]; simpl; [by intros ?%elem_of_nil|].
  intros [?|?]%elem_of_cons; case_bool_decide; simplify_eq; try lia.
  specialize (IH ltac:(done)). lia.
Qed.

Lemma lump_index_elem a b : lump_index a b < length b → a ∈ addrs b.
Proof.
  induction b as [|l b IH]; simpl; [lia|].
  case_bool_decide; intros; [subst; apply elem_of_cons; by left|].
  apply elem_of_cons; right. apply IH. lia.
Qed.

Lemma lump_index_lookup a b i :
  lump_index a b = i → i < length b → addrs b !! i = Some a.
Proof.
  revert i. induction b as [|l b IH]; simpl; intros i Hi Hlt; [lia|].
  case_bool_decide; subst; simpl; [done|]. apply IH; [done|lia].
Qed.

Lemma lump_index_of_lookup b i l :
  NoDup (addrs b) → b !! i = Some l → lump_index (lump_addr l) b = i.
Proof.
  revert i. induction b as [|x b IH]; intros i Hnd Hl; [done|].
  apply NoDup_cons in Hnd as [Hx Hnd]. destruct i as [|i]; simpl in *.
  - simplify_eq. by rewrite bool_decide_eq_true_2.
  - rewrite bool_decide_eq_false_2; [f_equal; by apply IH|].
    intros Heq. apply Hx. rewrite Heq.
    apply list_elem_of_fmap. exists l. split; [done|]. by eapply list_elem_of_lookup_2.
Qed.

Lemma lump_index_app_l a b c :
  a ∈ addrs b → lump_index a (b ++ c) = lump_index a b.
Proof.
  induction b as [|l b IH]; simpl; [by intros ?%elem_of_nil|].
  intros [?|?]%elem_of_cons; case_bool_decide; simplify_eq; try done.
  f_equal. by apply IH.
Qed.

Lemma lump_index_app_r a b c :
  a ∉ addrs b → lump_index a (b ++ c) = length b + lump_index a c.
Proof.
  induction b as [|l b IH]; simpl; [done|].
  intros Hn. apply not_elem_of_cons in Hn as [? ?].
  rewrite bool_decide_eq_false_2 by done. f_equal. by apply IH.
Qed.

Lemma lump_index_inj a a' b :
  a ∈ addrs b → lump_index a b = lump_index a' b → a = a'.
Proof.
  intros Ha Heq. apply lump_index_lt in Ha as Hlt.
  pose proof (lump_index_lookup a b _ eq_refl Hlt) as H1.
  rewrite Heq in Hlt. pose proof (lump_index_lookup a' b _ eq_refl Hlt) as H2.
  rewrite Heq in H1. congruence.
Qed.

Lemma lump_index_head a b :
  a ∈ addrs b → lump_index a b = 0 → head (addrs b) = Some a.
Proof.
  destruct b as [|l b]; simpl; [by intros ?%elem_of_nil|].
  case_bool_decide; [by intros; subst|done].
Qed.

Lemma lump_index_head_2 a b : head (addrs b) = Some a → lump_index a b = 0.
Proof.
  destruct b as [|l b]; simpl; [done|].
  intros [=]. by rewrite bool_decide_eq_true_2.
Qed.

Lemma lump_index_last a b :
  NoDup (addrs b) → last (addrs b) = Some a → S (lump_index a b) = length b.
Proof.
  intros Hnd Hl. apply last_Some in Hl as [f Hf].
  unfold addrs in Hf. apply fmap_app_inv in Hf as (b1 & b2 & -> & Hb2 & ->).
  destruct b2 as [|l [|??]]; simplify_eq/=.
  unfold addrs in Hnd. rewrite fmap_app in Hnd. apply NoDup_app in Hnd as (_ & Hd & _).
  rewrite lump_index_app_r.
  - simpl. rewrite bool_decide_eq_true_2 by done. rewrite length_app. simpl. lia.
  - intros Hin. apply (Hd _ Hin). simpl. apply elem_of_cons. by left.
Qed.

Lemma lump_index_last_2 a b :
  a ∈ addrs b → S (lump_index a b) = length b → last (addrs b) = Some a.
Proof.
  intros Ha Hl. rewrite last_lookup. unfold addrs at 1. rewrite length_fmap.
  rewrite <- Hl. simpl. apply lump_index_lookup; [done|lia].
Qed.

Lemma lump_read_spec sz b a off n :
  Forall (λ l, length (lump_data l) = sz) b →
  a ∈ addrs b → off + n ≤ sz →
  lump_read b (a, off) n
  = Some (slice (lump_index a b * sz + off) (lump_index a b * sz + off + n) (flat b)).
Proof.
  induction 1 as [|l b Hl Hb IH]; simpl; [by intros ?%elem_of_nil|].
  intros Hin Hn. case_bool_decide as Ha.
  - rewrite bool_decide_eq_true_2 by lia. f_equal. simpl.
    rewrite slice_app_l by lia. unfold slice. f_equal. lia.
  - apply elem_of_cons in Hin as [?|Hin]; [done|].
    rewrite IH by done. f_equal.
    unfold slice. rewrite drop_app_ge by lia. f_equal; [lia|]. f_equal. lia.
Qed.

Lemma lump_write_spec sz b a off bs :
  Forall (λ l, length (lump_data l) = sz) b →
  a ∈ addrs b → off + length bs ≤ sz →
  ∃ b', lump_write b (a, off) bs = Some b'
        ∧ addrs b' = addrs b
        ∧ Forall (λ l, length (lump_data l) = sz) b'
        ∧ flat b' = take (lump_index a b * sz + off) (flat b) ++ bs
                    ++ drop (lump_index a b * sz + off + length bs) (flat b).
Proof.
  induction 1 as [|l b Hl Hb IH]; simpl; [by intros ?%elem_of_nil|].
  intros Hin Hn. case_bool_decide as Ha.
  - rewrite bool_decide_eq_true_2 by lia. eexists. split; [done|].
    split; [done|]. split.
    + constructor; [|done]. simpl. rewrite !length_app, length_take, length_drop. lia.
    + simpl. rewrite take_app_le, drop_app_le by lia. by rewrite <- !(assoc (++)).
  - apply elem_of_cons in Hin as [?|Hin]; [done|].
    destruct (IH Hin Hn) as (b' & -> & Ha' & Hf & Hfl). simpl.
    eexists. split; [done|]. split; [simpl; by rewrite Ha'|].
    split; [by constructor|]. simpl. rewrite Hfl.
    rewrite take_app_ge, drop_app_ge by lia. rewrite <- (assoc (++)).
    repeat f_equal; lia.
Qed.

Lemma ddl_next_spec a b :
  NoDup (addrs b) → a ∈ addrs b → S (lump_index a b) < length b →
  ∃ nl, ddl_next a b = Some nl ∧ lump_addr nl ∈ addrs b
        ∧ lump_index (lump_addr nl) b = S (lump_index a b).
Proof.
  induction b as [|l b IH]; simpl; [by intros _ ?%elem_of_nil|].
  intros [Hl Hnd]%NoDup_cons Hin Hlt. case_bool_decide as Ha.
  - destruct b as [|nl b]; simpl in *; [lia|]. exists nl. split; [done|].
    split; [apply elem_of_cons; right; apply elem_of_cons; by left|].
    rewrite bool_decide_eq_false_2, bool_decide_eq_true_2; [done..|].
    intros Heq. apply Hl. rewrite <- Heq. apply elem_of_cons. by left.
  - apply elem_of_cons in Hin as [?|Hin]; [done|].
    destruct (IH Hnd Hin ltac:(lia)) as (nl & -> & Hnl & Hix).
    exists nl. split; [done|]. split; [apply elem_of_cons; by right|].
    rewrite bool_decide_eq_false_2; [by rewrite Hix|].
    intros Heq. apply Hl. by rewrite Heq.
Qed.


#[global] Arguments vio_fifo_release_lump : simpl never.
#[global] Arguments vio_fifo_reset_ptrs : simpl never.
#[global] Arguments vio_fifo_release_upto : simpl never.
#[global] Arguments vio_fifo_sync_get : simpl never.
#[global] Arguments vio_fifo_add_lump : simpl never.
#[global] Arguments vio_fifo_step : simpl never.
#[global] Arguments vio_fifo_put_bytes : simpl never.
#[global] Arguments vio_fifo_get_bytes : simpl never.
#[global] Arguments vio_fifo_get : simpl never.
#[global] Arguments lump_read : simpl never.
#[global] Arguments lump_write : simpl never.

(** ** Positions *)

Lemma lex_le_pos sz i a j b :
  lex_le (i, a) (j, b) → a ≤ sz → i * sz + a ≤ j * sz + b.
Proof. unfold lex_le; simpl. intros [?|[-> ?]] ?; nia. Qed.

Lemma lex_le_refl a : lex_le a a.
Proof. right. done. Qed.

Ltac unf :=
  unfold visible, stored, pending, whole_lumps, get_pos, put_pos, end_pos, pos,
    ipos, ix, eff_end, deref_end, deref_start, deref_get_end, lump_end_ptr,
    lump_data_ptr, lumps, vio_fifo_have_hold_mark, vio_fifo_have_end_mark,
    ptr_eqb, optr_eqb, lex_le in *;
  simpl in *.

Lemma wf_mem_same v v' :
  wf_mem v → base v' = base v → spare v' = spare v → size v' = size v →
  allocated v' = allocated v → freed v' = freed v → wf_mem v'.
Proof.
  intros Hrec Hb Hs Hz Ha Hf; drec Hrec. constructor; unfold lumps in *;
    rewrite ?Hb, ?Hs, ?Hz, ?Ha, ?Hf; done.
Qed.

Lemma wf_mem_nodup_base v : wf_mem v → NoDup (addrs (base v)).
Proof.
  intros Hrec; drec Hrec. unfold lumps, addrs in *. rewrite fmap_app in wf_nodup.
  by apply NoDup_app in wf_nodup as (? & _ & _).
Qed.

Lemma wf_mem_data_base v :
  wf_mem v → Forall (λ l, length (lump_data l) = size v) (base v).
Proof. intros Hrec; drec Hrec. unfold lumps in *. by apply Forall_app in wf_data as [? _]. Qed.

Lemma reset_ptrs_spec v t :
  wf_mem v → base v = [t] → get_lump v = lump_addr t → end_lump v = lump_addr t →
  put_end v = (lump_addr t, size v) → p_get_end v = get_end_of (p_end v) →
  ∃ v', vio_fifo_reset_ptrs v = Some v' ∧ wf v'
        ∧ v' = set_put_ptr (set_end_ptr (set_get_ptr (set_hold_ptr v
                 (Some (lump_addr t, 0))) (lump_addr t, 0))
                 (Some (lump_addr t, 0))) (lump_addr t, 0).
Proof.
  intros Hm Hb Hg He Hpe Hge. unfold vio_fifo_reset_ptrs, ddl_tail.
  rewrite Hb. simpl. eexists. split; [done|]. split; [|done].
  assert (lump_addr t ∈ addrs [t]) by (simpl; apply list_elem_of_here).
  constructor; [by apply (wf_mem_same v)| |];
    constructor; unf; rewrite ?Hb, ?Hg, ?He; simpl;
    rewrite ?bool_decide_eq_true_2 by done; try done; try lia.
  - destruct (p_end v); [done|]. eexists. split; [done|]. simpl.
    rewrite bool_decide_eq_true_2 by done. split; [done|]. split; [lia|done].
  - destruct (p_start v); simpl; [done|].
    eexists. split; [done|]. simpl. rewrite bool_decide_eq_true_2 by done.
    split; [done|]. split; [done|]. split; [lia|].
    destruct (p_end v); simpl; rewrite bool_decide_eq_true_2 by done; lia.
Qed.

Lemma same_cursors_refl v : same_cursors v v.
Proof. by constructor. Qed.

Lemma same_cursors_trans v1 v2 v3 :
  same_cursors v1 v2 → same_cursors v2 v3 → same_cursors v1 v3.
Proof. intros [] []. constructor; congruence. Qed.

Ltac rew_same H :=
  destruct H as [?Hsc ?Hsc ?Hsc ?Hsc ?Hsc ?Hsc ?Hsc ?Hsc ?Hsc ?Hsc ?Hsc ?Hsc].

Lemma wf_cur_same v v' : same_cursors v v' → wf_cur v → wf_cur v'.
Proof.
  intros Hs Hrec; drec Hrec. rew_same Hs. constructor; unf;
    rewrite ?Hsc, ?Hsc0, ?Hsc1, ?Hsc2, ?Hsc3, ?Hsc4, ?Hsc5, ?Hsc6, ?Hsc7, ?Hsc8,
      ?Hsc9, ?Hsc10; done.
Qed.

Lemma wf_start_same v v' : same_cursors v v' → wf_start v → wf_start v'.
Proof.
  intros Hs Hrec; drec Hrec. rew_same Hs. constructor; unf;
    rewrite ?Hsc, ?Hsc0, ?Hsc1, ?Hsc2, ?Hsc3, ?Hsc4, ?Hsc5, ?Hsc6, ?Hsc7, ?Hsc8,
      ?Hsc9, ?Hsc10; done.
Qed.

Lemma contents_same v v' :
  same_cursors v v' →
  visible v' = visible v ∧ stored v' = stored v ∧ pending v' = pending v
  ∧ whole_lumps v' = whole_lumps v.
Proof.
  intros Hs. rew_same Hs. unf.
  rewrite ?Hsc, ?Hsc0, ?Hsc1, ?Hsc2, ?Hsc3, ?Hsc4, ?Hsc5, ?Hsc6, ?Hsc7, ?Hsc8,
      ?Hsc9, ?Hsc10; done.
Qed.

(** ** Releasing lumps *)

Lemma release_lump_spec v l :
  wf_mem (set_base v (l :: base v)) →
  lump_addr l ≠ get_lump v → lump_addr l ≠ end_lump v →
  ∃ v', vio_fifo_release_lump v (Some l) = Some v'
         ∧ wf_mem v' ∧ same_cursors v v'.
Proof.
  intros [Hz Hd Hn Ha Ho Hf] Hg He. unfold vio_fifo_release_lump. simpl.
  rewrite (bool_decide_eq_false_2 _ Hg), (bool_decide_eq_false_2 _ He). simpl.
  unfold lumps in *. simpl in *.
  apply Forall_cons in Hd as [Hl Hd]. apply NoDup_cons in Hn as [Hln Hn].
  apply Forall_cons in Ha as [Hla Ha].
  destruct (spare v) as [sp|] eqn:Hsp; [case_bool_decide as Hown|].
  - (* the embedded lump: free the spare, keep this one *)
    eexists. split; [done|]. split; [|by constructor].
    unfold addrs in *. rewrite fmap_app in *. simpl in *.
    apply Forall_app in Hd as [Hd1 Hd2]. apply Forall_app in Ha as [Ha1 Ha2].
    apply NoDup_app in Hn as (Hn1 & Hn2 & Hn3).
    constructor; unfold lumps, addrs; simpl; rewrite ?fmap_app; simpl.
    + done.
    + apply Forall_app. split; [done|]. by repeat constructor.
    + apply NoDup_app. split; [done|]. split; [|apply NoDup_singleton].
      intros x Hx [->|[]%elem_of_nil]%elem_of_cons. apply Hln.
      apply elem_of_app. by left.
    + apply Forall_app. split; [done|]. by repeat constructor.
    + apply elem_of_app. right. apply elem_of_cons. by left.
    + constructor; [|done]. intros Heq. apply Hln. rewrite Hown, <- Heq.
      apply elem_of_app. right. apply elem_of_cons. by left.
  - (* another lump: free it *)
    eexists. split; [done|]. split; [|by constructor].
    constructor; unfold lumps; simpl; rewrite ?Hsp; try done.
    + apply elem_of_cons in Ho as [?|?]; [congruence|done].
    + constructor; [|done]. done.
  - (* no spare: keep it *)
    eexists. split; [done|]. split; [|by constructor].
    rewrite app_nil_r in *.
    constructor; unfold lumps, addrs; simpl; rewrite ?fmap_app; simpl.
    + done.
    + apply Forall_app. split; [done|]. by repeat constructor.
    + apply NoDup_app. split; [done|]. split; [|apply NoDup_singleton].
      intros x Hx [->|[]%elem_of_nil]%elem_of_cons. by apply Hln.
    + apply Forall_app. split; [done|]. by repeat constructor.
    + apply elem_of_cons in Ho as [->|?]; apply elem_of_app;
        [right; apply elem_of_cons; by left|by left].
    + done.
Qed.

Lemma hold_ok_same v v' : same_cursors v v' → hold_ok v → hold_ok v'.
Proof.
  intros [Sb Sps Shp Sgl Sgp Sge Sel Sep Spp Spe Sd Ssz]. unfold hold_ok, ipos, ix.
  by rewrite Sb, Sps, Shp, Sgp.
Qed.

Lemma release_upto_loop_spec ls v upto :
  base v = ls → wf_mem v → upto ∈ addrs ls →
  (∀ a, a ∈ addrs (take (lump_index upto ls) ls) →
        a ≠ get_lump v ∧ a ≠ end_lump v) →
  ∃ v', release_upto_loop ls v upto = Some v' ∧ wf_mem v'
        ∧ base v' = drop (lump_index upto ls) ls
        ∧ same_cursors (set_base v (base v')) v'.
Proof.
  revert v. induction ls as [|l r IH]; intros v Hb Hm Hin Hne; simpl.
  { by apply elem_of_nil in Hin. }
  simpl in Hne. case_bool_decide as Hl.
  - exists v. split; [done|]. split; [done|]. split; [done|].
    constructor; simpl; done.
  - apply elem_of_cons in Hin as [?|Hin]; [done|]. simpl in Hne.
    destruct (Hne (lump_addr l)) as [Hg He]; [apply list_elem_of_here|].
    destruct (release_lump_spec (set_base v r) l) as (v1 & -> & Hm1 & Hs1);
      [|done..|].
    { simpl. apply (wf_mem_same v); simpl; done. }
    simpl. pose proof Hs1 as Hs1'. rew_same Hs1'. simpl in *.
    destruct (IH v1) as (v' & -> & Hm' & Hb' & Hs'); [done..| |].
    { intros a Ha. rewrite Hsc2, Hsc5. apply Hne. by apply list_elem_of_further. }
    exists v'. split; [done|]. split; [done|]. split; [done|].
    rew_same Hs'. simpl in *. constructor; simpl; congruence.
Qed.

Lemma release_upto_loop_inv ls v upto v' :
  release_upto_loop ls v upto = Some v' →
  ∀ a, a ∈ addrs (take (lump_index upto ls) ls) →
       a ≠ get_lump v ∧ a ≠ end_lump v.
Proof.
  revert v. induction ls as [|l r IH]; intros v; simpl; [done|].
  case_bool_decide as Hl; [by intros _ a ?%elem_of_nil|].
  unfold vio_fifo_release_lump at 1. simpl.
  destruct (decide (lump_addr l = get_lump v)) as [Hg|Hg];
    [rewrite (bool_decide_eq_true_2 _ Hg); simpl; done|].
  rewrite (bool_decide_eq_false_2 _ Hg). simpl.
  destruct (decide (lump_addr l = end_lump v)) as [He|He];
    [rewrite (bool_decide_eq_true_2 _ He); simpl; done|].
  rewrite (bool_decide_eq_false_2 _ He). simpl.
  intros Hr a [->|Ha]%elem_of_cons; [done|].
  destruct (spare v); [case_bool_decide|]; simpl in Hr;
    by apply (IH _ Hr a Ha).
Qed.

Lemma lump_index_drop a b k :
  NoDup (addrs b) → a ∈ addrs b → k ≤ lump_index a b →
  a ∈ addrs (drop k b) ∧ lump_index a (drop k b) = lump_index a b - k.
Proof.
  revert k. induction b as [|l b IH]; intros k Hnd Hin Hk.
  { by apply elem_of_nil in Hin. }
  destruct k as [|k]; [by rewrite Nat.sub_0_r|].
  simpl in *. apply NoDup_cons in Hnd as [_ Hnd].
  case_bool_decide; [lia|].
  apply elem_of_cons in Hin as [?|Hin]; [done|].
  apply IH; [done..|lia].
Qed.

Lemma lump_index_take_elem a b k :
  a ∈ addrs b → lump_index a b < k → a ∈ addrs (take k b).
Proof.
  revert k. induction b as [|l b IH]; intros k Hin Hk.
  { by apply elem_of_nil in Hin. }
  destruct k as [|k]; [lia|]. simpl in *.
  case_bool_decide; [subst; apply list_elem_of_here|].
  apply list_elem_of_further. apply elem_of_cons in Hin as [?|Hin]; [done|].
  apply IH; [done|lia].
Qed.

Lemma lump_index_take a b k :
  lump_index a b < k → lump_index a (take k b) = lump_index a b.
Proof.
  revert k. induction b as [|l b IH]; intros k Hk; [by rewrite take_nil|].
  destruct k as [|k]; [lia|]. simpl in *.
  case_bool_decide; [done|]. f_equal. apply IH. lia.
Qed.

Lemma take_elem_index a b k :
  NoDup (addrs b) → a ∈ addrs (take k b) → lump_index a b < k.
Proof.
  revert k. induction b as [|l b IH]; intros k Hnd Hin.
  { rewrite take_nil in Hin. by apply elem_of_nil in Hin. }
  destruct k as [|k]; [by apply elem_of_nil in Hin|]. simpl in *.
  apply NoDup_cons in Hnd as [_ Hnd].
  case_bool_decide; [lia|].
  apply elem_of_cons in Hin as [?|Hin]; [done|].
  specialize (IH k Hnd Hin). lia.
Qed.

Lemma flat_drop sz b k :
  Forall (λ l, length (lump_data l) = sz) b →
  flat (drop k b) = drop (k * sz) (flat b).
Proof.
  intros Hf. revert k. induction Hf as [|l b Hl _ IH]; intros [|k]; simpl;
    try done.
  - by rewrite drop_nil.
  - rewrite drop_app_ge by lia. rewrite IH. f_equal. lia.
Qed.

Lemma flat_take sz b k :
  Forall (λ l, length (lump_data l) = sz) b →
  flat (take k b) = take (k * sz) (flat b).
Proof.
  intros Hf. revert k. induction Hf as [|l b Hl _ IH]; intros [|k];
    try done.
  - simpl. by rewrite take_nil.
  - cbn [take firstn flat]. rewrite IH.
    replace (S k * sz) with (length (lump_data l) + k * sz) by lia.
    by rewrite take_app_add.
Qed.

Lemma last_drop {A} (l : list A) k : k < length l → last (drop k l) = last l.
Proof.
  intros Hk. rewrite !last_lookup, lookup_drop, length_drop. f_equal. lia.
Qed.


(** ** Consequences of the invariant *)

(** The effective end is in the end lump. *)
Lemma wf_eff_end v : wf_cur v → (eff_end v).1 = end_lump v.
Proof.
  intros Hrec; drec Hrec. unf. destruct (p_end v); simpl; [done|].
  by destruct wf_end as (e & -> & ? & _).
Qed.

Lemma wf_eff_end_off v : wf_cur v → (eff_end v).2 ≤ size v.
Proof.
  intros Hrec; drec Hrec. unf. destruct (p_end v); simpl; [done|].
  destruct wf_end as (e & -> & ? & Hl & Hs). simpl.
  destruct (decide (e.1 = (put_ptr v).1)); [|specialize (Hs ltac:(done)); lia].
  destruct Hl as [Hl|[_ ?]]; [|lia]. rewrite e0 in Hl. lia.
Qed.

Lemma wf_eff_end_put v :
  wf_cur v → lex_le (ipos v (eff_end v)) (ipos v (put_ptr v)).
Proof.
  intros Hrec; drec Hrec. unf. destruct (p_end v); simpl; [lia|].
  by destruct wf_end as (e & -> & ? & Hl & Hs).
Qed.

(** Places of the lumps of interest: get_lump ≤ end_lump ≤ tail. *)
Lemma wf_order v :
  wf_mem v → wf_cur v →
  ix v (get_lump v) ≤ ix v (end_lump v)
  ∧ ix v (end_lump v) ≤ ix v (put_ptr v).1
  ∧ S (ix v (put_ptr v).1) = length (base v).
Proof.
  intros Hm Hc. pose proof (wf_eff_end v Hc) as He.
  pose proof (wf_eff_end_put v Hc) as Hp.
  drec Hc. unfold ipos, lex_le in *. simpl in *.
  rewrite He in *. rewrite wf_get_ptr in *.
  split; [lia|]. split; [lia|].
  apply lump_index_last; [by apply wf_mem_nodup_base|done].
Qed.

Lemma wf_put_in v : wf_cur v → (put_ptr v).1 ∈ addrs (base v).
Proof.
  intros Hrec; drec Hrec. rewrite last_lookup in wf_put_ptr. by eapply list_elem_of_lookup_2.
Qed.

(** Positions in [flat]: GET ≤ effective end ≤ PUT ≤ length. *)
Lemma wf_pos v :
  wf_mem v → wf_cur v →
  get_pos v ≤ end_pos v ∧ end_pos v ≤ put_pos v
  ∧ put_pos v ≤ length (flat (base v))
  ∧ length (flat (base v)) = length (base v) * size v.
Proof.
  intros Hm Hc. pose proof (wf_order v Hm Hc) as (Hge & Hep & Hl).
  pose proof (wf_eff_end_put v Hc) as Hp.
  pose proof (wf_eff_end_off v Hc) as Ho.
  pose proof (wf_eff_end v Hc) as He.
  rewrite (flat_length (size v)) by by apply wf_mem_data_base.
  drec Hc. unfold get_pos, end_pos, put_pos, pos. fold (eff_end v).
  split; [|split; [|split; [|done]]].
  - apply lex_le_pos; [done|]. unfold ipos, lex_le in *; simpl in *.
    destruct wf_get_off as [?|[Heq ?]]; [|lia].
    destruct (decide (get_lump v = end_lump v)) as [Hq|Hq];
      [rewrite wf_get_ptr, He, Hq in *; lia|].
    specialize (wf_get_in Hq). lia.
  - by apply lex_le_pos.
  - rewrite <- Hl. simpl. lia.
Qed.

(** ** Dropping lumps at the head *)

Lemma wf_cur_drop v v' k :
  wf_mem v → wf_cur v → base v' = drop k (base v) →
  same_cursors (set_base v (base v')) v' → k ≤ ix v (get_lump v) →
  wf_cur v'
  ∧ (∀ a, a ∈ addrs (base v) → k ≤ ix v a →
          a ∈ addrs (base v') ∧ ix v' a = ix v a - k).
Proof.
  intros Hm Hc Hb Hs Hk.
  pose proof (wf_order v Hm Hc) as (Hge & Hep & Hl).
  pose proof (wf_mem_nodup_base v Hm) as Hnd.
  assert (Hix : ∀ a, a ∈ addrs (base v) → k ≤ ix v a →
          a ∈ addrs (base v') ∧ ix v' a = ix v a - k).
  { intros a Ha Hka. unfold ix. rewrite Hb. by apply lump_index_drop. }
  split; [|done].
  pose proof (wf_put_in v Hc) as Hpi.
  drec Hc. rew_same Hs. simpl in *.
  destruct (Hix _ wf_get_lump) as [Hg1 Hg2]; [lia|].
  destruct (Hix _ wf_end_lump) as [He1 He2]; [lia|].
  destruct (Hix _ Hpi) as [Hp1 Hp2]; [lia|].
  constructor; unfold ipos, eff_end, deref_end, lump_end_ptr, lex_le in *;
    rewrite ?Hsc2, ?Hsc3, ?Hsc4, ?Hsc5, ?Hsc6, ?Hsc7, ?Hsc8, ?Hsc9, ?Hsc10;
    try done.
  - rewrite Hb. unfold addrs. rewrite fmap_drop. rewrite last_drop; [done|].
    rewrite length_fmap. lia.
  - destruct (p_end v); [done|].
    destruct wf_end as (e & He & Hel & Hle & Hlt). exists e.
    split; [done|]. split; [done|]. split; [|done]. simpl in *.
    rewrite Hel in *. rewrite He2, Hp2. lia.
  - rewrite wf_get_ptr in *.
    destruct (p_end v); simpl in *.
    + rewrite Hg2, Hp2. lia.
    + destruct wf_end as (e & He & Hel & Hle & Hlt). rewrite He in *. simpl in *.
      rewrite Hel in *. rewrite Hg2, He2. lia.
Qed.

Lemma contents_drop v v' k :
  wf_mem v → wf_cur v → base v' = drop k (base v) →
  same_cursors (set_base v (base v')) v' → k ≤ ix v (get_lump v) →
  visible v' = visible v ∧ stored v' = stored v ∧ pending v' = pending v
  ∧ whole_lumps v' = whole_lumps v.
Proof.
  intros Hm Hc Hb Hs Hk.
  destruct (wf_cur_drop v v' k Hm Hc Hb Hs Hk) as [Hc' Hix].
  pose proof (wf_order v Hm Hc) as (Hge & Hep & Hl).
  pose proof (wf_put_in v Hc) as Hpi.
  pose proof (wf_eff_end v Hc) as Hee.
  assert (size v' = size v) as Hsz by (by destruct Hs).
  assert (eff_end v' = eff_end v) as Hef.
  { rew_same Hs. unf. by rewrite Hsc6, Hsc7, Hsc9. }
  assert (get_ptr v' = get_ptr v) as Hgp by (by destruct Hs).
  assert (put_ptr v' = put_ptr v) as Hpp by (by destruct Hs).
  assert (end_lump v' = end_lump v) as Hel by (by destruct Hs).
  destruct (Hix _ (wf_get_lump v Hc)) as [Hg1 Hg2]; [lia|].
  destruct (Hix _ (wf_end_lump v Hc)) as [He1 He2]; [lia|].
  destruct (Hix _ Hpi) as [Hp1 Hp2]; [lia|].
  unfold visible, stored, pending, whole_lumps, get_pos, end_pos, put_pos, pos.
  fold (eff_end v) (eff_end v'). rewrite Hef, Hgp, Hpp, Hsz, Hel, Hee.
  rewrite (wf_get_ptr v Hc), Hg2, He2, Hp2.
  rewrite Hb, (flat_drop (size v)) by by apply wf_mem_data_base.
  rewrite !slice_shift.
  repeat split; f_equal; nia.
Qed.


(** ** What GET can reach without leaving its lump *)

Lemma deref_get_end_spec v :
  wf_cur v → deref_get_end v = Some (get_lump v, get_end_off v).
Proof.
  intros Hc. pose proof (wf_eff_end v Hc) as He. drec Hc.
  unfold deref_get_end, get_end_off. rewrite wf_get_end.
  case_bool_decide as Hq; [|done].
  unfold eff_end, deref_end in *. destruct (p_end v); simpl in *.
  - f_equal. rewrite Hq, <- He. by destruct (put_ptr v).
  - destruct wf_end as (e & -> & Hel & _). simpl. f_equal.
    rewrite Hq, <- Hel. by destruct e.
Qed.

Lemma get_end_off_bounds v :
  wf_mem v → wf_cur v →
  (get_ptr v).2 ≤ get_end_off v ∧ get_end_off v ≤ size v
  ∧ get_pos v + (get_end_off v - (get_ptr v).2) ≤ end_pos v.
Proof.
  intros Hm Hc. pose proof (wf_eff_end v Hc) as He.
  pose proof (wf_eff_end_off v Hc) as Ho.
  pose proof (wf_order v Hm Hc) as (Hge & _ & _).
  drec Hc. unfold get_end_off, get_pos, end_pos, pos. fold (eff_end v).
  unfold ipos, lex_le in *. simpl in *. rewrite He, wf_get_ptr in *.
  case_bool_decide as Hq.
  - rewrite Hq in *. lia.
  - specialize (wf_get_in Hq).
    assert (ix v (get_lump v) ≠ ix v (end_lump v)).
    { intros Heq. apply Hq. by eapply lump_index_inj. }
    nia.
Qed.

Lemma vio_fifo_get_spec v :
  wf_mem v → wf_cur v →
  vio_fifo_get v = Some (get_end_off v - (get_ptr v).2).
Proof.
  intros Hm Hc. unfold vio_fifo_get. rewrite deref_get_end_spec by done. simpl.
  pose proof (get_end_off_bounds v Hm Hc) as (? & _).
  unfold ptr_sub. simpl. rewrite (wf_get_ptr v Hc).
  rewrite !bool_decide_eq_true_2 by done. done.
Qed.

(** Nothing within reach means nothing visible at all. *)
Lemma get_end_off_visible v :
  wf_mem v → wf_cur v →
  get_end_off v = (get_ptr v).2 → visible v = [].
Proof.
  intros Hm Hc Hq. pose proof (wf_eff_end v Hc) as He.
  unfold get_end_off in Hq. case_bool_decide as Hl.
  - unfold visible. apply slice_nil. unfold end_pos, get_pos, pos.
    fold (eff_end v). rewrite He, (wf_get_ptr v Hc), Hl. lia.
  - pose proof (wf_get_in v Hc Hl). lia.
Qed.

Lemma lump_read_visible v k :
  wf_mem v → wf_cur v → k ≤ get_end_off v - (get_ptr v).2 →
  lump_read (base v) (get_ptr v) k = Some (take k (visible v)).
Proof.
  intros Hm Hc Hk. pose proof (get_end_off_bounds v Hm Hc) as (? & ? & ?).
  destruct (get_ptr v) as [gl g] eqn:Hg. simpl in *.
  pose proof (wf_get_ptr v Hc) as Hgl. rewrite Hg in Hgl. simpl in Hgl. subst gl.
  rewrite (lump_read_spec (size v)); [|by apply wf_mem_data_base|
    by apply wf_get_lump|lia].
  f_equal. unfold visible. rewrite slice_take.
  - unfold get_pos, pos, ix. rewrite Hg. done.
  - lia.
Qed.


(** Read a derived quantity through a field update that does not touch
    what it depends on. *)
Ltac fr1 :=
  match goal with
  | |- context [ix (?f ?v ?x) ?a] =>
      progress change (ix (f v x) a) with (ix v a)
  | |- context [eff_end (?f ?v ?x)] =>
      progress change (eff_end (f v x)) with (eff_end v)
  | |- context [deref_start (?f ?v ?x)] =>
      progress change (deref_start (f v x)) with (deref_start v)
  | |- context [get_end_off (?f ?v ?x)] =>
      progress change (get_end_off (f v x)) with (get_end_off v)
  | |- context [lumps (?f ?v ?x)] =>
      progress change (lumps (f v x)) with (lumps v)
  end.
Ltac psimpl :=
  cbn [base p_start hold_ptr get_lump get_ptr p_get_end end_lump end_ptr
       put_ptr put_end p_end size spare allocated freed
       set_base set_p_start set_hold_ptr set_get_lump set_get_ptr
       set_p_get_end set_end_lump set_end_ptr set_put_ptr set_put_end
       set_p_end set_spare set_allocated set_freed
       vio_fifo_set_get_ptr vio_fifo_set_get_end lump_data_ptr ptr_add
       fst snd] in *.
Ltac fr := psimpl; unfold ipos, lex_le in *; psimpl; repeat fr1.

(** ** Moving GET *)

(** GET moved forward inside its lump, short of the place where
    [vio_fifo_sync_get] has something to do. *)
Lemma advance_get_wf v k :
  wf v → (get_ptr v).2 + k ≤ get_end_off v →
  ((get_ptr v).2 + k = get_end_off v →
   get_lump v = end_lump v
   ∧ deref_start (set_get_ptr v (ptr_add (get_ptr v) k)) ≠ Some (put_ptr v)) →
  wf (set_get_ptr v (ptr_add (get_ptr v) k)).
Proof.
  intros [Hm Hc Hs] Hk Hend.
  pose proof (wf_eff_end v Hc) as He.
  pose proof (get_end_off_bounds v Hm Hc) as (Hb1 & Hb2 & Hb3).
  pose proof (wf_eff_end_put v Hc) as Hep.
  constructor; [by apply (wf_mem_same v)| |].
  - drec Hc. constructor; simpl; try done.
    + fr. unfold get_end_off, ipos, lex_le in *. simpl in *.
      rewrite wf_get_ptr, He in *.
      destruct (decide (get_lump v = end_lump v)) as [Hq|Hq].
      * rewrite bool_decide_eq_true_2 in * by done. rewrite ?Hq in *. lia.
      * assert (ix v (get_lump v) ≠ ix v (end_lump v)).
        { intros Heq. by eapply Hq, lump_index_inj. }
        lia.
    + intros Hq. unfold get_end_off in *.
      rewrite bool_decide_eq_false_2 in * by done.
      destruct (decide ((get_ptr v).2 + k = size v)) as [Hx|]; [|lia].
      by destruct (Hend Hx).
  - drec Hs. constructor; simpl.
    + unfold ix in *. simpl. done.
    + unfold deref_start in *. simpl in *. destruct (p_start v); [|done].
      intros [=Hq]. exfalso.
      destruct (decide ((get_ptr v).2 + k = get_end_off v)) as [Hx|Hx].
      * destruct (Hend Hx) as [_ Hn]. by rewrite Hq in Hn.
      * unfold get_end_off, ipos, lex_le in *. simpl in *.
        rewrite <- Hq in Hep. simpl in *.
        assert (get_lump v = end_lump v) as Hl.
        { apply (lump_index_inj _ _ (base v)); [by apply wf_get_lump|].
          pose proof (wf_order v Hm Hc) as (? & ? & ?).
          rewrite <- (wf_get_ptr v Hc) in *. rewrite <- Hq in *. simpl in *.
          unfold ix in *. lia. }
        rewrite bool_decide_eq_true_2 in * by done.
        rewrite He, <- Hl, <- (wf_get_ptr v Hc) in Hep. lia.
Qed.

Lemma advance_get_contents v k :
  wf v →
  let v' := set_get_ptr v (ptr_add (get_ptr v) k) in
  visible v' = drop k (visible v) ∧ stored v' = drop k (stored v)
  ∧ pending v' = pending v ∧ whole_lumps v' = drop k (whole_lumps v).
Proof.
  intros _. unf. rewrite !slice_drop.
  repeat split; f_equal; lia.
Qed.

Lemma contents_at_put w :
  get_ptr w = put_ptr w → eff_end w = put_ptr w → end_lump w = (put_ptr w).1 →
  visible w = [] ∧ stored w = [] ∧ pending w = [] ∧ whole_lumps w = [].
Proof.
  intros Hg He Hl. unfold visible, stored, pending, whole_lumps.
  unfold get_pos, end_pos, put_pos. fold (eff_end w). rewrite Hg, He, Hl.
  rewrite !slice_nil; [done|unfold pos; lia|lia..].
Qed.

(** GET has reached PUT with nothing retained: the pointers are reset. *)
Lemma step_reset v k :
  wf v → (get_ptr v).2 + k = get_end_off v → get_lump v = end_lump v →
  deref_start (set_get_ptr v (ptr_add (get_ptr v) k)) = Some (put_ptr v) →
  ∃ v', vio_fifo_reset_ptrs (set_get_ptr v (ptr_add (get_ptr v) k)) = Some v'
        ∧ wf v' ∧ visible v' = drop k (visible v)
        ∧ stored v' = drop k (stored v) ∧ pending v' = pending v
        ∧ whole_lumps v' = drop k (whole_lumps v)
        ∧ p_start v' = p_start v ∧ p_end v' = p_end v ∧ size v' = size v.
Proof.
  intros [Hm Hc Hs] Hk Hq Hst.
  pose proof (wf_eff_end v Hc) as He.
  pose proof (wf_eff_end_put v Hc) as Hep.
  pose proof (wf_order v Hm Hc) as (Ho1 & Ho2 & Ho3).
  pose proof (wf_pos v Hm Hc) as (Hp1 & Hp2 & Hp3 & Hp4).
  pose proof (wf_put_in v Hc) as Hpi.
  unfold get_end_off in Hk. rewrite bool_decide_eq_true_2 in Hk by done.
  (* one lump, and GET, END and PUT at the same place *)
  assert (length (base v) = 1 ∧ get_pos v + k = put_pos v) as [Hlen Hgp].
  { unfold deref_start in Hst. simpl in Hst. destruct (p_start v) eqn:Hps.
    - injection Hst as Hst. pose proof (wf_hold v Hs) as Hh. rewrite Hps in Hh.
      unfold get_pos, put_pos, pos. rewrite <- Hst. simpl.
      rewrite (wf_get_ptr v Hc). rewrite <- Hst in Ho3. simpl in Ho3.
      rewrite (wf_get_ptr v Hc) in Ho3. split; lia.
    - destruct (wf_empty v Hs) as [Hl Hz]; [by rewrite <- Hst; unfold deref_start; rewrite Hps|].
      split; [done|]. unfold ipos, lex_le in Hep. simpl in Hep.
      rewrite He in Hep. unfold get_pos, put_pos, pos.
      rewrite (wf_get_ptr v Hc), Hq. lia. }
  destruct (base v) as [|t [|??]] eqn:Hb; try done.
  assert (put_ptr v = (lump_addr t, (get_ptr v).2 + k) ∧
          get_lump v = lump_addr t) as [Hput Hgl].
  { pose proof (wf_put_ptr v Hc) as Hl. rewrite Hb in Hl. simpl in Hl.
    injection Hl as Hl. pose proof (wf_get_lump v Hc) as Hg. rewrite Hb in Hg.
    simpl in Hg. apply list_elem_of_singleton in Hg.
    split; [|done]. unfold get_pos, put_pos, pos in Hgp.
    rewrite (wf_get_ptr v Hc), Hg, <- Hl in Hgp. unfold ix in Hgp.
    rewrite Hb in Hgp. simpl in Hgp. rewrite bool_decide_eq_true_2 in Hgp by done.
    destruct (put_ptr v); simpl in *. f_equal; [done|lia]. }
  destruct (reset_ptrs_spec (set_get_ptr v (ptr_add (get_ptr v) k)) t)
    as (v' & Hr & Hwf & Hv'); simpl; try done.
  - by apply (wf_mem_same v).
  - congruence.
  - rewrite (wf_put_end v Hc), Hput. done.
  - rewrite (wf_get_end v Hc). by rewrite bool_decide_eq_true_2.
  - exists v'. split; [done|]. split; [done|].
    assert (end_pos v = put_pos v) as Hee.
    { rewrite <- Hgp. unfold end_pos, get_pos, pos. fold (eff_end v).
      rewrite He, (wf_get_ptr v Hc), Hq. lia. }
    assert (ix v (end_lump v) = 0) as Hei.
    { unfold ix. rewrite <- Hq, Hgl, Hb. simpl. by rewrite bool_decide_eq_true_2. }
    destruct (contents_at_put v') as (-> & -> & -> & ->).
    { by rewrite Hv'. }
    { rewrite Hv'. unfold eff_end, deref_end. simpl. by destruct (p_end v). }
    { rewrite Hv'. simpl. congruence. }
    unfold visible, stored, pending, whole_lumps.
    rewrite !slice_drop. rewrite !slice_nil by lia.
    rewrite Hv'. done.
Qed.

(** GET at the end of a lump that is not the end lump: on to the next
    lump. *)
Lemma step_next_cur v nl :
  wf_mem v → wf_cur v → get_lump v ≠ end_lump v →
  lump_addr nl ∈ addrs (base v) → ix v (lump_addr nl) = S (ix v (get_lump v)) →
  let v2 := vio_fifo_set_get_ptr v nl (lump_data_ptr nl) in
  wf_cur v2 ∧ get_pos v2 = S (ix v (get_lump v)) * size v.
Proof.
  intros Hm Hc Hq Hin Hix v2.
  pose proof (wf_eff_end v Hc) as He.
  pose proof (wf_order v Hm Hc) as (Ho1 & Ho2 & Ho3).
  assert (ix v (get_lump v) ≠ ix v (end_lump v)) as Hne.
  { intros Heq. eapply Hq, lump_index_inj; [by apply wf_get_lump|done]. }
  split; [|unfold get_pos, pos, ix in *; subst v2; psimpl; rewrite Hix; lia].
  drec Hc. constructor; subst v2; unfold vio_fifo_set_get_ptr,
    vio_fifo_set_get_end; fr; try done.
  - rewrite He. rewrite Hix. destruct (decide (lump_addr nl = end_lump v)) as [Hl|Hl].
    + rewrite <- Hl, Hix. lia.
    + assert (ix v (lump_addr nl) ≠ ix v (end_lump v)).
      { intros Heq. by eapply Hl, lump_index_inj. }
      lia.
  - pose proof (wf_mem_nodup_base v Hm). drec Hm. lia.
Qed.

Lemma step_next v k :
  wf v → (get_ptr v).2 + k = size v → get_lump v ≠ end_lump v →
  ∃ v', vio_fifo_sync_get (set_get_ptr v (ptr_add (get_ptr v) k)) = Some v'
        ∧ wf v' ∧ visible v' = drop k (visible v)
        ∧ stored v' = drop k (stored v) ∧ pending v' = pending v
        ∧ whole_lumps v' = drop k (whole_lumps v)
        ∧ p_start v' = p_start v ∧ p_end v' = p_end v ∧ size v' = size v.
Proof.
  intros Hwf Hk Hq. pose proof Hwf as [Hm Hc Hs].
  pose proof (wf_eff_end v Hc) as He.
  pose proof (wf_order v Hm Hc) as (Ho1 & Ho2 & Ho3).
  pose proof (wf_mem_nodup_base v Hm) as Hnd.
  assert (ix v (get_lump v) ≠ ix v (end_lump v)) as Hne.
  { intros Heq. eapply Hq, lump_index_inj; [by apply wf_get_lump|done]. }
  destruct (ddl_next_spec (get_lump v) (base v)) as (nl & Hnl & Hin & Hix);
    [done|by apply wf_get_lump|unfold ix in *; lia|].
  change (ix v (lump_addr nl) = S (ix v (get_lump v))) in Hix.
  unfold vio_fifo_sync_get. simpl.
  rewrite (bool_decide_eq_false_2 _ Hq), Hnl. simpl.
  set (v1 := set_get_ptr v (ptr_add (get_ptr v) k)).
  (* contents of the state before the step, seen from the next lump *)
  destruct (advance_get_contents v k Hwf) as (Hc1 & Hc2 & Hc3 & Hc4).
  fold v1 in Hc1, Hc2, Hc3, Hc4.
  destruct (step_next_cur v nl Hm Hc Hq Hin Hix) as [Hcur Hgp].
  set (v2 := vio_fifo_set_get_ptr v1 nl (lump_data_ptr nl)).
  assert (wf_cur v2) as Hcur2.
  { drec Hcur. constructor; done. }
  assert (wf_mem v2) as Hm2 by (by apply (wf_mem_same v)).
  assert (visible v2 = drop k (visible v) ∧ stored v2 = drop k (stored v)
          ∧ pending v2 = pending v
          ∧ whole_lumps v2 = drop k (whole_lumps v)) as (Hv1 & Hv2 & Hv3 & Hv4).
  { rewrite <- Hc1, <- Hc2, <- Hc3, <- Hc4.
    unfold visible, stored, pending, whole_lumps, get_pos, end_pos, put_pos,
      pos, ix in *.
    subst v1 v2. psimpl.
    change (deref_end (set_p_get_end ?x ?y)) with (deref_end v).
    change (deref_end (set_get_ptr ?x ?y)) with (deref_end v).
    rewrite Hix, (wf_get_ptr v Hc).
    replace (S (lump_index (get_lump v) (base v)) * size v + 0)
      with (lump_index (get_lump v) (base v) * size v + ((get_ptr v).2 + k))
      by lia.
    done. }
  unfold vio_fifo_have_hold_mark. simpl. destruct (p_start v) eqn:Hps; simpl.
  - (* no hold mark: release the lump stepped from *)
    pose proof (wf_hold v Hs) as Hh. rewrite Hps in Hh.
    destruct (release_upto_loop_spec (base v2) v2 (lump_addr nl))
      as (v' & Hr & Hm' & Hb' & Hs'); try done.
    { intros a Ha. apply take_elem_index in Ha; [|done].
      change (lump_index ?a (base v2)) with (ix v a) in Ha.
      simpl. unfold ix in *. split; intros ->; lia. }
    change (lump_index ?a (base v2)) with (ix v a) in Hb'.
    rewrite Hix, Hh in Hb'.
    assert (same_cursors (set_base v2 (base v')) v') as Hs'2 by done.
    destruct (wf_cur_drop v2 v' 1 Hm2 Hcur2 Hb' Hs'2) as [Hc' Hix'].
    { change (ix v2 ?a) with (ix v a). simpl. lia. }
    destruct (contents_drop v2 v' 1 Hm2 Hcur2 Hb' Hs'2) as (Hd1 & Hd2 & Hd3 & Hd4).
    { change (ix v2 ?a) with (ix v a). simpl. lia. }
    exists v'. split; [done|]. rew_same Hs'. simpl in *.
    split; [|rewrite Hd1, Hd2, Hd3, Hd4, Hsc0, Hsc9, Hsc10; done].
    constructor; [done..|]. constructor.
    + rewrite Hsc0, Hps, Hsc2.
      destruct (Hix' (lump_addr nl)) as [_ ->]; [done|..];
        change (ix v2 ?a) with (ix v a); lia.
    + unfold deref_start. rewrite Hsc0, Hps, Hsc3, Hsc7. simpl.
      intros [=Hput].
      pose proof (wf_order v' Hm' Hc') as (_ & _ & Hl).
      rewrite <- Hput in *. simpl in *.
      destruct (Hix' (lump_addr nl)) as [_ Hi]; [done|..].
      { change (ix v2 ?a) with (ix v a); lia. }
      change (ix v2 ?a) with (ix v a) in Hi. rewrite Hsc7 in Hl. simpl in Hl. split; [lia|done].
  - (* hold mark: the lumps stay *)
    exists v2. split; [done|]. split; [|done].
    constructor; [done..|].
    constructor.
    + pose proof (wf_hold v Hs) as Hh. rewrite Hps in Hh.
      change (p_start v2) with (p_start v). rewrite Hps. exact Hh.
    + intros Hd. apply (wf_empty v Hs). revert Hd. unfold deref_start.
      change (p_start v2) with (p_start v). by rewrite Hps.
Qed.

(** [vio_fifo_step] by [k] bytes within reach. *)
Lemma step_spec v k :
  wf v → k ≤ get_end_off v - (get_ptr v).2 →
  (k = 0 → (get_ptr v).2 < get_end_off v) →
  ∃ v', vio_fifo_step v k = Some v' ∧ wf v'
        ∧ visible v' = drop k (visible v)
        ∧ stored v' = drop k (stored v) ∧ pending v' = pending v
        ∧ whole_lumps v' = drop k (whole_lumps v)
        ∧ p_start v' = p_start v ∧ p_end v' = p_end v ∧ size v' = size v.
Proof.
  intros Hwf Hk Hk0. pose proof Hwf as [Hm Hc Hs].
  pose proof (get_end_off_bounds v Hm Hc) as (Hb1 & Hb2 & Hb3).
  unfold vio_fifo_step. psimpl.
  change (deref_get_end (set_get_ptr v ?x)) with (deref_get_end v).
  rewrite (deref_get_end_spec v Hc). simpl.
  unfold ptr_ge. simpl. rewrite (bool_decide_eq_true_2 _ (wf_get_ptr v Hc)).
  simpl. case_bool_decide as Hat.
  - assert ((get_ptr v).2 + k = get_end_off v) as Hq by lia.
    destruct (decide (get_lump v = end_lump v)) as [Hl|Hl].
    + unfold vio_fifo_sync_get. psimpl.
      rewrite (bool_decide_eq_true_2 _ Hl).
      unfold optr_eqb. case_bool_decide as Hst.
      * by apply step_reset.
      * eexists. split; [done|]. split.
        { apply advance_get_wf; [done|lia|]. intros _. split; [done|].
          psimpl. done. }
        destruct (advance_get_contents v k Hwf) as (? & ? & ? & ?). done.
    + apply step_next; [done| |done]. unfold get_end_off in Hq.
      by rewrite bool_decide_eq_false_2 in Hq.
  - eexists. split; [done|]. split.
    { apply advance_get_wf; [done|lia|]. intros ?. lia. }
    destruct (advance_get_contents v k Hwf) as (? & ? & ? & ?). done.
Qed.

(** ** [vio_fifo_get_bytes] *)

Lemma ptr_sub_get v :
  wf_mem v → wf_cur v →
  ptr_sub (get_lump v, get_end_off v) (get_ptr v)
  = Some (get_end_off v - (get_ptr v).2).
Proof.
  intros Hm Hc. pose proof (get_end_off_bounds v Hm Hc) as (Hb1 & _).
  unfold ptr_sub. simpl. rewrite (wf_get_ptr v Hc).
  by rewrite !bool_decide_eq_true_2.
Qed.

Lemma get_bytes_loop_spec fuel v n :
  wf v → n ≤ fuel →
  ∃ v', get_bytes_loop fuel v n = Some (v', take n (visible v)) ∧ wf v'
        ∧ visible v' = drop n (visible v)
        ∧ stored v' = drop (n `min` length (visible v)) (stored v)
        ∧ pending v' = pending v
        ∧ p_start v' = p_start v ∧ p_end v' = p_end v ∧ size v' = size v.
Proof.
  revert v n. induction fuel as [|fuel IH]; intros v n Hwf Hn.
  { assert (n = 0) as -> by lia. simpl. exists v. by rewrite !drop_0. }
  destruct n as [|n]; [simpl; exists v; by rewrite !drop_0|].
  pose proof Hwf as [Hm Hc Hs].
  pose proof (get_end_off_bounds v Hm Hc) as (Hb1 & Hb2 & Hb3).
  pose proof (wf_pos v Hm Hc) as (Hp1 & Hp2 & Hp3 & Hp4).
  cbn [get_bytes_loop].
  remember (S n `min` length (visible v)) as m eqn:Hmin.
  remember (S n) as n' eqn:Hn'.
  rewrite (deref_get_end_spec v Hc). simpl.
  rewrite (ptr_sub_get v Hm Hc). simpl.
  set (have := get_end_off v - (get_ptr v).2).
  assert (have ≤ length (visible v)) as Hlen.
  { unfold visible. rewrite slice_length by lia. subst have. lia. }
  case_bool_decide as Hlt; simpl.
  - (* the request is within reach *)
    rewrite (lump_read_visible v n') by (done || fold have; lia). simpl.
    destruct (step_spec v n' Hwf) as (v' & -> & Hwf' & H1 & H2 & H3 & _ & H4);
      [fold have; lia|lia|]. simpl.
    rewrite Nat.sub_diag. replace m with n' by lia.
    destruct fuel; simpl; rewrite app_nil_r; exists v'; done.
  - case_bool_decide as Hz; simpl.
    + (* nothing within reach: nothing visible *)
      rewrite (get_end_off_visible v Hm Hc) by (subst have; lia).
      exists v. rewrite (get_end_off_visible v Hm Hc) in Hmin by (subst have; lia).
      simpl in Hmin. rewrite Nat.min_0_r in Hmin. subst m.
      rewrite take_nil, drop_nil, drop_0. split; [done|]. split; [done|]. split; [|done]. apply (get_end_off_visible v Hm Hc). subst have; lia.
    + (* take what is within reach, and go round again *)
      rewrite (lump_read_visible v have) by (done || fold have; lia). simpl.
      destruct (step_spec v have Hwf) as (v' & -> & Hwf' & H1 & H2 & H3 & _ & H4);
        [fold have; lia|lia|]. simpl.
      destruct (IH v' (n' - have) Hwf') as (v'' & -> & Hwf'' & G1 & G2 & G3 & G4);
        [lia|]. simpl.
      exists v''. rewrite H1.
      split.
      { do 2 f_equal. rewrite take_take_drop. f_equal. lia. }
      split; [done|]. rewrite G1, G2, G3, H1, H2, H3, !drop_drop, length_drop.
      destruct G4 as (-> & -> & ->). destruct H4 as (-> & -> & ->).
      repeat split; try done; f_equal; lia.
Qed.

Lemma get_bytes_spec v n :
  wf v →
  ∃ v', vio_fifo_get_bytes v n = Some (v', take n (visible v)) ∧ wf v'
        ∧ visible v' = drop n (visible v)
        ∧ stored v' = drop (n `min` length (visible v)) (stored v)
        ∧ pending v' = pending v
        ∧ p_start v' = p_start v ∧ p_end v' = p_end v ∧ size v' = size v.
Proof. intros. by apply get_bytes_loop_spec. Qed.


(** Cases on a decision that the text tests with [bool_decide]. *)
Ltac bdc P H :=
  destruct (decide P) as [H|H];
  [rewrite ?(bool_decide_eq_true_2 P H) in *
  |rewrite ?(bool_decide_eq_false_2 P H) in *].

(** ** Growing *)

#[global] Arguments grown : simpl never.

Lemma grown_fields v l :
  base (grown v l) = base v ++ [l]
  ∧ p_start (grown v l) = p_start v ∧ hold_ptr (grown v l) = hold_ptr v
  ∧ p_end (grown v l) = p_end v ∧ size (grown v l) = size v
  ∧ spare (grown v l) = spare v ∧ allocated (grown v l) = allocated v
  ∧ freed (grown v l) = freed v
  ∧ put_ptr (grown v l) = (lump_addr l, 0)
  ∧ put_end (grown v l) = (lump_addr l, size v)
  ∧ get_ptr (grown v l)
    = (if ptr_eqb (get_ptr v) (put_ptr v) then (lump_addr l, 0) else get_ptr v)
  ∧ get_lump (grown v l)
    = (if ptr_eqb (get_ptr v) (put_ptr v) then lump_addr l else get_lump v)
  ∧ end_lump (grown v l)
    = (if optr_eqb (Some (put_ptr v)) (deref_end v) then lump_addr l
       else end_lump v)
  ∧ end_ptr (grown v l)
    = (if optr_eqb (Some (put_ptr v)) (deref_end v) then Some (lump_addr l, 0)
       else end_ptr v)
  ∧ p_get_end (grown v l)
    = (if bool_decide (get_lump (grown v l) = end_lump (grown v l))
       then get_end_of (p_end v) else GetEndLump (get_lump (grown v l))).
Proof.
  unfold grown, ddl_append, deref_end, lump_end_ptr. psimpl.
  destruct (ptr_eqb (get_ptr v) (put_ptr v)); psimpl;
    destruct (p_end v) eqn:Hpe; psimpl;
    repeat (match goal with |- context [optr_eqb ?a ?b] =>
              destruct (optr_eqb a b) end; psimpl);
    rewrite ?Hpe; repeat split; done.
Qed.

Lemma grown_ix v l :
  lump_addr l ∉ addrs (base v) →
  (∀ a, a ∈ addrs (base v) → ix (grown v l) a = ix v a)
  ∧ ix (grown v l) (lump_addr l) = length (base v).
Proof.
  intros Hn. destruct (grown_fields v l) as (Hb & _). unfold ix. rewrite Hb.
  split.
  - intros a Ha. by apply lump_index_app_l.
  - rewrite lump_index_app_r by done. simpl.
    rewrite bool_decide_eq_true_2 by done. lia.
Qed.

Lemma grown_cur v l :
  wf_mem v → wf_cur v → wf_start v → (put_ptr v).2 = size v →
  lump_addr l ∉ addrs (base v) →
  wf_cur (grown v l) ∧ wf_start (grown v l).
Proof.
  intros Hm Hc Hs Hfull Hn.
  destruct (grown_ix v l Hn) as [Hio Hin].
  destruct (grown_fields v l) as
    (Fb & Fps & Fh & Fpe & Fsz & _ & _ & _ & Fpp & Fpn & Fgp & Fgl & Fel & Fep & Fge).
  pose proof (wf_eff_end v Hc) as He.
  pose proof (wf_order v Hm Hc) as (Ho1 & Ho2 & Ho3).
  pose proof (wf_put_in v Hc) as Hpi.
  pose proof (wf_get_lump v Hc) as Hgi. pose proof (wf_end_lump v Hc) as Hei.
  pose proof (wf_get_ptr v Hc) as Hgp. pose proof (wf_get_off v Hc) as Hgo.
  pose proof (wf_get_in v Hc) as Hgn. pose proof (wf_end v Hc) as Hend.
  pose proof (wf_size v Hm) as Hz.
  assert ((get_ptr v).2 ≤ size v) as Hgs.
  { pose proof (get_end_off_bounds v Hm Hc). lia. }
  pose proof (Hio _ Hgi) as Ig. pose proof (Hio _ Hei) as Ie.
  pose proof (Hio _ Hpi) as Ip.
  assert (lump_addr l ≠ get_lump v) as Ng by (intros E; by rewrite <- E in Hgi).
  assert (lump_addr l ≠ end_lump v) as Ne by (intros E; by rewrite <- E in Hei).
  assert (lump_addr l ≠ (put_ptr v).1) as Np by (intros E; by rewrite <- E in Hpi).
  (* not empty: PUT is at the end of its lump *)
  assert (deref_start v ≠ Some (put_ptr v)) as Hne.
  { intros Hd. destruct (wf_empty v Hs Hd). lia. }
  assert (ptr_eqb (get_ptr v) (put_ptr v) = true → p_start v = StartHold) as Hgh.
  { unfold ptr_eqb. intros Hq%bool_decide_eq_true. unfold deref_start in Hne.
    destruct (p_start v); [by rewrite Hq in Hne|done]. }
  unfold ptr_eqb, optr_eqb in *.
  split.
  - constructor; unfold eff_end, deref_end, ipos, lex_le, lump_end_ptr in *;
      rewrite ?Fb, ?Fps, ?Fh, ?Fpe, ?Fsz, ?Fpp, ?Fpn, ?Fge; cbn [fst snd] in *.
    + rewrite Fgl. unfold addrs. rewrite fmap_app. apply elem_of_app.
      destruct (bool_decide (get_ptr v = put_ptr v));
        [right; apply list_elem_of_here|by left].
    + rewrite Fel. unfold addrs. rewrite fmap_app. apply elem_of_app.
      match goal with |- context [bool_decide ?P] =>
        destruct (bool_decide P) end;
        [right; apply list_elem_of_here|by left].
    + rewrite Fgp, Fgl. by destruct (bool_decide (get_ptr v = put_ptr v)).
    + unfold addrs. rewrite fmap_app. cbn. by rewrite last_snoc.
    + done.
    + lia.
    + rewrite Fel, Fep. destruct (p_end v) eqn:Hpe; cbn [default from_option id] in *.
      * by rewrite bool_decide_eq_true_2.
      * destruct Hend as (e & Hep & Hel & Hle & Hlt). rewrite Hep in *.
        cbn [default from_option id] in *.
        bdc (Some (put_ptr v) = Some e) Hq.
        -- eexists. split; [done|]. cbn [fst snd]. split; [done|]. rewrite Hin.
           split; [lia|done].
        -- exists e. split; [done|]. split; [done|]. rewrite Hin.
           rewrite Hel in *. rewrite Ie. split; [lia|]. intros _.
           destruct (decide (end_lump v = (put_ptr v).1)) as [Hq'|Hq'];
             [|by apply Hlt].
           assert (e.2 ≠ (put_ptr v).2); [|rewrite Hq' in *; lia].
           intros Hq2. apply Hq. f_equal. destruct e, (put_ptr v); simpl in *.
           congruence.
    + done.
    + rewrite ?Fgp, ?Fgl, ?Fel, ?Fep.
      destruct (p_end v) eqn:Hpe; cbn [default from_option id] in *.
      * bdc (get_ptr v = put_ptr v) Hq; cbn [fst snd]; rewrite ?Hgp, ?Hin, ?Ig; lia.
      * destruct Hend as (e & Hep & Hel & Hle & Hlt). rewrite Hep in *.
        cbn [default from_option id] in *. rewrite Hel in *.
        bdc (get_ptr v = put_ptr v) Hq; bdc (Some (put_ptr v) = Some e) Hq2;
          cbn [default from_option id fst snd];
          rewrite ?Hel, ?Hgp, ?Hin, ?Ig, ?Ie; try lia.
        -- exfalso. rewrite Hq in Hgo. apply Hq2. f_equal.
           assert ((put_ptr v).2 ≤ e.2 ∧ ix v (put_ptr v).1 = ix v (end_lump v))
             as [? Hi] by lia.
           destruct e, (put_ptr v); simpl in *.
           f_equal; [|lia]. subst. apply (lump_index_inj _ _ (base v)); done.
        -- rewrite Hgp in Hgo. lia.
    + rewrite Fgp, Fgl, Fel.
      bdc (get_ptr v = put_ptr v) Hq; cbn [fst snd]; [lia|]. intros Hd.
      destruct (decide (get_lump v = end_lump v)) as [Hl|Hl]; [|by apply Hgn].
      (* the end moved on with PUT, GET stayed: GET is short of the lump's end *)
      bdc (Some (put_ptr v) = deref_end v) Hq2; [|done].
      assert ((get_ptr v).2 ≠ size v); [|lia].
      intros Hg. apply Hq.
      assert (end_lump v = (put_ptr v).1) as Hl2.
      { unfold deref_end in Hq2. destruct (p_end v); simpl in *; [done|].
        destruct Hend as (e & Hep & Hel & _). rewrite Hep in Hq2.
        injection Hq2 as <-. done. }
      destruct (get_ptr v), (put_ptr v); simpl in *. f_equal; congruence.
  - constructor; unfold deref_start, eff_end, deref_end, ipos, lex_le in *;
      rewrite ?Fb, ?Fps, ?Fh, ?Fpe, ?Fsz, ?Fpp, ?Fpn; cbn [fst snd] in *.
    + pose proof (wf_hold v Hs) as Hh. destruct (p_start v) eqn:Hps.
      * rewrite Fgl.
        bdc (get_ptr v = put_ptr v) Hq; [by specialize (Hgh eq_refl)|].
        by rewrite Ig.
      * destruct Hh as (h & Hhp & Hh0 & Hhi & Hhs & Hhl). exists h.
        split; [done|]. rewrite (Hio _ Hhi). split; [done|].
        split; [unfold addrs; rewrite fmap_app; apply elem_of_app; by left|].
        split; [done|]. rewrite Fep.
        unfold lex_le, ipos, eff_end, deref_end in Hhl.
        destruct (p_end v) eqn:Hpe; cbn [default from_option id fst snd] in *;
          rewrite ?Hin; [lia|].
        destruct Hend as (e & Hep & Hel & Hle & Hlt). rewrite Hep in *.
        cbn [default from_option id fst snd] in *.
        bdc (Some (put_ptr v) = Some e) Hq; cbn [default from_option id fst snd];
          rewrite ?Hin; [lia|].
        rewrite Hel in *. rewrite Ie. lia.
    + destruct (p_start v) eqn:Hps.
      * rewrite Fgp.
        bdc (get_ptr v = put_ptr v) Hq; [by specialize (Hgh eq_refl)|].
        intros [=Hg]. rewrite <- Hgp, Hg in Ng. done.
      * pose proof (wf_hold v Hs) as Hh. rewrite Hps in Hh.
        destruct Hh as (h & Hhp & Hh0 & Hhi & Hhs & Hhl). rewrite Hhp.
        intros [=->]. done.
Qed.

Lemma grown_contents v l :
  wf_mem v → wf_cur v → (put_ptr v).2 = size v →
  lump_addr l ∉ addrs (base v) →
  visible (grown v l) = visible v ∧ stored (grown v l) = stored v
  ∧ pending (grown v l) = pending v.
Proof.
  intros Hm Hc Hfull Hn.
  destruct (grown_ix v l Hn) as [Hio Hin].
  destruct (grown_fields v l) as
    (Fb & Fps & Fh & Fpe & Fsz & _ & _ & _ & Fpp & Fpn & Fgp & Fgl & Fel & Fep & Fge).
  pose proof (wf_order v Hm Hc) as (Ho1 & Ho2 & Ho3).
  pose proof (wf_pos v Hm Hc) as (Hp1 & Hp2 & Hp3 & Hp4).
  pose proof (wf_put_in v Hc) as Hpi.
  pose proof (wf_get_lump v Hc) as Hgi. pose proof (wf_get_ptr v Hc) as Hgp.
  pose proof (wf_end v Hc) as Hend.
  assert (put_pos v = length (base v) * size v) as HP.
  { unfold put_pos, pos. rewrite Hfull, <- Ho3. lia. }
  assert (put_pos (grown v l) = put_pos v) as EP.
  { rewrite HP. unfold put_pos, pos. rewrite Fpp, Fsz. cbn [fst snd].
    rewrite Hin. lia. }
  assert (get_pos (grown v l) = get_pos v) as EG.
  { unfold get_pos, pos. rewrite Fgp, Fsz. unfold ptr_eqb.
    bdc (get_ptr v = put_ptr v) Hq; cbn [fst snd].
    - rewrite Hin, Hq. unfold put_pos, pos in HP. lia.
    - rewrite Hgp, (Hio _ Hgi). done. }
  assert (end_pos (grown v l) = end_pos v) as EE.
  { unfold end_pos, pos, deref_end. rewrite Fpe, Fep, Fpp, Fsz.
    unfold optr_eqb, deref_end.
    destruct (p_end v) eqn:Hpe; cbn [default from_option id fst snd].
    - rewrite Hin. unfold put_pos, pos in HP. lia.
    - destruct Hend as (e & Hep & Hel & Hle & Hlt). rewrite Hep.
      bdc (Some (put_ptr v) = Some e) Hq; cbn [default from_option id fst snd].
      + rewrite Hin. injection Hq as <-. unfold put_pos, pos in HP. lia.
      + rewrite Hel, (Hio _ (wf_end_lump v Hc)). done. }
  unfold visible, stored, pending. rewrite EP, EG, EE, Fb, flat_app.
  rewrite !slice_app_l by lia. done.
Qed.

Lemma grown_hold v l :
  wf_cur v → wf_start v → lump_addr l ∉ addrs (base v) →
  hold_ok v → hold_ok (grown v l).
Proof.
  intros Hc Hs Hn. destruct (grown_ix v l Hn) as [Hio Hin].
  destruct (grown_fields v l) as
    (Fb & Fps & Fh & Fpe & Fsz & _ & _ & _ & Fpp & Fpn & Fgp & Fgl & Fel & Fep & Fge).
  pose proof (wf_hold v Hs) as Hh. pose proof (wf_get_lump v Hc) as Hgi.
  pose proof (wf_get_ptr v Hc) as Hgp.
  unfold hold_ok. rewrite Fps, Fh, Fgp. destruct (p_start v); [done|].
  destruct Hh as (h & Hq & Hh0 & Hhi & _). intros (h' & Hq' & Hl).
  assert (h' = h) as -> by congruence. exists h. split; [done|].
  unfold ipos, lex_le in *. cbn [fst snd] in *. rewrite (Hio _ Hhi).
  destruct (ptr_eqb (get_ptr v) (put_ptr v)); cbn [fst snd].
  - rewrite Hin. apply lump_index_lt in Hhi. fold (ix v h.1) in Hhi. lia.
  - rewrite Hgp in *. rewrite (Hio _ Hgi). done.
Qed.

Lemma grown_same v v2 l :
  same_cursors v v2 → same_cursors (grown v l) (grown v2 l).
Proof.
  intros Hs. rew_same Hs.
  destruct (grown_fields v l) as
    (Fb & Fps & Fh & Fpe & Fsz & _ & _ & _ & Fpp & Fpn & Fgp & Fgl & Fel & Fep & Fge).
  destruct (grown_fields v2 l) as
    (Gb & Gps & Gh & Gpe & Gsz & _ & _ & _ & Gpp & Gpn & Ggp & Ggl & Gel & Gep & Gge).
  assert (deref_end v2 = deref_end v) as Hde.
  { unfold deref_end. by rewrite Hsc9, Hsc7, Hsc6. }
  rewrite Hde, ?Hsc, ?Hsc0, ?Hsc1, ?Hsc2, ?Hsc3, ?Hsc5, ?Hsc6, ?Hsc7, ?Hsc9,
    ?Hsc10 in *.
  assert (get_lump (grown v2 l) = get_lump (grown v l)) as E1 by congruence.
  assert (end_lump (grown v2 l) = end_lump (grown v l)) as E2 by congruence.
  constructor; try congruence.
  rewrite Gge, Fge, E1, E2. congruence.
Qed.

Lemma add_lump_spec v :
  wf v → (put_ptr v).2 = size v →
  ∃ v', vio_fifo_add_lump v = Some v' ∧ wf v'
        ∧ visible v' = visible v ∧ stored v' = stored v
        ∧ pending v' = pending v
        ∧ p_start v' = p_start v ∧ p_end v' = p_end v ∧ size v' = size v
        ∧ (put_ptr v').2 = 0 ∧ length (base v') = S (length (base v))
        ∧ freed v' = freed v ∧ (hold_ok v → hold_ok v').
Proof.
  intros [Hm Hc Hs] Hfull.
  assert (deref_start v ≠ Some (put_ptr v)) as Hne.
  { intros Hd. destruct (wf_empty v Hs Hd). pose proof (wf_size v Hm). lia. }
  unfold vio_fifo_add_lump.
  rewrite (wf_put_end v Hc). unfold ptr_eqb, optr_eqb, lump_end_ptr.
  assert (put_ptr v = ((put_ptr v).1, size v)) as Hpf.
  { rewrite <- Hfull. by destruct (put_ptr v). }
  rewrite (bool_decide_eq_true_2 _ Hpf).
  rewrite bool_decide_eq_false_2 by done. cbn [assert negb mbind option_bind].
  set (lv := match spare v with
             | Some l => (l, set_spare v None)
             | None => (Lump (S (allocated v)) (fresh_data (size v)),
                        set_allocated (set_spare v None) (S (allocated v)))
             end).
  assert (same_cursors v (lv.2) ∧ wf_mem (grown (lv.2) (lv.1))
          ∧ (lump_addr (lv.1) ∉ addrs (base v)) ∧ freed (lv.2) = freed v)
    as (Hsc & Hm' & Hn & Hfr).
  { destruct Hm as [Mz Md Mn Ma Mo Mf]. unfold lumps in *.
    subst lv. destruct (spare v) as [l|] eqn:Hsp; cbn [fst snd].
    - split; [by constructor|].
      destruct (grown_fields (set_spare v None) l) as
        (Fb & _ & _ & _ & Fsz & Fsp & Fal & Ffr & _).
      psimpl. unfold addrs in Mn. rewrite fmap_app in Mn.
      apply NoDup_app in Mn as (Mn1 & Mn2 & Mn3).
      split; [|split; [|done]].
      + constructor; unfold lumps; rewrite ?Fb, ?Fsz, ?Fsp, ?Fal, ?Ffr;
          simpl; rewrite ?app_nil_r; try done.
        unfold addrs. rewrite fmap_app. by apply NoDup_app.
      + intros Hin. apply (Mn2 _ Hin). simpl. apply list_elem_of_here.
    - split; [by constructor|].
      destruct (grown_fields (set_allocated (set_spare v None) (S (allocated v)))
                  (Lump (S (allocated v)) (fresh_data (size v)))) as
        (Fb & _ & _ & _ & Fsz & Fsp & Fal & Ffr & _).
      psimpl. cbn [option_list] in *. rewrite app_nil_r in *.
      assert (S (allocated v) ∉ addrs (base v)) as Hfresh.
      { intros Hin. rewrite Forall_forall in Ma. specialize (Ma _ Hin). lia. }
      split; [|split; [|done]]; [|done].
      constructor; unfold lumps; rewrite ?Fb, ?Fsz, ?Fsp, ?Fal, ?Ffr;
        simpl; rewrite ?app_nil_r; try done.
      + apply Forall_app. split; [done|]. repeat constructor. simpl.
        unfold fresh_data. by rewrite length_replicate.
      + unfold addrs. rewrite fmap_app. apply NoDup_app. split; [done|].
        split; [|apply NoDup_singleton].
        intros x Hx [->|[]%elem_of_nil]%elem_of_cons. done.
      + unfold addrs. rewrite fmap_app. apply Forall_app. split.
        * eapply Forall_impl; [done|]. simpl. lia.
        * repeat constructor.
      + unfold addrs. rewrite fmap_app. apply elem_of_app. by left. }
  exists (grown (lv.2) (lv.1)). split.
  { subst lv. unfold grown. destruct (spare v); reflexivity. }
  pose proof (grown_same v (lv.2) (lv.1) Hsc) as Hgs.
  destruct (grown_cur v (lv.1) Hm Hc Hs Hfull Hn) as [Hc' Hs'].
  destruct (grown_contents v (lv.1) Hm Hc Hfull Hn) as (Cv & Cs & Cp).
  destruct (contents_same _ _ Hgs) as (-> & -> & -> & _).
  destruct (grown_fields (lv.2) (lv.1)) as
    (Fb & Fps & Fh & Fpe & Fsz & _ & _ & Ffr & Fpp & _).
  split.
  { constructor; [done|by apply (wf_cur_same _ _ Hgs)|
                  by apply (wf_start_same _ _ Hgs)]. }
  assert (hold_ok v → hold_ok (grown (lv.2) (lv.1))) as Hok.
  { intros Hok. apply (hold_ok_same _ _ Hgs). by apply grown_hold. }
  rew_same Hsc. rewrite Fps, Fpe, Fsz, Fpp, Fb, Ffr, length_app. simpl.
  split_and!;
    [exact Cv|exact Cs|exact Cp|exact Hsc0|exact Hsc9|exact Hsc10|reflexivity
    |rewrite Hsc; lia|exact Hfr|exact Hok].
Qed.


(** ** Putting bytes into the tail lump *)

Lemma lump_index_addrs a b b' :
  addrs b' = addrs b → lump_index a b' = lump_index a b.
Proof.
  revert b'. induction b as [|l b IH]; intros [|l' b']; simpl; try done.
  intros [= Hl Hb]. rewrite Hl. case_bool_decide; [done|]. f_equal. by apply IH.
Qed.

(** [memcpy] of [bs] at PUT and [put_ptr += length bs]. *)
Lemma put_chunk_spec v bs :
  wf v → 0 < length bs → (put_ptr v).2 + length bs ≤ size v →
  ∃ b', lump_write (base v) (put_ptr v) bs = Some b'
        ∧ let v' := set_put_ptr (set_base v b')
                      (ptr_add (put_ptr v) (length bs)) in
          wf v' ∧ stored v' = stored v ++ bs
          ∧ visible v' = visible v
                         ++ (match p_end v with EndPut => bs | EndEnd => [] end)
          ∧ pending v' = (match p_end v with
                          | EndPut => []
                          | EndEnd => pending v ++ bs
                          end)
          ∧ length (base v') = length (base v)
          ∧ (hold_ok v → hold_ok v').
Proof.
  intros [Hm Hc Hs] Hlen Hroom.
  pose proof (wf_put_in v Hc) as Hpi.
  pose proof (wf_order v Hm Hc) as (Ho1 & Ho2 & Ho3).
  pose proof (wf_pos v Hm Hc) as (Hp1 & Hp2 & Hp3 & Hp4).
  pose proof (wf_eff_end v Hc) as He.
  destruct (put_ptr v) as [pa po] eqn:Hput. cbn [fst snd] in *.
  destruct (lump_write_spec (size v) (base v) pa po bs)
    as (b' & Hw & Ha & Hd & Hf); [by apply wf_mem_data_base|done|done|].
  exists b'. split; [done|].
  match goal with |- context [set_put_ptr ?a ?b] =>
    set (v' := set_put_ptr a b) end.
  assert (∀ a, ix v' a = ix v a) as Hix.
  { intros a. unfold ix. subst v'. psimpl. by apply lump_index_addrs. }
  assert (length b' = length (base v)) as Hlb.
  { pose proof (f_equal length Ha) as Hl'. unfold addrs in Hl'.
    by rewrite !length_fmap in Hl'. }
  assert (wf_mem v') as Hm'.
  { destruct Hm as [Mz Md Mn Ma Mo Mf]. unfold lumps in *.
    assert (addrs (b' ++ option_list (spare v))
            = addrs (base v ++ option_list (spare v))) as Haa.
    { unfold addrs in *. by rewrite !fmap_app, Ha. }
    apply Forall_app in Md as [Md1 Md2].
    constructor; subst v'; unfold lumps; psimpl; rewrite ?Haa; try done.
    apply Forall_app. done. }
  assert (put_pos v = ix v pa * size v + po) as HP.
  { unfold put_pos, pos. by rewrite Hput. }
  assert (flat (base v') = take (put_pos v) (flat (base v)) ++ bs
            ++ drop (put_pos v + length bs) (flat (base v))) as Hflat.
  { subst v'. psimpl. by rewrite HP. }
  assert (get_pos v' = get_pos v) as EG.
  { unfold get_pos, pos. rewrite Hix. done. }
  assert (put_pos v' = put_pos v + length bs) as EP.
  { unfold put_pos, pos. rewrite Hix. subst v'. psimpl. rewrite Hput. simpl. lia. }
  assert (end_pos v' = match p_end v with
                       | EndPut => put_pos v + length bs
                       | EndEnd => end_pos v
                       end) as EE.
  { unfold end_pos, pos, deref_end. rewrite Hix. subst v'. psimpl.
    pose proof (wf_end v Hc) as Hend.
    destruct (p_end v); simpl; [rewrite HP; lia|].
    destruct Hend as (e & -> & _). done. }
  split; [|split; [|split; [|split; [|split]]]].
  - constructor; [done| |].
    + drec Hc. constructor; unfold ipos, lex_le, eff_end, deref_end,
        lump_end_ptr in *; rewrite ?Hix; subst v'; psimpl;
        rewrite ?Hput in *; psimpl; try done.
      * by rewrite Ha.
      * by rewrite Ha.
      * by rewrite Ha.
      * destruct (p_end v); [done|].
        destruct wf_end as (e & ? & ? & ? & ?). exists e. psimpl.
        rewrite ?Hix. repeat split; try done. lia.
      * destruct (p_end v); simpl in *; [lia|].
        destruct wf_end as (e & Hq & ?). rewrite Hq in *. simpl in *. lia.
    + destruct Hs as [Hh Hem].
      constructor; unfold deref_start, ipos, lex_le, eff_end, deref_end in *;
        rewrite ?Hix; subst v'; psimpl; rewrite ?Hput in *; psimpl.
      * destruct (p_start v); [done|].
        destruct Hh as (h & ? & ? & ? & ? & ?). exists h. rewrite Ha, ?Hix.
        repeat split; try done. pose proof (wf_end v Hc) as Hend.
        destruct (p_end v); simpl in *; [lia|].
        destruct Hend as (e & Hq & ?). rewrite Hq in *. simpl in *. lia.
      * pose proof (wf_get_off v Hc) as Hgo. pose proof (wf_get_ptr v Hc) as Hgp.
        pose proof (wf_eff_end_put v Hc) as Hep.
        pose proof (wf_end v Hc) as Hend.
        unfold ipos, lex_le, eff_end, deref_end in *. rewrite Hput in *.
        psimpl.
        destruct (p_start v).
        -- intros [= Hg]. rewrite Hg in *. psimpl.
           destruct (p_end v); simpl in *; [lia|].
           destruct Hend as (e & Hq & ? & ? & ?). rewrite Hq in *.
           simpl in *. lia.
        -- destruct Hh as (h & -> & ? & ? & ? & Hl). intros [= ->]. psimpl.
           destruct (p_end v); simpl in *; [lia|].
           destruct Hend as (e & Hq & ? & Hl2 & ?). rewrite Hq in *.
           simpl in *. lia.
  - unfold stored. rewrite EG, EP. subst v'. psimpl. rewrite Hflat.
    apply slice_write_upto; lia.
  - unfold visible. rewrite EG, EE. subst v'. psimpl. rewrite Hflat.
    assert (p_end v = EndPut → end_pos v = put_pos v) as Hpe.
    { intros Hq. unfold end_pos, put_pos, deref_end. by rewrite Hq. }
    destruct (p_end v).
    + rewrite slice_write_upto by lia. by rewrite Hpe.
    + rewrite slice_write_before by lia. by rewrite app_nil_r.
  - unfold pending. rewrite EP, EE. subst v'. psimpl. rewrite Hflat.
    destruct (p_end v).
    + apply slice_nil. lia.
    + apply slice_write_upto; lia.
  - subst v'. psimpl. done.
  - assert (∀ p, ipos v' p = ipos v p) as Hip
      by (intros; unfold ipos; by rewrite Hix).
    unfold hold_ok. change (p_start v') with (p_start v).
    change (hold_ptr v') with (hold_ptr v). change (get_ptr v') with (get_ptr v).
    destruct (p_start v); [done|]. intros (h & ? & ?). exists h.
    by rewrite !Hip.
Qed.

(** ** [vio_fifo_put_bytes] *)

Lemma ptr_ge_put v :
  wf_cur v →
  ptr_ge (put_ptr v) (put_end v) = Some (bool_decide (size v ≤ (put_ptr v).2))
  ∧ ptr_sub (put_end v) (put_ptr v) = Some (size v - (put_ptr v).2).
Proof.
  intros Hc. rewrite (wf_put_end v Hc). unfold ptr_ge, ptr_sub, lump_end_ptr.
  simpl. pose proof (wf_put_off v Hc).
  rewrite (bool_decide_eq_true_2 ((put_ptr v).1 = (put_ptr v).1)) by done.
  by rewrite (bool_decide_eq_true_2 ((put_ptr v).2 ≤ size v)) by done.
Qed.

Lemma pending_no_mark v : p_end v = EndPut → pending v = [].
Proof.
  intros Hq. unfold pending, end_pos, put_pos, deref_end. rewrite Hq. simpl.
  by apply slice_nil.
Qed.

Lemma put_bytes_loop_spec fuel v src :
  wf v → length src ≤ fuel →
  ∃ v', put_bytes_loop fuel v src = Some v' ∧ wf v'
        ∧ stored v' = stored v ++ src
        ∧ visible v' = visible v
                       ++ (match p_end v with EndPut => src | EndEnd => [] end)
        ∧ pending v' = (match p_end v with
                        | EndPut => []
                        | EndEnd => pending v ++ src
                        end)
        ∧ p_start v' = p_start v ∧ p_end v' = p_end v ∧ size v' = size v
        ∧ (hold_ok v → hold_ok v').
Proof.
  revert v src. induction fuel as [|fuel IH]; intros v src Hwf Hlen.
  { destruct src; [|simpl in Hlen; lia]. simpl. exists v.
    rewrite !app_nil_r. pose proof (pending_no_mark v).
    destruct (p_end v); rewrite ?app_nil_r; split_and!; auto. }
  destruct src as [|c src].
  { simpl. exists v. rewrite !app_nil_r. pose proof (pending_no_mark v).
    destruct (p_end v); rewrite ?app_nil_r; split_and!; auto. }
  cbn [put_bytes_loop]. set (s := c :: src) in *.
  destruct (ptr_ge_put v (wf_cursors v Hwf)) as [-> _]. simpl.
  (* a lump with room in it *)
  assert (∃ v1, (if bool_decide (size v ≤ (put_ptr v).2)
                 then vio_fifo_add_lump v else Some v) = Some v1
                ∧ wf v1 ∧ (put_ptr v1).2 < size v1
                ∧ visible v1 = visible v ∧ stored v1 = stored v
                ∧ pending v1 = pending v
                ∧ p_start v1 = p_start v ∧ p_end v1 = p_end v
                ∧ size v1 = size v ∧ (hold_ok v → hold_ok v1))
    as (v1 & -> & Hwf1 & Hroom & Cv & Cs & Cp & Fs & Fe & Fz & Fh).
  { pose proof (wf_put_off v (wf_cursors v Hwf)).
    pose proof (wf_size v (wf_lumps v Hwf)).
    case_bool_decide.
    - destruct (add_lump_spec v Hwf)
        as (v1 & -> & ? & ? & ? & ? & ? & ? & Hz & Hp & _ & _ & ?); [lia|].
      exists v1. rewrite Hp, Hz. split_and!; try done; lia.
    - exists v. split_and!; try done; lia. }
  simpl. destruct (ptr_ge_put v1 (wf_cursors v1 Hwf1)) as [_ ->]. simpl.
  change (S (length src)) with (length s).
  set (room := size v1 - (put_ptr v1).2).
  set (k := if bool_decide (length s < room) then length s else room).
  assert (0 < k ∧ k ≤ length s ∧ k ≤ room) as (Hk0 & Hk1 & Hk2).
  { subst k room s. case_bool_decide; simpl in *; lia. }
  assert (length (take k s) = k) as Hlk by (rewrite length_take; lia).
  destruct (put_chunk_spec v1 (take k s) Hwf1) as (b' & -> & Hv2);
    [lia|subst room; lia|].
  rewrite Hlk in Hv2. simpl. simpl in Hv2.
  destruct Hv2 as (Hwf2 & Ds & Dv & Dp & _ & Dh).
  match goal with |- context [put_bytes_loop fuel ?x _] => set (v2 := x) in * end.
  destruct (IH v2 (drop k s) Hwf2)
    as (v' & -> & Hwf' & Es & Ev & Ep & Gs & Ge & Gz & Gh).
  { rewrite length_drop. subst s. simpl in *. lia. }
  exists v'. split; [done|]. split; [done|].
  assert (hold_ok v → hold_ok v') as Hok by auto.
  change (p_end v2) with (p_end v1) in *. change (p_start v2) with (p_start v1) in *.
  change (size v2) with (size v1) in *.
  rewrite Es, Ev, Ep, Ds, Dv, Dp, Cs, Cv, Cp, Gs, Ge, Gz, Fs, Fz, ?Fe.
  rewrite <- !(assoc (++)).
  destruct (p_end v); rewrite ?take_drop, ?app_nil_r; try done.
  by rewrite <- (assoc (++)), take_drop.
Qed.

Lemma put_bytes_spec v src :
  wf v →
  ∃ v', vio_fifo_put_bytes v src = Some v' ∧ wf v'
        ∧ stored v' = stored v ++ src
        ∧ visible v' = visible v
                       ++ (match p_end v with EndPut => src | EndEnd => [] end)
        ∧ pending v' = (match p_end v with
                        | EndPut => []
                        | EndEnd => pending v ++ src
                        end)
        ∧ p_start v' = p_start v ∧ p_end v' = p_end v ∧ size v' = size v
        ∧ (hold_ok v → hold_ok v').
Proof. intros. by apply put_bytes_loop_spec. Qed.


(** ** A new FIFO *)

Lemma lump_size_pos debug n : 0 < lump_size debug n.
Proof.
  unfold lump_size. destruct debug; [lia|].
  assert (∀ s, 0 < s → 0 < (s + 128 - 1) / 128 * 128) as H.
  { intros s Hs. assert (1 ≤ (s + 128 - 1) / 128); [|lia].
    apply Nat.div_le_lower_bound; lia. }
  case_bool_decide; apply H; [unfold VIO_FIFO_DEFAULT_LUMP_SIZE|]; lia.
Qed.

Lemma new_wf debug n : wf (vio_fifo_new debug n).
Proof.
  pose proof (lump_size_pos debug n) as Hz.
  unfold vio_fifo_new. set (sz := lump_size debug n) in *.
  constructor; constructor; unfold lumps, ix, ipos, lex_le, eff_end, deref_end,
    deref_start, lump_end_ptr, own_lump, fresh_data; cbn; try done; try lia.
  - repeat constructor. cbn. by rewrite length_replicate.
  - apply NoDup_singleton.
  - repeat constructor.
  - apply list_elem_of_here.
  - apply list_elem_of_here.
  - apply list_elem_of_here.
Qed.

Lemma new_contents debug n :
  visible (vio_fifo_new debug n) = [] ∧ stored (vio_fifo_new debug n) = []
  ∧ p_start (vio_fifo_new debug n) = StartGet
  ∧ p_end (vio_fifo_new debug n) = EndPut
  ∧ size (vio_fifo_new debug n) = lump_size debug n.
Proof.
  split_and!; try done; by apply slice_nil.
Qed.

(** ** Round trip *)

Lemma put_all_spec v bss :
  wf v →
  ∃ v', put_all v bss = Some v' ∧ wf v'
        ∧ stored v' = stored v ++ concat bss
        ∧ visible v' = visible v
            ++ (match p_end v with EndPut => concat bss | EndEnd => [] end)
        ∧ p_start v' = p_start v ∧ p_end v' = p_end v ∧ size v' = size v.
Proof.
  revert v. induction bss as [|bs bss IH]; intros v Hwf; simpl.
  { exists v. rewrite !app_nil_r. by destruct (p_end v); rewrite ?app_nil_r. }
  destruct (put_bytes_spec v bs Hwf) as (v1 & -> & Hwf1 & S1 & V1 & _ & F1 & F2 & F3 & _).
  simpl. destruct (IH v1 Hwf1) as (v' & -> & Hwf' & S2 & V2 & G1 & G2 & G3).
  exists v'. rewrite S2, V2, S1, V1, G1, G2, G3, F1, F2, F3.
  rewrite <- !(assoc (++)). by destruct (p_end v).
Qed.

Lemma concat_chunks ns l : concat (chunks ns l) = take (sum_list ns) l.
Proof.
  revert l. induction ns as [|n ns IH]; intros l; simpl; [done|].
  by rewrite IH, take_take_drop.
Qed.

Lemma get_all_spec v ns :
  wf v →
  ∃ v', get_all v ns = Some (v', chunks ns (visible v)) ∧ wf v'
        ∧ visible v' = drop (sum_list ns) (visible v)
        ∧ pending v' = pending v
        ∧ p_start v' = p_start v ∧ p_end v' = p_end v ∧ size v' = size v.
Proof.
  revert v. induction ns as [|n ns IH]; intros v Hwf; simpl.
  { by exists v. }
  destruct (get_bytes_spec v n Hwf) as (v1 & -> & Hwf1 & V1 & _ & P1 & F1 & F2 & F3).
  simpl. destruct (IH v1 Hwf1) as (v' & -> & Hwf' & V2 & P2 & G1 & G2 & G3).
  simpl. exists v'. rewrite V1, V2, V1, drop_drop, P2, P1, G1, G2, G3, F1, F2, F3.
  done.
Qed.


(** Read [ix] through updates that leave the list alone. *)
Ltac reix v :=
  repeat match goal with
         | |- context [ix ?w ?c] =>
             lazymatch w with
             | v => fail
             | _ => change (ix w c) with (ix v c)
             end
         end.

(** ** End mark: set, step, clear *)

Lemma ddl_tail_put v :
  wf_cur v → ∃ t, ddl_tail (base v) = Some t ∧ lump_addr t = (put_ptr v).1.
Proof.
  intros Hc. pose proof (wf_put_ptr v Hc) as Hl. unfold addrs in Hl.
  rewrite fmap_last in Hl. unfold ddl_tail.
  destruct (last (base v)) as [t|]; [|done]. exists t. split; [done|].
  by injection Hl.
Qed.

Lemma end_at_put_spec v pe ep :
  wf v → (pe = EndEnd → ep = Some (put_ptr v)) →
  wf (end_at_put v pe ep)
  ∧ visible (end_at_put v pe ep) = stored v
  ∧ stored (end_at_put v pe ep) = stored v
  ∧ pending (end_at_put v pe ep) = [].
Proof.
  intros [Hm Hc Hs] Hep.
  pose proof (wf_eff_end v Hc) as He.
  pose proof (wf_eff_end_put v Hc) as Hepp.
  pose proof (wf_eff_end_off v Hc) as Heo.
  pose proof (wf_order v Hm Hc) as (Ho1 & Ho2 & Ho3).
  pose proof (wf_put_in v Hc) as Hpi.
  assert (eff_end (end_at_put v pe ep) = put_ptr v) as Hee.
  { unfold eff_end, deref_end, end_at_put. psimpl.
    destruct pe; [done|]. by rewrite Hep. }
  split; [|split; [|split]].
  - constructor; [by apply (wf_mem_same v)| |].
    + pose proof (wf_get_off v Hc) as Hgo. pose proof (wf_get_in v Hc) as Hgn.
      pose proof (wf_end v Hc) as Hend.
      drec Hc. constructor; rewrite ?Hee; unfold end_at_put, ipos, lex_le in *;
        psimpl; try done.
      * destruct pe; [done|]. exists (put_ptr v). rewrite Hep by done.
        split_and!; try done. lia.
      * reix v. rewrite He in *. rewrite wf_get_ptr in *. lia.
      * intros Hq. destruct (decide (get_lump v = end_lump v)) as [Hl|Hl];
          [|by apply Hgn].
        (* GET is in the old end lump, which is not the tail: a mark was
           set there, short of the lump's end *)
        unfold eff_end, deref_end in *. destruct (p_end v); [congruence|].
        destruct Hend as (e & Hq1 & Hq2 & Hq3 & Hq4). rewrite Hq1 in *.
        psimpl. simpl in *.
        assert (e.2 < size v) by (apply Hq4; congruence).
        rewrite wf_get_ptr, Hq2, Hl in *. lia.
    + destruct Hs as [Hh Hem]. constructor.
      * change (p_start (end_at_put v pe ep)) with (p_start v).
        destruct (p_start v); [done|].
        destruct Hh as (h & ? & ? & ? & ? & Hl). exists h. rewrite Hee.
        split_and!; try done. unfold ipos, lex_le in *. simpl in *.
        reix v. lia.
      * done.
  - unfold visible, stored, end_pos. fold (eff_end (end_at_put v pe ep)).
    rewrite Hee. done.
  - done.
  - unfold pending, end_pos. fold (eff_end (end_at_put v pe ep)).
    rewrite Hee. by apply slice_nil.
Qed.

Lemma set_end_mark_spec v :
  wf v →
  ∃ v', vio_fifo_set_end_mark v = Some v' ∧ wf v'
        ∧ visible v' = stored v ∧ stored v' = stored v ∧ pending v' = []
        ∧ p_start v' = p_start v ∧ p_end v' = EndEnd ∧ size v' = size v.
Proof.
  intros Hwf. destruct (ddl_tail_put v (wf_cursors v Hwf)) as (t & Ht & Ha).
  unfold vio_fifo_set_end_mark. psimpl. rewrite Ht. simpl. rewrite Ha.
  eexists. split; [done|].
  destruct (end_at_put_spec v EndEnd (Some (put_ptr v)) Hwf) as (? & ? & ? & ?);
    done.
Qed.

Lemma clear_end_mark_spec v :
  wf v →
  ∃ v', vio_fifo_clear_end_mark v = Some v' ∧ wf v'
        ∧ visible v' = stored v ∧ stored v' = stored v ∧ pending v' = []
        ∧ p_start v' = p_start v ∧ p_end v' = EndPut ∧ size v' = size v.
Proof.
  intros Hwf. destruct (ddl_tail_put v (wf_cursors v Hwf)) as (t & Ht & Ha).
  unfold vio_fifo_clear_end_mark. psimpl. rewrite Ht. simpl. rewrite Ha.
  eexists. split; [done|].
  destruct (end_at_put_spec v EndPut (end_ptr v) Hwf) as (? & ? & ? & ?); done.
Qed.

Lemma wf_same v v' :
  same_cursors v v' → spare v' = spare v → allocated v' = allocated v →
  freed v' = freed v → wf v → wf v'.
Proof.
  intros Hs ? ? ? [Hm Hc Ht]. constructor.
  - apply (wf_mem_same v); try done; by drec Hs.
  - by apply (wf_cur_same v).
  - by apply (wf_start_same v).
Qed.

Lemma step_end_mark_spec v :
  wf v →
  ∃ v', vio_fifo_step_end_mark v = Some v' ∧ wf v'
        ∧ visible v' = (match p_end v with
                        | EndPut => visible v | EndEnd => stored v end)
        ∧ stored v' = stored v
        ∧ pending v' = (match p_end v with
                        | EndPut => pending v | EndEnd => [] end)
        ∧ p_start v' = p_start v ∧ p_end v' = p_end v ∧ size v' = size v.
Proof.
  intros Hwf. destruct (ddl_tail_put v (wf_cursors v Hwf)) as (t & Ht & Ha).
  unfold vio_fifo_step_end_mark, vio_fifo_have_end_mark.
  destruct (p_end v) eqn:Hpe; simpl.
  - exists v. by rewrite Hpe.
  - psimpl. rewrite Ht. simpl. rewrite Ha. eexists. split; [done|].
    destruct (end_at_put_spec v EndEnd (Some (put_ptr v)) Hwf) as (Hw & ? & ? & ?);
      [done|].
    match goal with |- wf ?w ∧ _ =>
      assert (same_cursors (end_at_put v EndEnd (Some (put_ptr v))) w) as Hsc
    end.
    { unfold end_at_put. constructor; psimpl; by rewrite ?Hpe. }
    destruct (contents_same _ _ Hsc) as (-> & -> & -> & _).
    split; [by apply (wf_same _ _ Hsc)|]. psimpl. done.
Qed.


(** ** Cropping lumps at the tail *)

Lemma wf_mem_crop v b l :
  wf_mem v → base v = b ++ [l] → wf_mem (set_base v (l :: b)).
Proof.
  intros [Mz Md Mn Ma Mo Mf] Hb. unfold lumps in *. rewrite Hb in *.
  assert ((l :: b) ++ option_list (spare v)
          ≡ₚ (b ++ [l]) ++ option_list (spare v)) as Hp.
  { apply Permutation_app_tail. apply Permutation_cons_append. }
  constructor; unfold lumps; psimpl; try done.
  - by rewrite Hp.
  - unfold addrs. by rewrite Hp.
  - unfold addrs. by rewrite Hp.
  - unfold addrs. by rewrite Hp.
Qed.

Lemma crop_loop_spec n v :
  wf_mem v → end_lump v ∈ addrs (base v) → get_lump v ∈ addrs (base v) →
  ix v (get_lump v) ≤ ix v (end_lump v) →
  length (base v) = S (ix v (end_lump v)) + S n →
  ∀ fuel, S n ≤ fuel →
  ∃ v', crop_loop fuel v = Some v' ∧ wf_mem v'
        ∧ base v' = take (S (ix v (end_lump v))) (base v)
        ∧ same_cursors (set_base v (base v')) v'.
Proof.
  revert v. induction n as [|n IH]; intros v Hm He Hg Hge Hlen fuel Hfuel;
    (destruct fuel as [|fuel]; [lia|]); cbn [crop_loop]; unfold ddl_crop.
  all: destruct (base v) as [|x b0] eqn:Hb using rev_ind; [simpl in Hlen; lia|].
  all: clear IHb0; rename b0 into b; rename x into l.
  all: rewrite last_snoc, removelast_last.
  all: rewrite length_app in Hlen; simpl in Hlen.
  all: pose proof (wf_mem_nodup_base v Hm) as Hnd; rewrite Hb in Hnd.
  all: assert (lump_addr l ∉ addrs b) as Hl
         by (unfold addrs in Hnd; rewrite fmap_app in Hnd;
             apply NoDup_app in Hnd as (_ & Hd & _); intros Hin;
             apply (Hd _ Hin), list_elem_of_here).
  all: assert (∀ a, a ∈ addrs (b ++ [l]) → lump_index a (b ++ [l]) < length b →
                    a ∈ addrs b ∧ lump_index a b = lump_index a (b ++ [l])
                    ∧ a ≠ lump_addr l) as Hsplit
         by (intros a Ha Hlt; unfold addrs in Ha; rewrite fmap_app in Ha;
             apply elem_of_app in Ha as [Ha|Ha];
             [split; [done|]; split; [by rewrite lump_index_app_l|];
              by intros ->
             |apply list_elem_of_singleton in Ha; subst a;
              rewrite lump_index_app_r in Hlt by done; lia]).
  all: unfold ix in *; rewrite Hb in *.
  all: destruct (Hsplit _ He) as (He1 & He2 & He3); [lia|].
  all: destruct (Hsplit _ Hg) as (Hg1 & Hg2 & Hg3); [lia|].
  all: destruct (release_lump_spec (set_base v b) l) as (v1 & -> & Hm1 & Hs1);
         [psimpl; by apply (wf_mem_crop v b l) | psimpl; congruence..|].
  all: pose proof Hs1 as Hs1'; rew_same Hs1'; psimpl.
  all: cbn [mbind option_bind]; rewrite Hsc5, Hsc.
  - (* the end lump is the tail now *)
    rewrite bool_decide_eq_true_2.
    2:{ unfold ddl_tail, addr_of. rewrite <- fmap_last. fold (addrs b).
        symmetry. f_equal. apply lump_index_last_2; [done|lia]. }
    simpl. exists v1. split; [done|]. split; [done|].
    rewrite Hsc. split; [|done].
    rewrite take_app_length'; [done|lia].
  - (* more lumps after the end lump *)
    rewrite bool_decide_eq_false_2.
    2:{ unfold ddl_tail, addr_of. rewrite <- fmap_last. fold (addrs b).
        intros Hq. symmetry in Hq. apply lump_index_last in Hq; [lia|].
        unfold addrs in *. rewrite fmap_app in Hnd.
        by apply NoDup_app in Hnd as (? & _). }
    simpl. destruct (IH v1) with (fuel := fuel) as (v' & -> & Hm' & Hb' & Hs');
      unfold ix; rewrite ?Hsc, ?Hsc5, ?Hsc2; try done; try lia.
    exists v'. split; [done|]. split; [done|].
    rewrite Hsc, Hsc5 in Hb'. split.
    + rewrite Hb', <- He2. rewrite take_app_le; [done|lia].
    + rew_same Hs'. psimpl. constructor; psimpl; congruence.
Qed.

Lemma release_lump_released v l v' :
  vio_fifo_release_lump v (Some l) = Some v' →
  base v' = base v
  ∧ ∀ a, a = lump_addr l ∨ a ∈ released v → a ∈ released v'.
Proof.
  intros Hr. unfold vio_fifo_release_lump in Hr.
  cbn [mbind option_bind] in Hr.
  destruct (bool_decide (lump_addr l = get_lump v)); [done|].
  destruct (bool_decide (lump_addr l = end_lump v)); [done|].
  cbn [assert negb mbind option_bind] in Hr. unfold released.
  destruct (spare v) as [sp|] eqn:Hsp;
    [destruct (bool_decide (lump_addr l = own_lump))|];
    injection Hr as <-; (split; [done|]); intros a;
    cbn [spare freed set_spare set_freed]; rewrite ?Hsp; unfold addrs;
    simpl; rewrite ?elem_of_app, ?elem_of_cons, ?elem_of_nil; tauto.
Qed.

Lemma crop_loop_released fuel v v' :
  crop_loop fuel v = Some v' →
  ∀ a, a ∈ released v ∨ (a ∈ addrs (base v) ∧ a ∉ addrs (base v')) →
       a ∈ released v'.
Proof.
  revert v. induction fuel as [|fuel IH]; intros v; [done|].
  cbn [crop_loop]. unfold ddl_crop.
  destruct (base v) as [|l b _] eqn:Hb using rev_ind.
  { cbn. unfold vio_fifo_release_lump. by cbn. }
  rewrite last_snoc, removelast_last.
  destruct (vio_fifo_release_lump (set_base v b) (Some l)) as [v1|] eqn:Hr;
    [|done].
  cbn [mbind option_bind].
  destruct (release_lump_released _ _ _ Hr) as [Hb1 Hrel].
  cbn [base set_base] in Hb1.
  assert (∀ a, a ∈ addrs (b ++ [l]) → a ∈ addrs b ∨ a = lump_addr l) as Hin.
  { intros a. unfold addrs. rewrite fmap_app, elem_of_app. cbn.
    rewrite list_elem_of_singleton. tauto. }
  destruct (negb _).
  - intros Hc a [Ha|[Ha Hn]].
    + apply (IH _ Hc). left. apply Hrel. by right.
    + apply (IH _ Hc). destruct (Hin _ Ha) as [?| ->].
      * right. by rewrite Hb1.
      * left. apply Hrel. by left.
  - intros [= <-] a [Ha|[Ha Hn]].
    + apply Hrel. by right.
    + destruct (Hin _ Ha) as [?| ->]; [by rewrite Hb1 in Hn|].
      apply Hrel. by left.
Qed.

(** ** Back to the end mark *)

(** The state [u] that has PUT moved back to the end mark [e] and the list
    cut after the end lump. *)
Lemma rollback_spec v u e :
  wf v → p_end v = EndEnd → end_ptr v = Some e →
  base u = take (S (ix v (end_lump v))) (base v) → wf_mem u →
  same_cursors
    (set_put_ptr (set_put_end (set_base v (base u))
                               (lump_end_ptr v (end_lump v))) e) u →
  deref_start v ≠ Some e →
  wf u ∧ visible u = visible v ∧ stored u = visible v ∧ pending u = []
  ∧ whole_lumps u = whole_lumps v ∧ (hold_ok v → hold_ok u).
Proof.
  intros [Hm Hc Hs] Hpe Hep Hb Hmu Hsame Hne.
  pose proof (wf_eff_end v Hc) as He.
  pose proof (wf_eff_end_off v Hc) as Heo.
  pose proof (wf_order v Hm Hc) as (Ho1 & Ho2 & Ho3).
  pose proof (wf_pos v Hm Hc) as (Hp1 & Hp2 & Hp3 & Hp4).
  pose proof (wf_get_off v Hc) as Hgo.
  assert (eff_end v = e) as Hee
    by (unfold eff_end, deref_end; rewrite Hpe, Hep; done).
  rewrite Hee in *.
  assert (∀ a, a ∈ addrs (base v) → ix v a ≤ ix v (end_lump v) →
               a ∈ addrs (base u) ∧ ix u a = ix v a) as Hix.
  { intros a Ha Hle. unfold ix in *. rewrite Hb. split.
    - apply lump_index_take_elem; [done|lia].
    - apply lump_index_take. lia. }
  destruct (Hix _ (wf_get_lump v Hc) Ho1) as [Hg1 Hg2].
  destruct (Hix _ (wf_end_lump v Hc) ltac:(lia)) as [He1 He2].
  assert (length (base u) = S (ix v (end_lump v))) as Hlen
    by (rewrite Hb, length_take; lia).
  assert (flat (base u) = take (S (ix v (end_lump v)) * size v) (flat (base v)))
    as Hflat.
  { rewrite Hb. apply flat_take. by apply wf_mem_data_base. }
  destruct Hsame as [Sb Sps Shp Sgl Sgp Sge Sel Sep Spp Spe Sd Ssz]. psimpl.
  assert (eff_end u = e) as Heu
    by (unfold eff_end, deref_end; rewrite Sd, Sep, Hpe, Hep; done).
  assert (get_pos u = get_pos v) as Hgp
    by (unfold get_pos, pos; rewrite Sgp, Ssz, (wf_get_ptr v Hc), Hg2; done).
  assert (end_pos u = end_pos v) as Hepos.
  { unfold end_pos. fold (eff_end u) (eff_end v). rewrite Heu, Hee.
    unfold pos. by rewrite Ssz, He, He2. }
  assert (put_pos u = end_pos v) as Hpp.
  { unfold put_pos, end_pos. fold (eff_end v). rewrite Hee, Spp.
    unfold pos. by rewrite Ssz, He, He2. }
  assert (end_pos v ≤ S (ix v (end_lump v)) * size v) as Hbound.
  { unfold end_pos. fold (eff_end v). rewrite Hee. unfold pos.
    rewrite He. lia. }
  split_and!.
  - constructor; [done| |].
    + pose proof (wf_get_in v Hc) as Hgn. pose proof (wf_get_end v Hc) as Hge.
      pose proof (wf_get_ptr v Hc) as Hgq.
      constructor; rewrite ?Heu; unfold ipos, lex_le, lump_end_ptr in *;
        rewrite ?Sgl, ?Sgp, ?Sge, ?Sel, ?Sep, ?Spp, ?Spe, ?Sd, ?Ssz;
        psimpl; try done.
      * rewrite He. apply lump_index_last_2; [done|].
        fold (ix u (end_lump v)). lia.
      * by rewrite He.
      * rewrite Hpe. exists e. rewrite Hep. split_and!; try done. lia.
      * rewrite Hgq, He, Hg2, He2 in *. lia.
    + destruct Hs as [Hh Hem]. constructor.
      * rewrite Sps, Sgl. destruct (p_start v); [lia|].
        destruct Hh as (h & Hq & Hh0 & Hh1 & Hh2 & Hl). exists h.
        destruct (Hix _ Hh1 ltac:(lia)) as [Hh3 Hh4].
        rewrite Shp, Ssz, Heu. split_and!; try done; try lia.
        rewrite Hee in Hl. unfold ipos, lex_le in *. psimpl. rewrite He, Hh4, He2 in *. lia.
      * intros Hd. exfalso. apply Hne. unfold deref_start in *.
        rewrite Sps, Shp, Sgp, Spp in Hd. done.
  - unfold visible. rewrite Hgp, Hepos, Hflat. by apply slice_take_l.
  - unfold stored, visible. rewrite Hgp, Hpp, Hflat. by apply slice_take_l.
  - unfold pending. rewrite Hepos, Hpp. by apply slice_nil.
  - unfold whole_lumps. rewrite Hgp, Sel, Ssz, He2, Hflat.
    apply slice_take_l. lia.
  - unfold hold_ok. rewrite Sps, Shp, Sgp. destruct (p_start v) eqn:Hps; [done|].
    intros (h & Hq & Hl). exists h. split; [done|].
    destruct Hs as [Hh _]. rewrite Hps in Hh.
    destruct Hh as (h' & Hq' & Hh0 & Hh1 & Hh2 & _).
    assert (h' = h) as -> by congruence.
    destruct (Hix _ Hh1 ltac:(lia)) as [Hh3 Hh4].
    unfold ipos, lex_le in *. psimpl.
    rewrite (wf_get_ptr v Hc), Hh4, Hg2 in *. done.
Qed.

(** Dropping an end mark that sits at PUT. *)
Lemma unmark_spec w :
  wf w → eff_end w = put_ptr w →
  wf (vio_fifo_set_get_end (set_p_end w EndPut))
  ∧ visible (vio_fifo_set_get_end (set_p_end w EndPut)) = visible w
  ∧ stored (vio_fifo_set_get_end (set_p_end w EndPut)) = stored w
  ∧ pending (vio_fifo_set_get_end (set_p_end w EndPut)) = []
  ∧ (hold_ok w → hold_ok (vio_fifo_set_get_end (set_p_end w EndPut))).
Proof.
  intros Hwf Hee. pose proof (wf_eff_end w (wf_cursors w Hwf)) as He.
  rewrite Hee in He.
  assert (same_cursors (end_at_put w EndPut (end_ptr w))
            (vio_fifo_set_get_end (set_p_end w EndPut))) as Hs.
  { unfold end_at_put. constructor; psimpl; try done. by rewrite He. }
  destruct (end_at_put_spec w EndPut (end_ptr w) Hwf ltac:(done))
    as (Hwf' & Hv & Hst & Hp).
  destruct (contents_same _ _ Hs) as (Cv & Cs & Cp & _).
  assert (visible w = stored w) as Hvs.
  { unfold visible, stored, end_pos, put_pos. fold (eff_end w). by rewrite Hee. }
  split_and!.
  - eapply wf_same; [exact Hs|done..].
  - by rewrite Cv, Hv.
  - by rewrite Cs, Hst.
  - by rewrite Cp, Hp.
  - unfold hold_ok, ipos, ix. by psimpl.
Qed.

Lemma back_crop_spec v :
  wf v →
  ∃ u,
    (if negb (bool_decide (Some (end_lump v) = addr_of (ddl_tail (base v))))
     then v0 ← crop_loop (S (length (base v))) v;
          Some (set_put_end v0 (lump_end_ptr v0 (end_lump v0)))
     else Some v) = Some u
    ∧ wf_mem u ∧ base u = take (S (ix v (end_lump v))) (base v)
    ∧ same_cursors (set_put_end (set_base v (base u))
                                (lump_end_ptr v (end_lump v))) u
    ∧ (∀ a, a ∈ addrs (base v) → a ∉ addrs (base u) → a ∈ released u).
Proof.
  intros [Hm Hc Hs].
  destruct (ddl_tail_put v Hc) as (t & Ht & Ha).
  pose proof (wf_order v Hm Hc) as (Ho1 & Ho2 & Ho3).
  rewrite Ht. cbn [addr_of fmap option_fmap option_map]. rewrite Ha.
  bdc (Some (end_lump v) = Some (put_ptr v).1) Hq; cbn [negb].
  - injection Hq as Hq. exists v. split; [done|]. split; [done|].
    rewrite Hq. split_and!.
    + rewrite take_ge; [done|lia].
    + constructor; psimpl; try done. by rewrite (wf_put_end v Hc).
    + done.
  - assert (ix v (end_lump v) ≠ ix v (put_ptr v).1) as Hne.
    { intros Hi. apply Hq. f_equal.
      apply (lump_index_inj _ _ (base v)); [by apply wf_end_lump|done]. }
    destruct (crop_loop_spec (length (base v) - ix v (end_lump v) - 2) v)
      with (fuel := S (length (base v))) as (u & Hcrop & Hmu & Hb & Hsame);
      [done|by apply wf_end_lump|by apply wf_get_lump|done|lia|lia|].
    rewrite Hcrop. cbn [mbind option_bind]. eexists. split; [done|].
    pose proof Hsame as Hsame'.
    destruct Hsame' as [Sb Sps Shp Sgl Sgp Sge Sel Sep Spp Spe Sd Ssz]. psimpl.
    split_and!.
    + apply (wf_mem_same u); done.
    + done.
    + unfold lump_end_ptr. rewrite Sel, Ssz.
      constructor; psimpl; done.
    + intros a Ha1 Ha2. apply (crop_loop_released _ _ _ Hcrop). by right.
Qed.

Lemma eff_end_at_put v :
  eff_end v = put_ptr v → pending v = [] ∧ stored v = visible v.
Proof.
  intros He. unfold pending, stored, visible, end_pos. fold (eff_end v).
  rewrite He. split; [by apply slice_nil|done].
Qed.

(** The first half of the operation: the data after the end mark is
    discarded. *)
Lemma back_to_end_spec v :
  wf v →
  ∃ w,
    (if negb (optr_eqb (deref_end v) (Some (put_ptr v))) then
       v0 ← (if negb (bool_decide (Some (end_lump v) = addr_of (ddl_tail (base v))))
             then v0 ← crop_loop (S (length (base v))) v;
                  Some (set_put_end v0 (lump_end_ptr v0 (end_lump v0)))
             else Some v);
       if optr_eqb (deref_start v0) (end_ptr v0)
       then vio_fifo_reset_ptrs v0
       else e ← end_ptr v0; Some (set_put_ptr v0 e)
     else Some v) = Some w
    ∧ wf w ∧ eff_end w = put_ptr w
    ∧ p_start w = p_start v ∧ p_end w = p_end v ∧ size w = size v
    ∧ base w = take (S (ix v (end_lump v))) (base v)
    ∧ (∀ a, a ∈ addrs (base v) → a ∉ addrs (base w) → a ∈ released w)
    ∧ (hold_ok v → hold_ok w ∧ visible w = visible v).
Proof.
  intros Hwf. pose proof Hwf as [Hm Hc Hs].
  pose proof (wf_eff_end v Hc) as He.
  pose proof (wf_order v Hm Hc) as (Ho1 & Ho2 & Ho3).
  unfold optr_eqb.
  bdc (deref_end v = Some (put_ptr v)) Hq; cbn [negb].
  { assert (eff_end v = put_ptr v) as Hee by (unfold eff_end; by rewrite Hq).
    exists v. split_and!; try done.
    rewrite Hee in He. rewrite <- He. rewrite take_ge; [done|lia]. }
  pose proof (wf_end v Hc) as Hend.
  destruct (p_end v) eqn:Hpe; [by unfold deref_end in Hq; rewrite Hpe in Hq|].
  destruct Hend as (e & Hep & He1 & He2 & He3).
  assert (eff_end v = e) as Hee
    by (unfold eff_end, deref_end; rewrite Hpe, Hep; done).
  destruct (back_crop_spec v Hwf) as (u & -> & Hmu & Hb & Hsame & Hrel).
  cbn [mbind option_bind].
  pose proof Hsame as Hsame'.
  destruct Hsame' as [Sb Sps Shp Sgl Sgp Sge Sel Sep Spp Spe Sd Ssz]. psimpl.
  assert (deref_start u = deref_start v) as Hds
    by (unfold deref_start; by rewrite Sps, Shp, Sgp).
  rewrite Hds, Sep, Hep.
  bdc (deref_start v = Some e) Hst.
  - (* the end mark is at the start of the data: all is discarded *)
    assert (ix v (end_lump v) = 0 ∧ get_lump v = end_lump v) as [Hi0 Hge].
    { pose proof (wf_hold v Hs) as Hh. unfold deref_start in Hst.
      assert (ix v (end_lump v) = 0) as Hi.
      { destruct (p_start v).
        - injection Hst as Hst. rewrite <- He1, <- Hst, (wf_get_ptr v Hc). done.
        - destruct Hh as (h & Hq1 & Hq2 & _). rewrite <- He1.
          assert (h = e) as <- by congruence. done. }
      split; [done|].
      apply (lump_index_inj _ _ (base v)); [by apply wf_get_lump|].
      fold (ix v (get_lump v)) (ix v (end_lump v)). lia. }
    pose proof (lump_index_head _ _ (wf_end_lump v Hc) Hi0) as Hhd.
    destruct (base v) as [|t b] eqn:Hbv; [done|]. injection Hhd as Hhd.
    rewrite Hi0 in Hb. cbn [take] in Hb. rewrite take_0 in Hb.
    destruct (reset_ptrs_spec u t) as (w & -> & Hwfw & Hw); try done;
      try congruence.
    { rewrite Spe. unfold lump_end_ptr. by rewrite Ssz, Hhd. }
    { rewrite Sge, Sd, (wf_get_end v Hc), Hge.
      by rewrite bool_decide_eq_true_2. }
    exists w. split; [done|]. split; [done|].
    assert (eff_end w = put_ptr w) as Heq.
    { rewrite Hw. unfold eff_end, deref_end. psimpl. rewrite Sd, Hpe. done. }
    split_and!; try done; try (rewrite Hw; psimpl; congruence).
    { rewrite Hw. psimpl. rewrite Hi0. cbn [take]. by rewrite take_0. }
    { rewrite Hw. exact Hrel. }
    intros Hok. split.
    + unfold hold_ok. rewrite Hw. psimpl. destruct (p_start u); [done|].
      eexists. split; [done|]. apply lex_le_refl.
    + assert (visible w = []) as ->.
      { unfold visible, end_pos. fold (eff_end w). rewrite Heq.
        apply slice_nil. rewrite Hw. unfold put_pos, get_pos. by psimpl. }
      symmetry. apply slice_nil. unfold end_pos. fold (eff_end v).
      rewrite Hee. unfold get_pos.
      pose proof (wf_get_off v Hc) as Hgo. rewrite Hee in Hgo.
      unfold hold_ok, deref_start in *. destruct (p_start v).
      * injection Hst as ->. done.
      * destruct Hok as (h & Hq1 & Hq2). assert (h = e) as -> by congruence.
        unfold pos, ipos, lex_le in *. psimpl.
        assert (ix v (get_ptr v).1 = ix v e.1 ∧ (get_ptr v).2 = e.2) as [-> ->]
          by lia. done.
  - (* PUT goes back to the end mark *)
    cbn [mbind option_bind].
    destruct (rollback_spec v (set_put_ptr u e) e) as (Hw & Cv & Cs & Cp & _ & Hh);
      try done.
    { by apply (wf_mem_same u). }
    exists (set_put_ptr u e). split; [done|]. split; [done|]. split_and!;
      psimpl; try done; try congruence.
    + unfold eff_end, deref_end. psimpl. by rewrite Sd, Hpe, Sep, Hep.
    + intros Hok. split; [by apply Hh|done].
Qed.

Lemma back_to_end_mark_spec v keep :
  wf v →
  ∃ v', vio_fifo_back_to_end_mark v keep = Some v' ∧ wf v'
        ∧ pending v' = [] ∧ stored v' = visible v'
        ∧ p_start v' = p_start v ∧ size v' = size v
        ∧ p_end v' = (if keep then p_end v else EndPut)
        ∧ base v' = take (S (ix v (end_lump v))) (base v)
        ∧ (∀ a, a ∈ addrs (base v) → a ∉ addrs (base v') → a ∈ released v')
        ∧ (hold_ok v → hold_ok v' ∧ visible v' = visible v).
Proof.
  intros Hwf. unfold vio_fifo_back_to_end_mark.
  destruct (back_to_end_spec v Hwf)
    as (w & -> & Hw & He & Hps & Hpe & Hsz & Hb & Hrel & Hh).
  cbn [mbind option_bind]. destruct (eff_end_at_put w He) as [Hp Hsv].
  destruct keep; cbn [negb].
  - exists w. split_and!; done.
  - destruct (unmark_spec w Hw He) as (Hw' & Cv & Cs & Cp & Ch).
    eexists. split; [done|]. split_and!; try done.
    intros Hok. destruct (Hh Hok) as [H1 H2]. split; [by apply Ch|].
      by rewrite Cv.
Qed.


(** ** Hold mark: set and clear *)

(** [vio_fifo_release_upto (vff, vff->get_lump)]: the lumps before the one
    GET is in go, whatever the hold mark. *)
Lemma release_upto_get v :
  wf v →
  ∃ u, vio_fifo_release_upto v (get_lump v) = Some u
       ∧ wf_mem u ∧ wf_cur u ∧ ix u (get_lump u) = 0
       ∧ base u = drop (ix v (get_lump v)) (base v)
       ∧ same_cursors (set_base v (base u)) u
       ∧ visible u = visible v ∧ stored u = stored v
       ∧ pending u = pending v ∧ whole_lumps u = whole_lumps v.
Proof.
  intros [Hm Hc Hs].
  pose proof (wf_order v Hm Hc) as (Ho1 & Ho2 & Ho3).
  pose proof (wf_mem_nodup_base v Hm) as Hnd.
  unfold vio_fifo_release_upto.
  assert (∀ a, a ∈ addrs (take (lump_index (get_lump v) (base v)) (base v)) →
               a ≠ get_lump v ∧ a ≠ end_lump v) as Hpre.
  { intros a Ha. apply take_elem_index in Ha; [|done].
    unfold ix in *. split; intros ->; lia. }
  destruct (release_upto_loop_spec (base v) v (get_lump v) eq_refl Hm
              (wf_get_lump v Hc) Hpre) as (u & Hr & Hmu & Hb & Hsame).
  fold (ix v (get_lump v)) in Hb.
  destruct (wf_cur_drop v u _ Hm Hc Hb Hsame ltac:(done)) as [Hcu Hix].
  destruct (contents_drop v u _ Hm Hc Hb Hsame ltac:(done)) as (C1 & C2 & C3 & C4).
  exists u. split_and!; try done.
  destruct (Hix _ (wf_get_lump v Hc) ltac:(done)) as [_ Hi].
  destruct Hsame as [_ _ _ Sgl _ _ _ _ _ _ _ _]. psimpl. rewrite Sgl, Hi. lia.
Qed.

Lemma wf_cur_p_start v ps : wf_cur v → wf_cur (set_p_start v ps).
Proof. intros Hrec; drec Hrec. by constructor. Qed.

Lemma wf_cur_hold_ptr v h : wf_cur v → wf_cur (set_hold_ptr v h).
Proof. intros Hrec; drec Hrec. by constructor. Qed.

(** Contents of a FIFO whose GET is at PUT. *)
Lemma contents_get_at_put v :
  wf_mem v → wf_cur v → get_ptr v = put_ptr v →
  visible v = [] ∧ stored v = [] ∧ pending v = [] ∧ whole_lumps v = [].
Proof.
  intros Hm Hc Hq. pose proof (wf_pos v Hm Hc) as (Hp1 & Hp2 & _).
  pose proof (wf_order v Hm Hc) as (Ho1 & Ho2 & _).
  assert (get_pos v = put_pos v) as Hgp by (unfold get_pos, put_pos; by rewrite Hq).
  unfold visible, stored, pending, whole_lumps.
  rewrite !slice_nil; try done; try lia.
  rewrite Hgp. unfold put_pos, pos. nia.
Qed.

(** GET at PUT when the start of the data is moved to GET: the pointers are
    reset. *)
Lemma restart_reset u ps :
  wf_mem u → wf_cur u → ix u (get_lump u) = 0 → get_ptr u = put_ptr u →
  ∃ w, vio_fifo_reset_ptrs u = Some w
       ∧ wf (set_p_start w ps) ∧ hold_ok (set_p_start w ps)
       ∧ visible (set_p_start w ps) = visible u
       ∧ stored (set_p_start w ps) = stored u
       ∧ pending (set_p_start w ps) = pending u
       ∧ whole_lumps (set_p_start w ps) = whole_lumps u
       ∧ p_end w = p_end u ∧ size w = size u.
Proof.
  intros Hm Hc Hi0 Hq.
  pose proof (wf_order u Hm Hc) as (Ho1 & Ho2 & Ho3).
  pose proof (wf_get_ptr u Hc) as Hgp. rewrite Hq in Hgp.
  destruct (ddl_tail_put u Hc) as (t & Ht & Ha).
  assert (end_lump u = get_lump u) as Hel.
  { rewrite Hgp in Ho2. symmetry.
    apply (lump_index_inj _ _ (base u)); [by apply wf_get_lump|].
    fold (ix u (get_lump u)) (ix u (end_lump u)). lia. }
  assert (base u = [t]) as Hb.
  { rewrite Hgp, Hi0 in Ho3. unfold ddl_tail in Ht.
    destruct (base u) as [|x [|y r]]; simpl in *; try done; try congruence; lia. }
  destruct (contents_get_at_put u Hm Hc Hq) as (-> & -> & -> & ->).
  destruct (reset_ptrs_spec u t) as (w & -> & Hw & Hweq); try done;
    try congruence.
  { rewrite (wf_put_end u Hc). unfold lump_end_ptr. by rewrite Ha. }
  { rewrite (wf_get_end u Hc), Hel. by rewrite bool_decide_eq_true_2. }
  exists w. split; [done|].
  assert (get_ptr w = put_ptr w ∧ eff_end w = put_ptr w
          ∧ end_lump w = (put_ptr w).1) as (E1 & E2 & E3).
  { rewrite Hweq. unfold eff_end, deref_end. psimpl.
    split_and!; try done; [by destruct (p_end u)|].
    congruence. }
  destruct (contents_at_put (set_p_start w ps)) as (-> & -> & -> & ->);
    try done.
  split_and!; try done; try (rewrite Hweq; by psimpl).
  - destruct Hw as [Hmw Hcw Hsw].
    constructor; [by apply (wf_mem_same w)|by apply wf_cur_p_start|].
    constructor; unfold deref_start; psimpl.
    + destruct ps.
      * unfold ix. rewrite Hweq. psimpl. rewrite Hb, <- Hgp, <- Ha. simpl.
        by rewrite bool_decide_eq_true_2.
      * exists (lump_addr t, 0). rewrite Hweq. unfold ix, eff_end, deref_end.
        psimpl. rewrite Hb. simpl. rewrite bool_decide_eq_true_2 by done.
        split_and!; try done; try lia; [apply list_elem_of_here|].
        destruct (p_end u); apply lex_le_refl.
    + intros _. rewrite Hweq. psimpl. by rewrite Hb.
  - unfold hold_ok. rewrite Hweq. psimpl. destruct ps; [done|].
    eexists. split; [done|]. apply lex_le_refl.
Qed.

(** GET short of PUT when the start of the data is moved to GET. *)
Lemma restart_keep u ps h :
  wf_mem u → wf_cur u → ix u (get_lump u) = 0 → get_ptr u ≠ put_ptr u →
  (ps = StartHold → h = Some (get_ptr u)) →
  wf (set_p_start (set_hold_ptr u h) ps)
  ∧ hold_ok (set_p_start (set_hold_ptr u h) ps).
Proof.
  intros Hm Hc Hi0 Hne Hh.
  pose proof (get_end_off_bounds u Hm Hc) as (Hb1 & Hb2 & Hb3).
  split.
  - constructor; [by apply (wf_mem_same u)|
                  by apply wf_cur_p_start, wf_cur_hold_ptr|].
    constructor; unfold deref_start; psimpl.
    + destruct ps; [done|]. rewrite Hh by done. exists (get_ptr u).
      split_and!; try done.
      * by rewrite (wf_get_ptr u Hc).
      * rewrite (wf_get_ptr u Hc). by apply wf_get_lump.
      * lia.
      * exact (wf_get_off u Hc).
    + destruct ps; [by intros [= ?]|]. rewrite Hh by done. by intros [= ?].
  - unfold hold_ok. psimpl. destruct ps; [done|]. rewrite Hh by done.
    eexists. split; [done|]. apply lex_le_refl.
Qed.

Lemma set_hold_mark_spec v :
  wf v →
  ∃ v', vio_fifo_set_hold_mark v = Some v' ∧ wf v' ∧ hold_ok v'
        ∧ visible v' = visible v ∧ stored v' = stored v
        ∧ pending v' = pending v ∧ whole_lumps v' = whole_lumps v
        ∧ p_start v' = StartHold ∧ p_end v' = p_end v ∧ size v' = size v.
Proof.
  intros Hwf. unfold vio_fifo_set_hold_mark.
  destruct (release_upto_get v Hwf)
    as (u & -> & Hm & Hc & Hi0 & Hb & Hsame & C1 & C2 & C3 & C4).
  cbn [mbind option_bind]. unfold ptr_eqb.
  destruct Hsame as [_ _ _ _ _ _ _ _ _ _ Sd Ssz]. psimpl.
  bdc (get_ptr u = put_ptr u) Hq.
  - destruct (restart_reset u StartHold Hm Hc Hi0 Hq)
      as (w & -> & Hw & Hok & D1 & D2 & D3 & D4 & E1 & E2).
    cbn [mbind option_bind]. eexists. split; [done|].
    split_and!; try done; psimpl; congruence.
  - cbn [mbind option_bind]. eexists. split; [done|].
    destruct (restart_keep u StartHold (Some (get_ptr u)) Hm Hc Hi0 Hq ltac:(done))
      as [Hw Hok].
    split_and!; try done.
Qed.

Lemma clear_hold_mark_spec v :
  wf v →
  ∃ v', vio_fifo_clear_hold_mark v = Some v' ∧ wf v' ∧ hold_ok v'
        ∧ visible v' = visible v ∧ stored v' = stored v
        ∧ pending v' = pending v ∧ whole_lumps v' = whole_lumps v
        ∧ p_start v' = StartGet ∧ p_end v' = p_end v ∧ size v' = size v.
Proof.
  intros Hwf. unfold vio_fifo_clear_hold_mark.
  destruct (release_upto_get v Hwf)
    as (u & -> & Hm & Hc & Hi0 & Hb & Hsame & C1 & C2 & C3 & C4).
  cbn [mbind option_bind]. unfold ptr_eqb.
  destruct Hsame as [_ _ _ _ _ _ _ _ _ _ Sd Ssz]. psimpl.
  bdc (get_ptr u = put_ptr u) Hq.
  - destruct (restart_reset u StartGet Hm Hc Hi0 Hq)
      as (w & -> & Hw & Hok & D1 & D2 & D3 & D4 & E1 & E2).
    cbn [mbind option_bind]. eexists. split; [done|].
    split_and!; try done; psimpl; congruence.
  - cbn [mbind option_bind]. eexists. split; [done|].
    destruct (restart_keep u StartGet (hold_ptr u) Hm Hc Hi0 Hq ltac:(done))
      as [Hw Hok].
    assert (same_cursors (set_p_start (set_hold_ptr u (hold_ptr u)) StartGet)
              (set_p_start u StartGet)) as Hs by (by constructor).
    split_and!; try done.
Qed.

(** ** Back to the hold mark *)

(** With a hold mark, GET goes to the start of the head lump: the pointer
    handed to [vio_fifo_set_get_ptr] is not used. *)
Lemma back_to_hold_mark_spec v set :
  wf v → p_start v = StartHold →
  ∃ v' h, vio_fifo_back_to_hold_mark v set = Some v' ∧ wf v'
          ∧ ddl_head (base v) = Some h
          ∧ get_ptr v' = (lump_addr h, 0) ∧ get_pos v' = 0
          ∧ base v' = base v ∧ put_ptr v' = put_ptr v
          ∧ hold_ptr v' = hold_ptr v
          ∧ pending v' = pending v
          ∧ visible v' = take (end_pos v) (flat (base v))
          ∧ p_start v' = (if set then StartHold else StartGet)
          ∧ p_end v' = p_end v ∧ size v' = size v.
Proof.
  intros [Hm Hc Hs] Hps.
  pose proof (wf_order v Hm Hc) as (Ho1 & Ho2 & Ho3).
  pose proof (wf_size v Hm) as Hz.
  unfold vio_fifo_back_to_hold_mark, vio_fifo_have_hold_mark, ddl_head.
  rewrite Hps. rewrite bool_decide_eq_true_2 by done.
  destruct (base v) as [|h b] eqn:Hb; [simpl in Ho3; lia|].
  cbn [head mbind option_bind].
  assert (ix v (lump_addr h) = 0) as Hi0.
  { unfold ix. rewrite Hb. simpl. by rewrite bool_decide_eq_true_2. }
  assert (lump_addr h ∈ addrs (base v)) as Hin.
  { rewrite Hb. simpl. apply list_elem_of_here. }
  eexists _, h. split; [done|].
  match goal with |- wf ?x ∧ _ => set (v' := x) end.
  assert (get_pos v' = 0) as Hgp.
  { unfold get_pos, pos. subst v'. psimpl. fold (ix v (lump_addr h)).
    change (ix ?w (lump_addr h)) with (ix v (lump_addr h)). lia. }
  split_and!; try done.
  - constructor; [by apply (wf_mem_same v)| |].
    + pose proof (wf_end v Hc) as Hend. drec Hc.
      constructor; subst v'; unfold eff_end, deref_end, ipos, lex_le in *;
        psimpl; rewrite ?Hb in *; try done.
      unfold ix in *. psimpl. rewrite ?Hb in *. rewrite Hi0.
      destruct (p_end v); cbn [default from_option id fst snd]; lia.
    + pose proof (wf_hold v Hs) as Hh. rewrite Hps in Hh.
      constructor; subst v'; unfold deref_start; psimpl.
      * destruct set; [exact Hh|exact Hi0].
      * destruct set.
        -- intros Hd. apply (wf_empty v Hs).
           unfold deref_start. by rewrite Hps.
        -- intros [= Hq]. rewrite <- Hq in Ho3 |- *.
           cbn [fst snd lump_data_ptr] in Ho3 |- *.
           rewrite Hi0 in Ho3. rewrite Hb. simpl in *. split; [lia|done].
  - unfold visible. rewrite Hgp. subst v'. psimpl.
    change (end_pos ?w) with (end_pos v). rewrite <- Hb. apply slice_0.
Qed.

(** Without a hold mark and with none asked for, nothing changes. *)
Lemma back_to_hold_mark_none v :
  wf v → p_start v = StartGet →
  ∃ v', vio_fifo_back_to_hold_mark v false = Some v' ∧ wf v'
        ∧ same_cursors v v'.
Proof.
  intros Hwf Hps.
  unfold vio_fifo_back_to_hold_mark, vio_fifo_have_hold_mark.
  rewrite Hps. rewrite bool_decide_eq_false_2 by done.
  cbn [mbind option_bind]. eexists. split; [done|].
  assert (same_cursors v (set_p_start v StartGet)) as Hsame
    by (by constructor).
  split; [|done]. eapply wf_same; [exact Hsame|done..].
Qed.


(** ** The reset state *)

Lemma at_start_wf v t : wf_mem v → at_start v t → wf v.
Proof.
  intros Hm [Hb Hgl Hel Hgp Hpp Hpe Hep Hhp Hge].
  pose proof (wf_size v Hm) as Hz.
  assert (lump_addr t ∈ addrs [t]) by (simpl; apply list_elem_of_here).
  constructor; [done| |];
    constructor; unf; rewrite ?Hb, ?Hgl, ?Hel, ?Hgp, ?Hpp, ?Hpe, ?Hge; simpl;
    rewrite ?bool_decide_eq_true_2 by done; try done; try lia.
  - destruct (p_end v); [done|]. rewrite Hep by done.
    exists (lump_addr t, 0). cbn [fst snd].
    rewrite bool_decide_eq_true_2 by done. split_and!; try done. lia.
  - destruct (p_start v); simpl; [done|]. rewrite Hhp by done.
    exists (lump_addr t, 0). cbn [fst snd].
    rewrite bool_decide_eq_true_2 by done.
    split_and!; try done; try lia.
Qed.

Lemma at_start_contents v t :
  at_start v t →
  visible v = [] ∧ stored v = [] ∧ pending v = [] ∧ whole_lumps v = [].
Proof.
  intros [Hb Hgl Hel Hgp Hpp Hpe Hep Hhp Hge].
  apply contents_at_put; [congruence| |by rewrite Hpp].
  unfold eff_end, deref_end. destruct (p_end v); [done|].
  rewrite Hep by done. by rewrite Hpp.
Qed.

(** An empty FIFO is in the reset state. *)
Lemma wf_empty_at_start v :
  wf v → deref_start v = Some (put_ptr v) → ∃ t, at_start v t.
Proof.
  intros [Hm Hc Hs] Hd. destruct (wf_empty v Hs Hd) as [Hl Hp0].
  pose proof (wf_order v Hm Hc) as (Ho1 & Ho2 & Ho3).
  pose proof (wf_eff_end v Hc) as He.
  destruct (ddl_tail_put v Hc) as (t & Ht & Ha).
  assert (base v = [t]) as Hb.
  { unfold ddl_tail in Ht.
    destruct (base v) as [|x [|y r]]; simpl in *; try done; congruence. }
  assert (∀ a, a ∈ addrs (base v) → a = lump_addr t) as Hall.
  { intros a. rewrite Hb. simpl. by intros ->%list_elem_of_singleton. }
  pose proof (Hall _ (wf_get_lump v Hc)) as Hgl.
  pose proof (Hall _ (wf_end_lump v Hc)) as Hel.
  assert (put_ptr v = (lump_addr t, 0)) as Hpp.
  { rewrite Ha, <- Hp0. by destruct (put_ptr v). }
  pose proof (wf_eff_end_put v Hc) as Hep.
  pose proof (wf_get_off v Hc) as Hgo.
  assert (eff_end v = (lump_addr t, 0)) as Hee.
  { unfold ipos, lex_le in *. rewrite Hpp in Hep. cbn [fst snd] in Hep.
    rewrite He, Hel in Hep.
    destruct (eff_end v) as [e1 e2]. cbn [fst snd] in *. f_equal; [congruence|lia]. }
  assert (get_ptr v = (lump_addr t, 0)) as Hgp.
  { pose proof (wf_get_ptr v Hc) as Hg1. unfold ipos, lex_le in *.
    rewrite Hee in Hgo. cbn [fst snd] in Hgo. rewrite Hg1, Hgl in Hgo.
    destruct (get_ptr v) as [g1 g2]. cbn [fst snd] in *. f_equal; [congruence|lia]. }
  exists t. constructor; try done.
  - rewrite (wf_put_end v Hc). unfold lump_end_ptr. by rewrite Hpp.
  - intros Hq. unfold eff_end, deref_end in Hee. rewrite Hq in Hee.
    pose proof (wf_end v Hc) as Hend. rewrite Hq in Hend.
    destruct Hend as (e & Hq' & _). rewrite Hq' in *. simpl in Hee.
    by rewrite Hee.
  - intros Hq. unfold deref_start in Hd. rewrite Hq in Hd. by rewrite Hd, Hpp.
  - rewrite (wf_get_end v Hc), Hgl, Hel. by rewrite bool_decide_eq_true_2.
Qed.

(** ** Clear *)

Lemma drop_last_lump (b : list vio_fifo_lump) t k :
  last b = Some t → S k = length b → drop k b = [t].
Proof.
  intros Hl Hk. pose proof (last_drop b k ltac:(lia)) as Hd.
  pose proof (length_drop b k) as Hn. rewrite Hl in Hd.
  destruct (drop k b) as [|x [|y r]]; simpl in *; try lia. congruence.
Qed.

(** [vio_fifo_clear] returns only when GET is in the tail lump: the lumps
    before the tail are released before [get_lump] and [end_lump] are
    moved, and releasing [get_lump] or [end_lump] fails an assertion. *)
Lemma clear_spec v cm v' :
  wf v → vio_fifo_clear v cm = Some v' →
  get_lump v = (put_ptr v).1
  ∧ wf v' ∧ (∃ t, at_start v' t)
  ∧ p_start v' = (if cm then StartGet else p_start v)
  ∧ p_end v' = (if cm then EndPut else p_end v) ∧ size v' = size v.
Proof.
  intros [Hm Hc Hs]. unfold vio_fifo_clear, vio_fifo_release_upto.
  destruct (ddl_tail_put v Hc) as (t & Ht & Ha). rewrite Ht.
  cbn [mbind option_bind].
  pose proof (wf_order v Hm Hc) as (Ho1 & Ho2 & Ho3).
  pose proof (wf_put_in v Hc) as Hpi.
  destruct (release_upto_loop (base v) v (lump_addr t)) as [u|] eqn:Hr; [|done].
  pose proof (release_upto_loop_inv _ _ _ _ Hr) as Hpre.
  rewrite Ha in Hpre. fold (ix v (put_ptr v).1) in Hpre.
  assert (get_lump v = (put_ptr v).1) as Hgl.
  { apply (lump_index_inj _ _ (base v)); [by apply wf_get_lump|].
    fold (ix v (get_lump v)) (ix v (put_ptr v).1).
    destruct (decide (ix v (get_lump v) < ix v (put_ptr v).1)) as [Hlt|]; [|lia].
    destruct (Hpre (get_lump v)); [|done].
    apply lump_index_take_elem; [by apply wf_get_lump|done]. }
  destruct (release_upto_loop_spec (base v) v (lump_addr t) eq_refl Hm)
    as (u' & Hr' & Hmu & Hb & Hsame).
  { by rewrite Ha. }
  { by rewrite Ha. }
  rewrite Hr in Hr'. injection Hr' as <-.
  rewrite Ha in Hb. fold (ix v (put_ptr v).1) in Hb.
  rewrite (drop_last_lump _ t) in Hb; [|done..].
  destruct Hsame as [Sb Sps Shp Sgl Sgp Sge Sel Sep Spp Spe Sd Ssz]. psimpl.
  cbn [mbind option_bind]. unfold vio_fifo_reset_ptrs, ddl_tail. psimpl.
  rewrite Hb. cbn [last mbind option_bind]. intros [= <-].
  split; [done|].
  match goal with |- wf ?x ∧ _ => set (w := x) end.
  assert (at_start w t) as Hat.
  { subst w. destruct cm; constructor; psimpl; try done.
    - rewrite Spe, (wf_put_end v Hc). unfold lump_end_ptr. by rewrite Ha, Ssz.
    - rewrite Spe, (wf_put_end v Hc). unfold lump_end_ptr. by rewrite Ha, Ssz. }
  split_and!.
  - apply (at_start_wf w t); [|done].
    subst w. destruct cm; by apply (wf_mem_same u).
  - by exists t.
  - subst w. by destruct cm.
  - subst w. by destruct cm.
  - subst w. by destruct cm.
Qed.

Lemma clear_total v cm :
  wf v → get_lump v = (put_ptr v).1 → ∃ v', vio_fifo_clear v cm = Some v'.
Proof.
  intros [Hm Hc Hs] Hgl. unfold vio_fifo_clear, vio_fifo_release_upto.
  destruct (ddl_tail_put v Hc) as (t & Ht & Ha). rewrite Ht.
  cbn [mbind option_bind].
  pose proof (wf_order v Hm Hc) as (Ho1 & Ho2 & Ho3).
  pose proof (wf_put_in v Hc) as Hpi.
  pose proof (wf_mem_nodup_base v Hm) as Hnd.
  destruct (release_upto_loop_spec (base v) v (lump_addr t) eq_refl Hm)
    as (u & -> & Hmu & Hb & Hsame).
  { by rewrite Ha. }
  { rewrite Ha. intros a Hin. apply take_elem_index in Hin; [|done].
    unfold ix in *. rewrite Hgl in *. split; intros ->; lia. }
  rewrite Ha in Hb. fold (ix v (put_ptr v).1) in Hb.
  rewrite (drop_last_lump _ t) in Hb; [|done..].
  cbn [mbind option_bind]. unfold vio_fifo_reset_ptrs, ddl_tail. psimpl.
  rewrite Hb. cbn [last mbind option_bind]. by eexists.
Qed.


(** ** Reading from a descriptor *)

Lemma read_nb_loop_spec fuel v fd request total :
  wf v → fd_weight fd < fuel →
  ∃ v' fd' r bs s fd1,
    read_nb_loop fuel v fd request total = Some (v', fd', r)
    ∧ wf v' ∧ stored v' = stored v ++ bs
    ∧ visible v' = visible v
                   ++ (match p_end v with EndPut => bs | EndEnd => [] end)
    ∧ p_start v' = p_start v ∧ p_end v' = p_end v ∧ size v' = size v
    ∧ (hold_ok v → hold_ok v')
    ∧ fd_consumed fd bs fd1 ∧ stop_at s fd1 fd'
    ∧ r = read_result s (total + length bs).
Proof.
  revert v fd request total.
  induction fuel as [|fuel IH]; intros v fd request total Hwf Hfuel; [lia|].
  cbn [read_nb_loop].
  destruct (ptr_ge_put v (wf_cursors v Hwf)) as [-> _]. cbn [mbind option_bind].
  (* a lump with room in it *)
  assert (∃ v1 req1,
            (if bool_decide (size v ≤ (put_ptr v).2)
             then v0 ← vio_fifo_add_lump v;
                  Some (v0, if bool_decide (0 < request) then request - 1
                            else request)
             else Some (v, request)) = Some (v1, req1)
            ∧ wf v1 ∧ (put_ptr v1).2 < size v1
            ∧ visible v1 = visible v ∧ stored v1 = stored v
            ∧ p_start v1 = p_start v ∧ p_end v1 = p_end v
            ∧ size v1 = size v ∧ (hold_ok v → hold_ok v1))
    as (v1 & req1 & -> & Hwf1 & Hroom & Cv & Cs & Fs & Fe & Fz & Fh).
  { pose proof (wf_put_off v (wf_cursors v Hwf)).
    pose proof (wf_size v (wf_lumps v Hwf)).
    case_bool_decide.
    - destruct (add_lump_spec v Hwf)
        as (v1 & -> & ? & ? & ? & ? & ? & ? & Hz & Hp & _ & _ & ?); [lia|].
      cbn [mbind option_bind]. eexists v1, _. rewrite Hp, Hz.
      split_and!; try done; lia.
    - exists v, request. split_and!; try done; lia. }
  cbn [mbind option_bind].
  destruct (ptr_ge_put v1 (wf_cursors v1 Hwf1)) as [_ ->].
  cbn [mbind option_bind].
  set (room := size v1 - (put_ptr v1).2).
  assert (0 < room) as Hr0 by (subst room; lia).
  assert (visible v1 = visible v
            ++ (match p_end v with EndPut => [] | EndEnd => [] end)) as Cv0
    by (rewrite Cv; by destruct (p_end v); rewrite app_nil_r).
  (* a read that got the bytes [chunk] and left [fd2] *)
  assert (∀ chunk fd2,
            chunk ≠ [] → length chunk ≤ room → fd_weight fd2 < fuel →
            (∀ bs fd1, fd_consumed fd2 bs fd1 →
                       fd_consumed fd (chunk ++ bs) fd1) →
            ∃ v' fd' r bs s fd1,
              (b ← lump_write (base v1) (put_ptr v1) chunk;
               let v2 := set_put_ptr (set_base v1 b)
                           (ptr_add (put_ptr v1) (length chunk)) in
               if bool_decide (0 < req1)
               then read_nb_loop fuel v2 fd2 req1 (total + length chunk)
               else Some (v2, fd2, Z.of_nat (total + length chunk)))
              = Some (v', fd', r)
              ∧ wf v' ∧ stored v' = stored v ++ bs
              ∧ visible v' = visible v
                  ++ (match p_end v with EndPut => bs | EndEnd => [] end)
              ∧ p_start v' = p_start v ∧ p_end v' = p_end v ∧ size v' = size v
              ∧ (hold_ok v → hold_ok v')
              ∧ fd_consumed fd bs fd1 ∧ stop_at s fd1 fd'
              ∧ r = read_result s (total + length bs)) as Hdata.
  { intros chunk fd2 Hne Hlen Hw Hcons.
    assert (0 < length chunk) as Hl0 by (destruct chunk; [done|simpl; lia]).
    destruct (put_chunk_spec v1 chunk Hwf1) as (b' & -> & Hv2);
      [done|subst room; lia|].
    cbn [mbind option_bind]. cbn zeta in Hv2 |- *.
    destruct Hv2 as (Hwf2 & Ds & Dv & _ & _ & Dh).
    match goal with |- context [set_put_ptr ?a ?b] =>
      set (v2 := set_put_ptr a b) in * end.
    bdc (0 < req1) Hreq.
    - destruct (IH v2 fd2 req1 (total + length chunk) Hwf2 Hw)
        as (v' & fd' & r & bs & s & fd1 & -> & Hwf' & Es & Ev & Gs & Ge & Gz
            & Gh & Hc1 & Hst & Hr).
      exists v', fd', r, (chunk ++ bs), s, fd1.
      change (p_end v2) with (p_end v1) in *.
      change (p_start v2) with (p_start v1) in *.
      change (size v2) with (size v1) in *.
      rewrite Es, Ev, Ds, Dv, Cs, Cv, Gs, Ge, Gz, Fs, Fe, Fz, length_app.
      rewrite <- !(assoc (++)).
      split_and!; try done; auto.
      + by destruct (p_end v).
      + rewrite Hr. f_equal. lia.
    - exists v2, fd2, (Z.of_nat (total + length chunk)), chunk, StopDone, fd2.
      change (p_end v2) with (p_end v1) in *.
      change (p_start v2) with (p_start v1) in *.
      change (size v2) with (size v1) in *.
      rewrite Ds, Dv, Cs, Cv, Fe.
      split_and!; try done; auto.
      rewrite <- (app_nil_r chunk). apply Hcons. constructor. }
  destruct fd as [|[c| |] fd]; cbn [read_nb].
  - (* end of input *)
    rewrite bool_decide_eq_true_2 by lia.
    rewrite (bool_decide_eq_true_2 (-2 = -2)%Z) by done.
    exists v1, [], (read_result StopEof total), [], StopEof, [].
    rewrite !app_nil_r, Nat.add_0_r. unfold read_result.
    split_and!; first [done|congruence|by constructor].
  - (* data *)
    assert (fd_weight (FdData c :: fd) = S (length c) + fd_weight fd) as Hwt
      by done.
    bdc (room < length c) Hlt.
    + rewrite (bool_decide_eq_false_2 (Z.of_nat room ≤ 0)%Z) by lia.
      rewrite Nat2Z.id.
      assert (length (take room c) = room) as Hlk by (rewrite length_take; lia).
      assert (take room c ≠ [] ∧ drop room c ≠ []) as [Hn1 Hn2].
      { split; intros Hq; apply (f_equal length) in Hq;
          rewrite ?length_drop, ?Hlk in Hq; simpl in Hq; lia. }
      pose proof (Hdata (take room c) (FdData (drop room c) :: fd) Hn1) as Hd.
      rewrite Hlk in Hd. apply Hd.
      * lia.
      * change (fd_weight (FdData (drop room c) :: fd))
          with (S (length (drop room c)) + fd_weight fd).
        rewrite length_drop. lia.
      * intros bs fd1 Hc1. rewrite <- (take_drop room c) at 1.
        by apply fc_part.
    + destruct c as [|c0 c].
      * (* an empty read *)
        cbn [length]. rewrite bool_decide_eq_true_2 by lia.
        rewrite (bool_decide_eq_false_2 (0 = -2)%Z) by done.
        rewrite (bool_decide_eq_true_2 (0 = 0)%Z) by done.
        exists v1, fd, (Z.of_nat total), [], StopBlock, (FdData [] :: fd).
        rewrite !app_nil_r, Nat.add_0_r. unfold read_result.
        split_and!; first [done|congruence|by constructor|by right].
      * rewrite (bool_decide_eq_false_2 (Z.of_nat (length (c0 :: c)) ≤ 0)%Z)
          by (simpl; lia).
        rewrite Nat2Z.id. apply Hdata; [done|lia|lia|].
        intros bs fd1 Hc1. by apply fc_all.
  - (* would block *)
    rewrite bool_decide_eq_true_2 by lia.
    rewrite (bool_decide_eq_false_2 (0 = -2)%Z) by done.
    rewrite (bool_decide_eq_true_2 (0 = 0)%Z) by done.
    exists v1, fd, (Z.of_nat total), [], StopBlock, (FdBlock :: fd).
    rewrite !app_nil_r, Nat.add_0_r. unfold read_result.
    split_and!; first [done|congruence|by constructor|by left].
  - (* error *)
    rewrite bool_decide_eq_true_2 by lia.
    rewrite (bool_decide_eq_false_2 (-1 = -2)%Z) by done.
    rewrite (bool_decide_eq_false_2 (-1 = 0)%Z) by done.
    exists v1, fd, (-1)%Z, [], StopError, (FdError :: fd).
    rewrite !app_nil_r. unfold read_result.
    split_and!; first [done|congruence|by constructor].
Qed.

Lemma read_nb_spec v fd request :
  wf v →
  ∃ v' fd' r bs s fd1,
    vio_fifo_read_nb v fd request = Some (v', fd', r)
    ∧ wf v' ∧ stored v' = stored v ++ bs
    ∧ visible v' = visible v
                   ++ (match p_end v with EndPut => bs | EndEnd => [] end)
    ∧ p_start v' = p_start v ∧ p_end v' = p_end v ∧ size v' = size v
    ∧ (hold_ok v → hold_ok v')
    ∧ fd_consumed fd bs fd1 ∧ stop_at s fd1 fd'
    ∧ r = read_result s (length bs).
Proof.
  intros Hwf. unfold vio_fifo_read_nb.
  destruct (read_nb_loop_spec (S (fd_weight fd)) v fd request 0 Hwf ltac:(lia))
    as (v' & fd' & r & bs & s & fd1 & H).
  by exists v', fd', r, bs, s, fd1.
Qed.

Lemma fd_consumed_nil fd fd1 : fd_consumed fd [] fd1 → fd1 = fd.
Proof.
  intros H. remember [] as l eqn:Hl.
  destruct H as [|c r bs fd1 Hc _|c1 c2 r bs fd1 Hc _ _]; [done|..];
    by apply app_eq_nil in Hl as [-> _].
Qed.


(** ** Writing to a descriptor *)

Lemma visible_take v :
  wf_mem v → wf_cur v →
  visible v = take (end_pos v - get_pos v) (stored v)
  ∧ length (visible v) = end_pos v - get_pos v.
Proof.
  intros Hm Hc. pose proof (wf_pos v Hm Hc) as (Hp1 & Hp2 & Hp3 & _).
  unfold visible, stored. split.
  - rewrite slice_take by lia. f_equal. lia.
  - apply slice_length. lia.
Qed.

Lemma whole_lumps_take v :
  wf_mem v → wf_cur v →
  whole_lumps v = take (ix v (end_lump v) * size v - get_pos v) (visible v)
  ∧ length (whole_lumps v) = ix v (end_lump v) * size v - get_pos v.
Proof.
  intros Hm Hc. pose proof (wf_pos v Hm Hc) as (Hp1 & Hp2 & Hp3 & _).
  pose proof (wf_eff_end v Hc) as He.
  assert (ix v (end_lump v) * size v ≤ end_pos v) as Hle.
  { unfold end_pos. fold (eff_end v). unfold pos. rewrite He. lia. }
  unfold whole_lumps, visible. split.
  - destruct (decide (ix v (end_lump v) * size v ≤ get_pos v)) as [Hq|Hq].
    + rewrite slice_nil by done.
      by replace (ix v (end_lump v) * size v - get_pos v) with 0 by lia.
    + rewrite slice_take by lia. f_equal. lia.
  - apply slice_length. lia.
Qed.

(** The bytes within reach in the current lump are among those to write,
    unless GET is in the end lump and the end lump is to stay. *)
Lemma have_to_write v all :
  wf_mem v → wf_cur v → (all = false → get_lump v ≠ end_lump v) →
  get_end_off v - (get_ptr v).2 ≤ length (to_write all v)
  ∧ ∀ k, k ≤ get_end_off v - (get_ptr v).2 →
         take k (to_write all v) = take k (visible v)
         ∧ take k (stored v) = take k (visible v).
Proof.
  intros Hm Hc Hall.
  pose proof (get_end_off_bounds v Hm Hc) as (Hb1 & Hb2 & Hb3).
  destruct (visible_take v Hm Hc) as [Hv Hvl].
  destruct (whole_lumps_take v Hm Hc) as [Hw Hwl].
  pose proof (wf_order v Hm Hc) as (Ho1 & _).
  assert (get_end_off v - (get_ptr v).2 ≤ length (to_write all v)) as Hlen.
  { unfold to_write. destruct all; [lia|]. rewrite Hwl.
    specialize (Hall eq_refl).
    assert (ix v (get_lump v) ≠ ix v (end_lump v)) as Hne.
    { intros Heq. apply Hall. eapply lump_index_inj; [by apply wf_get_lump|done]. }
    unfold get_end_off. rewrite bool_decide_eq_false_2 by done.
    unfold get_pos, pos. rewrite (wf_get_ptr v Hc).
    pose proof (wf_get_in v Hc Hall). nia. }
  split; [done|]. intros k Hk. split.
  - unfold to_write in *. destruct all; [done|].
    rewrite Hw, take_take. f_equal. lia.
  - rewrite Hv, take_take. f_equal. lia.
Qed.

Lemma to_write_nil_visible v all :
  wf_mem v → wf_cur v → visible v = [] → to_write all v = [].
Proof.
  intros Hm Hc Hv. unfold to_write. destruct all; [done|].
  destruct (whole_lumps_take v Hm Hc) as [-> _]. rewrite Hv. by rewrite take_nil.
Qed.

(** One turn of the loop. *)
Lemma write_nb_turn_spec v all e :
  wf v →
  ∃ v' bs r,
    write_nb_turn v all e = Some (v', bs, r)
    ∧ wf v' ∧ to_write all v = bs ++ to_write all v'
    ∧ visible v = bs ++ visible v' ∧ stored v = bs ++ stored v'
    ∧ pending v' = pending v
    ∧ p_start v' = p_start v ∧ p_end v' = p_end v ∧ size v' = size v
    ∧ match r with
      | Some r =>
          (r = 0%Z ∧ to_write all v' = [] ∧ write_nb_uses v all = false
           ∧ bs = [])
          ∨ (write_nb_uses v all = true ∧ to_write all v' ≠ []
             ∧ ((r = 1%Z
                 ∧ (e = None ∨ ∃ n, e = Some (SinkTake n) ∧ length bs = n))
                ∨ (r = (-1)%Z ∧ e = Some SinkError ∧ bs = [])))
      | None =>
          write_nb_uses v all = true ∧ bs ≠ []
          ∧ ∃ n, e = Some (SinkTake n) ∧ length bs ≤ n
      end.
Proof.
  intros Hwf. pose proof Hwf as [Hm Hc Hs].
  unfold write_nb_turn, write_nb_uses.
  destruct (bool_decide (get_lump v = end_lump v) && negb all) eqn:Hbrk.
  { (* GET is in the end lump, which is to stay *)
    exists v, [], (Some 0%Z). split_and!; try done. left.
    split_and!; try done.
    apply andb_true_iff in Hbrk as [Hl%bool_decide_eq_true Ha%negb_true_iff].
    subst all. unfold to_write.
    destruct (whole_lumps_take v Hm Hc) as [_ Hlen].
    apply length_zero_iff_nil. rewrite Hlen.
    unfold get_pos, pos. rewrite (wf_get_ptr v Hc), Hl. lia. }
  assert (all = false → get_lump v ≠ end_lump v) as Hall.
  { intros ->. apply andb_false_iff in Hbrk as [Hl%bool_decide_eq_false|?];
      [done|done]. }
  rewrite (vio_fifo_get_spec v Hm Hc). cbn [mbind option_bind negb andb].
  set (have := get_end_off v - (get_ptr v).2).
  destruct (have_to_write v all Hm Hc Hall) as [Hlen Htk]. fold have in Hlen, Htk.
  pose proof (get_end_off_bounds v Hm Hc) as (Hb1 & Hb2 & Hb3).
  bdc (have = 0) Hz.
  { (* nothing within reach *)
    exists v, [], (Some 0%Z). split_and!; try done. left.
    rewrite (bool_decide_eq_true_2 (Some have = Some 0)) by congruence.
    split_and!; try done.
    apply to_write_nil_visible; [done..|].
    apply get_end_off_visible; [done..|]. subst have. lia. }
  rewrite (bool_decide_eq_false_2 (Some have = Some 0)) by congruence.
  cbn [negb].
  (* a write of [k] bytes *)
  assert (∀ k, k ≤ have →
            ∃ v', lump_read (base v) (vio_fifo_get_ptr v) k
                    = Some (take k (visible v))
                  ∧ vio_fifo_step v k = Some v' ∧ wf v'
                  ∧ to_write all v = take k (visible v) ++ to_write all v'
                  ∧ visible v = take k (visible v) ++ visible v'
                  ∧ stored v = take k (visible v) ++ stored v'
                  ∧ pending v' = pending v
                  ∧ p_start v' = p_start v ∧ p_end v' = p_end v
                  ∧ size v' = size v
                  ∧ length (take k (visible v)) = k
                  ∧ (k < have → to_write all v' ≠ [])) as Hstep.
  { intros k Hk.
    destruct (step_spec v k Hwf) as (v' & Hst & Hwf' & Dv & Ds & Dp & Dw & F);
      [subst have; lia|subst have; lia|].
    destruct (Htk k Hk) as [T1 T2].
    assert (to_write all v' = drop k (to_write all v)) as Dt
      by (unfold to_write; by destruct all).
    exists v'. unfold vio_fifo_get_ptr.
    rewrite lump_read_visible by (done || (subst have; lia)).
    split_and!; try done; try apply F.
    - by rewrite Dt, <- T1, take_drop.
    - by rewrite Dv, take_drop.
    - by rewrite Ds, <- T2, take_drop.
    - rewrite <- T1, length_take. lia.
    - intros Hlt Hq. rewrite Dt in Hq. apply (f_equal length) in Hq.
      rewrite length_drop in Hq. simpl in Hq. lia. }
  destruct e as [[n|]|]; cbn [write_nb].
  - (* the sink takes up to [n] bytes *)
    rewrite bool_decide_eq_false_2 by lia. rewrite Nat2Z.id.
    destruct (Hstep (n `min` have)) as
      (v' & -> & -> & Hwf' & T & V & S & P & F1 & F2 & F3 & Hl & Hne); [lia|].
    cbn [mbind option_bind].
    bdc (Z.of_nat (n `min` have) < Z.of_nat have)%Z Hlt.
    + eexists v', _, (Some 1%Z). split_and!; try done. right.
      split_and!; [done|apply Hne; lia|]. left. split; [done|]. right.
      exists n. split; [done|]. rewrite Hl. lia.
    + eexists v', _, None. split_and!; try done.
      * intros Hq. rewrite Hq in Hl. simpl in Hl. lia.
      * exists n. split; [done|]. rewrite Hl. lia.
  - (* an error *)
    rewrite bool_decide_eq_true_2 by lia.
    exists v, [], (Some (-1)%Z). split_and!; try done. right.
    split_and!; try done; [|by right].
    intros Hq. rewrite Hq in Hlen. simpl in Hlen. lia.
  - (* the sink blocks *)
    rewrite bool_decide_eq_false_2 by lia. change (Z.to_nat 0) with 0.
    destruct (Hstep 0) as
      (v' & -> & -> & Hwf' & T & V & S & P & F1 & F2 & F3 & Hl & Hne); [lia|].
    cbn [mbind option_bind]. rewrite bool_decide_eq_true_2 by lia.
    eexists v', _, (Some 1%Z). split_and!; try done. right.
    split_and!; [done|apply Hne; lia|]. left. split; [done|]. by left.
Qed.

Lemma write_nb_spec sink v all :
  wf v →
  ∃ v' r out sink',
    vio_fifo_write_nb v sink all = Some (v', r, out, sink')
    ∧ wf v' ∧ to_write all v = out ++ to_write all v'
    ∧ visible v = out ++ visible v' ∧ stored v = out ++ stored v'
    ∧ pending v' = pending v
    ∧ p_start v' = p_start v ∧ p_end v' = p_end v ∧ size v' = size v
    ∧ ((r = 0%Z ∧ to_write all v' = [])
       ∨ (r = 1%Z ∧ to_write all v' ≠ []
          ∧ (sink' = [] ∨ ∃ pre n, sink = pre ++ SinkTake n :: sink'))
       ∨ (r = (-1)%Z ∧ to_write all v' ≠ []
          ∧ ∃ pre, sink = pre ++ SinkError :: sink')).
Proof.
  revert v. induction sink as [|e sink IH]; intros v Hwf; cbn [vio_fifo_write_nb].
  - destruct (write_nb_turn_spec v all None Hwf)
      as (v' & bs & r & Ht & Hwf' & T & V & S & P & F1 & F2 & F3 & Hr).
    cbn [head]. rewrite Ht. cbn [mbind option_bind].
    destruct r as [r|]; [|by destruct Hr as (_ & _ & n & ? & _)].
    eexists v', r, bs, _. split; [done|]. split_and!; try done.
    destruct Hr as [(-> & Hn & _)|(Hu & Hne & [(-> & _)|(_ & ? & _)])];
      [by left| |done].
    right. left. split_and!; try done. left. by destruct (write_nb_uses v all).
  - destruct (write_nb_turn_spec v all (Some e) Hwf)
      as (v1 & bs & r & Ht & Hwf1 & T & V & S & P & F1 & F2 & F3 & Hr).
    cbn [head]. rewrite Ht. cbn [mbind option_bind].
    destruct r as [r|].
    + eexists v1, r, bs, _. split; [done|]. split_and!; try done.
      destruct Hr as [(-> & Hn & _)|(-> & Hne & [(-> & He)|(-> & He & _)])];
        [by left|..]; cbn [tail].
      * right. left. split_and!; try done. right.
        destruct He as [?|(n & [= ->] & _)]; [done|]. by exists [], n.
      * right. right. split_and!; try done. injection He as ->. by exists [].
    + destruct Hr as (Hu & Hbs & n & [= ->] & Hn).
      destruct (IH v1 Hwf1)
        as (v' & r & out & sink' & -> & Hwf' & T' & V' & S' & P' & G1 & G2 & G3
            & Hr).
      cbn [mbind option_bind]. exists v', r, (bs ++ out), sink'.
      split; [done|]. rewrite <- !(assoc (++)).
      split_and!; try congruence.
      destruct Hr as [?|[(-> & Hne & Hs)|(-> & Hne & pre & ->)]]; [by left|..].
      * right. left. split_and!; try done.
        destruct Hs as [?|(pre & m & ->)]; [by left|right].
        by exists (SinkTake n :: pre), m.
      * right. right. split_and!; try done. by exists (SinkTake n :: pre).
Qed.

(** ** Writing to a stream *)

Lemma fwrite_turn_spec v e :
  wf v →
  ∃ v' bs r,
    fwrite_turn v e = Some (v', bs, r)
    ∧ wf v' ∧ p_start v' = p_start v ∧ p_end v' = p_end v ∧ size v' = size v
    ∧ pending v' = pending v
    ∧ match r with
      | Some r =>
          v' = v
          ∧ ((r = 0%Z ∧ visible v = [] ∧ bs = []
              ∧ vio_fifo_get v = Some 0)
             ∨ (r = (-1)%Z ∧ visible v ≠ [] ∧ vio_fifo_get v ≠ Some 0))
      | None =>
          visible v = bs ++ visible v' ∧ bs ≠ [] ∧ vio_fifo_get v ≠ Some 0
          ∧ ∃ n, e = Some (SinkTake n)
      end.
Proof.
  intros Hwf. pose proof Hwf as [Hm Hc Hs]. unfold fwrite_turn.
  rewrite (vio_fifo_get_spec v Hm Hc). cbn [mbind option_bind].
  set (have := get_end_off v - (get_ptr v).2).
  pose proof (get_end_off_bounds v Hm Hc) as (Hb1 & Hb2 & Hb3).
  destruct (visible_take v Hm Hc) as [_ Hvl].
  bdc (have = 0) Hz.
  { exists v, [], (Some 0%Z). split_and!; try done. left.
    split_and!; try done; [|congruence].
    apply get_end_off_visible; [done..|]. subst have. lia. }
  assert (visible v ≠ []) as Hne.
  { intros Hq. rewrite Hq in Hvl. simpl in Hvl. subst have. lia. }
  assert (Some have ≠ Some 0) as Hn0 by congruence.
  assert (∀ n, n ≤ have →
            lump_read (base v) (vio_fifo_get_ptr v) n
            = Some (take n (visible v))) as Hrd.
  { intros n Hn. unfold vio_fifo_get_ptr. apply lump_read_visible; try done. }
  destruct e as [[n|]|]; cbn [fwrite].
  - bdc (have ≤ n) Hle.
    + rewrite Hrd by done. cbn [mbind option_bind].
      rewrite bool_decide_eq_false_2 by lia.
      destruct (step_spec v have Hwf) as (v' & -> & Hwf' & Dv & _ & Dp & _ & F);
        [subst have; lia|subst have; lia|].
      cbn [mbind option_bind]. eexists v', _, None.
      split_and!; try done; try apply F.
      * by rewrite Dv, take_drop.
      * intros Hq. apply (f_equal length) in Hq. rewrite length_take in Hq.
        simpl in Hq. subst have. lia.
      * by exists n.
    + rewrite Hrd by lia. cbn [mbind option_bind].
      rewrite bool_decide_eq_true_2 by lia.
      eexists v, _, (Some (-1)%Z). split_and!; try done. by right.
  - rewrite Hrd by lia. cbn [mbind option_bind].
    rewrite bool_decide_eq_true_2 by lia.
    eexists v, _, (Some (-1)%Z). split_and!; try done. by right.
  - rewrite Hrd by lia. cbn [mbind option_bind].
    rewrite bool_decide_eq_true_2 by lia.
    eexists v, _, (Some (-1)%Z). split_and!; try done. by right.
Qed.

Lemma fwrite_spec file v :
  wf v →
  ∃ v' r out file',
    vio_fifo_fwrite v file = Some (v', r, out, file')
    ∧ wf v' ∧ p_start v' = p_start v ∧ p_end v' = p_end v ∧ size v' = size v
    ∧ pending v' = pending v
    ∧ ((r = 0%Z ∧ visible v = out ∧ visible v' = [])
       ∨ (r = (-1)%Z ∧ visible v' ≠ [])).
Proof.
  revert v. induction file as [|e file IH]; intros v Hwf; cbn [vio_fifo_fwrite].
  - destruct (fwrite_turn_spec v None Hwf)
      as (v' & bs & r & Ht & Hwf' & F1 & F2 & F3 & P & Hr).
    cbn [head]. rewrite Ht. cbn [mbind option_bind].
    destruct r as [r|]; [|by destruct Hr as (_ & _ & _ & n & ?)].
    eexists v', r, bs, _. split; [done|]. split_and!; try done.
    destruct Hr as [-> [(-> & ? & -> & _)|(-> & ? & _)]]; [by left|by right].
  - destruct (fwrite_turn_spec v (Some e) Hwf)
      as (v1 & bs & r & Ht & Hwf1 & F1 & F2 & F3 & P & Hr).
    cbn [head]. rewrite Ht. cbn [mbind option_bind].
    destruct r as [r|].
    + eexists v1, r, bs, _. split; [done|]. split_and!; try done.
      destruct Hr as [-> [(-> & ? & -> & _)|(-> & ? & _)]]; [by left|by right].
    + destruct Hr as (V & Hbs & _ & _).
      destruct (IH v1 Hwf1)
        as (v' & r & out & file' & -> & Hwf' & G1 & G2 & G3 & P' & Hr).
      cbn [mbind option_bind]. exists v', r, (bs ++ out), file'.
      split; [done|]. split_and!; try congruence.
      destruct Hr as [(-> & <- & ?)|?]; [left|by right]. by rewrite V.
Qed.


(** ** Copy *)

Lemma appended_app dv dv1 dv2 bs1 bs2 :
  appended dv dv1 bs1 → appended dv1 dv2 bs2 → appended dv dv2 (bs1 ++ bs2).
Proof.
  intros (_ & S1 & V1 & F1 & F2 & F3) (Hwf & S2 & V2 & G1 & G2 & G3).
  unfold appended. rewrite S2, V2, S1, V1, G1, G2, G3, F1, F2, F3.
  rewrite <- !(assoc (++)). split_and!; try done. by destruct (p_end dv).
Qed.

Lemma put_bytes_appended dv bs :
  wf dv → ∃ dv', vio_fifo_put_bytes dv bs = Some dv' ∧ appended dv dv' bs.
Proof.
  intros Hwf.
  destruct (put_bytes_spec dv bs Hwf) as (dv' & -> & ? & ? & ? & _ & ? & ? & ? & _).
  by exists dv'.
Qed.

(** The loop of [vio_fifo_copy], from the offset [off] of the lump [lump]
    of [src]. *)
Lemma copy_loop_spec fuel st dst src s dv lump off :
  st !! src = Some s → st !! dst = Some dv → dst ≠ src → wf s → wf dv →
  lump ∈ addrs (base s) → ix s lump ≤ ix s (end_lump s) → off ≤ size s →
  (lump = end_lump s → off ≤ (eff_end s).2) →
  ix s (end_lump s) - ix s lump < fuel →
  ∃ dv', copy_loop fuel st dst src lump (lump, off) = Some (<[dst := dv']> st)
         ∧ appended dv dv'
             (slice (ix s lump * size s + off) (end_pos s) (flat (base s))).
Proof.
  intros Hs Hd Hne Hwf. revert st dv lump off Hs Hd.
  pose proof Hwf as [Hm Hc _].
  pose proof (wf_eff_end s Hc) as He.
  pose proof (wf_eff_end_off s Hc) as Heo.
  pose proof (wf_mem_nodup_base s Hm) as Hnd.
  pose proof (wf_mem_data_base s Hm) as Hdata.
  assert (end_pos s = ix s (end_lump s) * size s + (eff_end s).2) as Hep.
  { unfold end_pos. fold (eff_end s). unfold pos. by rewrite He. }
  assert (deref_end s = Some (eff_end s)) as Hde.
  { unfold eff_end, deref_end. pose proof (wf_end s Hc) as Hend.
    destruct (p_end s); [done|]. by destruct Hend as (e & -> & _). }
  induction fuel as [|fuel IH];
    intros st dv lump off Hs Hd Hdv Hin Hix Hoff Hlim Hfuel; [lia|].
  cbn [copy_loop]. rewrite Hs. cbn [mbind option_bind].
  assert (∀ dv', <[dst := dv']> st !! src = Some s) as Hs'
    by (intros; by rewrite list_lookup_insert_ne).
  assert (∀ dv', <[dst := dv']> st !! dst = Some dv') as Hd'.
  { intros. apply list_lookup_insert_eq. by eapply lookup_lt_Some. }
  bdc (lump = end_lump s) Hq; cbn [negb].
  - (* the end lump: up to the effective end *)
    rewrite Hde. cbn [mbind option_bind]. specialize (Hlim Hq).
    unfold ptr_sub. cbn [fst snd]. rewrite He, <- Hq.
    rewrite (bool_decide_eq_true_2 (lump = lump)) by done.
    rewrite (bool_decide_eq_true_2 (off ≤ (eff_end s).2)) by lia. cbn [andb mbind option_bind].
    rewrite (lump_read_spec (size s)) by (done || lia).
    cbn [mbind option_bind]. rewrite Hd. cbn [mbind option_bind].
    destruct (put_bytes_appended dv
                (slice (lump_index lump (base s) * size s + off)
                   (lump_index lump (base s) * size s + off
                    + ((eff_end s).2 - off)) (flat (base s))) Hdv)
      as (dv' & -> & Happ).
    cbn [mbind option_bind]. rewrite Hs'. cbn [mbind option_bind].
    rewrite (bool_decide_eq_true_2 _ Hq).
    exists dv'. split; [done|].
    rewrite Hep, <- Hq. unfold ix.
    by replace (lump_index lump (base s) * size s + (eff_end s).2)
      with (lump_index lump (base s) * size s + off + ((eff_end s).2 - off))
      by lia.
  - (* a lump before the end lump: up to its end *)
    cbn [mbind option_bind]. unfold ptr_sub, lump_end_ptr. cbn [fst snd].
    rewrite (bool_decide_eq_true_2 (lump = lump)) by done.
    rewrite (bool_decide_eq_true_2 (off ≤ size s)) by lia.
    cbn [andb mbind option_bind].
    rewrite (lump_read_spec (size s)) by (done || lia).
    cbn [mbind option_bind]. rewrite Hd. cbn [mbind option_bind].
    match goal with |- context [vio_fifo_put_bytes dv ?bs] =>
      destruct (put_bytes_appended dv bs Hdv) as (dv1 & -> & Happ1) end.
    cbn [mbind option_bind]. rewrite Hs'. cbn [mbind option_bind].
    rewrite (bool_decide_eq_false_2 _ Hq).
    assert (ix s lump ≠ ix s (end_lump s)) as Hni.
    { intros Heq. apply Hq. by eapply lump_index_inj. }
    pose proof (lump_index_lt _ _ (wf_end_lump s Hc)) as Hlt.
    destruct (ddl_next_spec lump (base s)) as (nl & -> & Hnin & Hnix);
      [done|done|unfold ix in *; lia|].
    cbn [mbind option_bind]. unfold lump_data_ptr.
    destruct (IH (<[dst := dv1]> st) dv1 (lump_addr nl) 0)
      as (dv' & -> & Happ2); try done.
    { destruct Happ1 as (? & _). done. }
    { unfold ix in *. lia. }
    { lia. }
    { lia. }
    { unfold ix in *. lia. }
    exists dv'. rewrite list_insert_insert_eq. split; [done|].
    pose proof (appended_app _ _ _ _ _ Happ1 Happ2) as Happ.
    replace (ix s (lump_addr nl) * size s + 0)
      with (lump_index lump (base s) * size s + off + (size s - off)) in Happ
      by (unfold ix; rewrite Hnix; lia).
    rewrite slice_app in Happ; [done|lia|].
    rewrite Hep. unfold ix in *. nia.
Qed.

(** [vio_fifo_copy (dst, src)] for two different FIFOs, [dst] NULL or not. *)
Lemma copy_spec debug st dst src s :
  st !! src = Some s → wf s →
  (∀ d, dst = Some d → d ≠ src ∧ ∃ dv, st !! d = Some dv ∧ wf dv) →
  ∃ st0 d dv dv',
    vio_fifo_copy debug st dst src = Some (<[d := dv']> st0, d)
    ∧ match dst with
      | Some d0 => st0 = st ∧ d = d0
      | None => st0 = st ++ [vio_fifo_new debug (size s)] ∧ d = length st
      end
    ∧ st0 !! d = Some dv ∧ d ≠ src
    ∧ appended dv dv' (visible s).
Proof.
  intros Hs Hwf Hdst. pose proof Hwf as [Hm Hc _].
  unfold vio_fifo_copy. rewrite Hs. cbn [mbind option_bind].
  pose proof (lookup_lt_Some _ _ _ Hs) as Hlt.
  set (st0 := match dst with
              | Some _ => st
              | None => st ++ [vio_fifo_new debug (size s)]
              end).
  set (d := match dst with Some d0 => d0 | None => length st end).
  assert (∃ dv, st0 !! d = Some dv ∧ wf dv ∧ d ≠ src ∧ st0 !! src = Some s
                ∧ (match dst with
                   | Some d0 => (st, d0)
                   | None => store_new st (vio_fifo_new debug (size s))
                   end) = (st0, d)) as (dv & Hd & Hdv & Hne & Hs0 & ->).
  { subst st0 d. destruct dst as [d0|].
    - destruct (Hdst d0 eq_refl) as (? & dv & ? & ?). by exists dv.
    - exists (vio_fifo_new debug (size s)). unfold store_new. split_and!.
      + rewrite lookup_app_r by lia. by rewrite Nat.sub_diag.
      + apply new_wf.
      + lia.
      + by rewrite lookup_app_l.
      + done. }
  rewrite Hs0. cbn [mbind option_bind].
  pose proof (get_end_off_bounds s Hm Hc) as (Hb1 & Hb2 & _).
  pose proof (wf_order s Hm Hc) as (Ho1 & _).
  pose proof (lump_index_lt _ _ (wf_end_lump s Hc)) as Hel.
  assert (get_ptr s = (get_lump s, (get_ptr s).2)) as Hgp.
  { rewrite <- (wf_get_ptr s Hc). by destruct (get_ptr s). }
  rewrite Hgp.
  destruct (copy_loop_spec (S (length (base s))) st0 d src s dv (get_lump s)
              (get_ptr s).2) as (dv' & -> & Happ); try done.
  - by apply wf_get_lump.
  - cbn [fst snd]. lia.
  - cbn [fst snd]. intros Hq. unfold get_end_off in Hb1.
    by rewrite bool_decide_eq_true_2 in Hb1.
  - unfold ix in *. lia.
  - cbn [mbind option_bind fst snd]. exists st0, d, dv, dv'.
    split; [done|]. split; [subst st0 d; by destruct dst|].
    split_and!; try done.
    cbn [fst snd] in Happ. unfold visible, get_pos, pos.
    by rewrite (wf_get_ptr s Hc).
Qed.

(** The loop of [vio_fifo_copy_tail], from the offset [off] of the lump
    [lump] of [src]. *)
Lemma copy_tail_loop_spec fuel st dst src s dv lump off :
  st !! src = Some s → st !! dst = Some dv → dst ≠ src → wf s → wf dv →
  lump ∈ addrs (base s) → off ≤ size s →
  (lump = (put_ptr s).1 → off ≤ (put_ptr s).2) →
  length (base s) - ix s lump ≤ fuel →
  ∃ dv', copy_tail_loop fuel st dst src lump (lump, off) (ddl_tail (base s))
         = Some (<[dst := dv']> st)
         ∧ appended dv dv'
             (slice (ix s lump * size s + off) (put_pos s) (flat (base s))).
Proof.
  intros Hs Hd Hne Hwf. revert st dv lump off Hs Hd.
  pose proof Hwf as [Hm Hc _].
  pose proof (wf_order s Hm Hc) as (_ & _ & Ho3).
  pose proof (wf_put_in s Hc) as Hpi.
  pose proof (wf_put_off s Hc) as Hpo.
  pose proof (wf_mem_nodup_base s Hm) as Hnd.
  pose proof (wf_mem_data_base s Hm) as Hdata.
  destruct (ddl_tail_put s Hc) as (t & -> & Ha).
  induction fuel as [|fuel IH];
    intros st dv lump off Hs Hd Hdv Hin Hoff Hlim Hfuel.
  { pose proof (lump_index_lt _ _ Hin). unfold ix in *. lia. }
  cbn [copy_tail_loop]. rewrite Hs. cbn [mbind option_bind].
  cbn [addr_of fmap option_fmap option_map]. rewrite Ha.
  assert (∀ dv', <[dst := dv']> st !! src = Some s) as Hs'
    by (intros; by rewrite list_lookup_insert_ne).
  bdc (Some lump = Some (put_ptr s).1) Hq; cbn [negb].
  - (* the tail lump: up to PUT *)
    injection Hq as Hq. specialize (Hlim Hq).
    unfold ptr_sub. cbn [fst snd]. rewrite <- Hq.
    rewrite (bool_decide_eq_true_2 (lump = lump)) by done.
    rewrite (bool_decide_eq_true_2 (off ≤ (put_ptr s).2)) by lia.
    cbn [andb mbind option_bind].
    rewrite (lump_read_spec (size s)) by (done || lia).
    cbn [mbind option_bind]. rewrite Hd. cbn [mbind option_bind].
    match goal with |- context [vio_fifo_put_bytes dv ?bs] =>
      destruct (put_bytes_appended dv bs Hdv) as (dv' & -> & Happ) end.
    cbn [mbind option_bind]. rewrite Hs'. cbn [mbind option_bind].
    exists dv'. split; [done|].
    unfold put_pos, pos. rewrite <- Hq. unfold ix.
    by replace (lump_index lump (base s) * size s + (put_ptr s).2)
      with (lump_index lump (base s) * size s + off + ((put_ptr s).2 - off))
      by lia.
  - (* a lump before the tail: up to its end *)
    assert (lump ≠ (put_ptr s).1) as Hq' by congruence.
    unfold ptr_sub, lump_end_ptr. cbn [fst snd].
    rewrite (bool_decide_eq_true_2 (lump = lump)) by done.
    rewrite (bool_decide_eq_true_2 (off ≤ size s)) by lia.
    cbn [andb mbind option_bind].
    rewrite (lump_read_spec (size s)) by (done || lia).
    cbn [mbind option_bind]. rewrite Hd. cbn [mbind option_bind].
    match goal with |- context [vio_fifo_put_bytes dv ?bs] =>
      destruct (put_bytes_appended dv bs Hdv) as (dv1 & -> & Happ1) end.
    cbn [mbind option_bind]. rewrite Hs'. cbn [mbind option_bind].
    assert (ix s lump ≠ ix s (put_ptr s).1) as Hni.
    { intros Heq. apply Hq'. by eapply lump_index_inj. }
    pose proof (lump_index_lt _ _ Hin) as Hlt.
    destruct (ddl_next_spec lump (base s)) as (nl & -> & Hnin & Hnix);
      [done|done|unfold ix in *; lia|].
    cbn [mbind option_bind]. unfold lump_data_ptr.
    destruct (IH (<[dst := dv1]> st) dv1 (lump_addr nl) 0)
      as (dv' & -> & Happ2); try done.
    { apply list_lookup_insert_eq. by eapply lookup_lt_Some. }
    { by destruct Happ1 as (? & _). }
    { lia. }
    { lia. }
    { unfold ix in *. lia. }
    exists dv'. rewrite list_insert_insert_eq. split; [done|].
    pose proof (appended_app _ _ _ _ _ Happ1 Happ2) as Happ.
    replace (ix s (lump_addr nl) * size s + 0)
      with (lump_index lump (base s) * size s + off + (size s - off)) in Happ
      by (unfold ix; rewrite Hnix; lia).
    rewrite slice_app in Happ; [done|lia|].
    unfold put_pos, pos, ix in *. nia.
Qed.

(** [vio_fifo_copy_tail (dst, src)] for two different FIFOs, [dst] NULL or
    not: [dst] is made before the end mark of [src] is looked at. *)
Lemma copy_tail_spec debug st dst src s :
  st !! src = Some s → wf s →
  (∀ d, dst = Some d → d ≠ src ∧ ∃ dv, st !! d = Some dv ∧ wf dv) →
  ∃ st0 d dv dv',
    vio_fifo_copy_tail debug st dst src = Some (<[d := dv']> st0, d)
    ∧ match dst with
      | Some d0 => st0 = st ∧ d = d0
      | None => st0 = st ++ [vio_fifo_new debug (size s)] ∧ d = length st
      end
    ∧ st0 !! d = Some dv ∧ d ≠ src
    ∧ match p_end s with
      | EndPut => dv' = dv
      | EndEnd => appended dv dv' (pending s)
      end.
Proof.
  intros Hs Hwf Hdst. pose proof Hwf as [Hm Hc _].
  unfold vio_fifo_copy_tail. rewrite Hs. cbn [mbind option_bind].
  pose proof (lookup_lt_Some _ _ _ Hs) as Hlt.
  set (st0 := match dst with
              | Some _ => st
              | None => st ++ [vio_fifo_new debug (size s)]
              end).
  set (d := match dst with Some d0 => d0 | None => length st end).
  assert (∃ dv, st0 !! d = Some dv ∧ wf dv ∧ d ≠ src ∧ st0 !! src = Some s
                ∧ (match dst with
                   | Some d0 => (st, d0)
                   | None => store_new st (vio_fifo_new debug (size s))
                   end) = (st0, d)) as (dv & Hd & Hdv & Hne & Hs0 & ->).
  { subst st0 d. destruct dst as [d0|].
    - destruct (Hdst d0 eq_refl) as (? & dv & ? & ?). by exists dv.
    - exists (vio_fifo_new debug (size s)). unfold store_new. split_and!.
      + rewrite lookup_app_r by lia. by rewrite Nat.sub_diag.
      + apply new_wf.
      + lia.
      + by rewrite lookup_app_l.
      + done. }
  rewrite Hs0. cbn [mbind option_bind].
  assert (match dst with
          | Some d0 => st0 = st ∧ d = d0
          | None => st0 = st ++ [vio_fifo_new debug (size s)] ∧ d = length st
          end) as Hst0 by (subst st0 d; by destruct dst).
  unfold vio_fifo_have_end_mark. pose proof (wf_end s Hc) as Hend.
  destruct (p_end s) eqn:Hpe.
  - (* no end mark: nothing to copy *)
    rewrite bool_decide_eq_false_2 by done. cbn [negb].
    exists st0, d, dv, dv. rewrite list_insert_id by done. done.
  - rewrite bool_decide_eq_true_2 by done. cbn [negb].
    destruct Hend as (e & He & Hel & Hle & Hlt').
    rewrite He. cbn [mbind option_bind].
    pose proof (wf_eff_end_off s Hc) as Heo.
    assert (eff_end s = e) as Hee
      by (unfold eff_end, deref_end; by rewrite Hpe, He).
    rewrite Hee in Heo.
    pose proof (lump_index_lt _ _ (wf_end_lump s Hc)) as Hil.
    assert (e = (end_lump s, e.2)) as Hep.
    { rewrite <- Hel. by destruct e. }
    rewrite Hep.
    destruct (copy_tail_loop_spec (S (length (base s))) st0 d src s dv
                (end_lump s) e.2) as (dv' & -> & Happ); try done.
    + by apply wf_end_lump.
    + intros Hq. unfold ipos, lex_le in Hle. cbn [fst snd] in Hle. rewrite Hel, Hq in Hle. lia.
    + lia.
    + cbn [mbind option_bind]. exists st0, d, dv, dv'.
      split_and!; try done.
      unfold pending, end_pos. fold (eff_end s). rewrite Hee.
      unfold pos. by rewrite Hel.
Qed.


(** ** Sequences of operations *)

Lemma run_op_wf v o v' : wf v → op_ok v o → run_op v o = Some v' → wf v'.
Proof.
  intros Hwf Hok. destruct o; cbn [run_op].
  - destruct (put_bytes_spec v bs Hwf) as (w & -> & ? & _). by intros [= <-].
  - destruct (get_bytes_spec v n Hwf) as (w & -> & ? & _). by intros [= <-].
  - destruct (set_hold_mark_spec v Hwf) as (w & -> & ? & _). by intros [= <-].
  - destruct (clear_hold_mark_spec v Hwf) as (w & -> & ? & _). by intros [= <-].
  - destruct Hok as [Hps| ->].
    + destruct (back_to_hold_mark_spec v set Hwf Hps) as (w & h & -> & ? & _).
      by intros [= <-].
    + destruct (p_start v) eqn:Hps.
      * destruct (back_to_hold_mark_none v Hwf Hps) as (w & -> & ? & _).
        by intros [= <-].
      * destruct (back_to_hold_mark_spec v false Hwf Hps) as (w & h & -> & ? & _).
        by intros [= <-].
  - destruct (set_end_mark_spec v Hwf) as (w & -> & ? & _). by intros [= <-].
  - destruct (step_end_mark_spec v Hwf) as (w & -> & ? & _). by intros [= <-].
  - destruct (clear_end_mark_spec v Hwf) as (w & -> & ? & _). by intros [= <-].
  - destruct (back_to_end_mark_spec v keep Hwf) as (w & -> & ? & _).
    by intros [= <-].
  - intros Hc. by destruct (clear_spec v clear_marks v' Hwf Hc) as (_ & ? & _).
  - destruct (read_nb_spec v fd request Hwf)
      as (w & fd' & r & bs & s & fd1 & -> & ? & _). by intros [= <-].
  - destruct (write_nb_spec sink v all Hwf) as (w & r & out & sink' & -> & ? & _).
    by intros [= <-].
  - destruct (fwrite_spec file v Hwf) as (w & r & out & file' & -> & ? & _).
    by intros [= <-].
Qed.

Lemma reachable_wf v : reachable v → wf v.
Proof.
  induction 1 as [debug size|v o v' _ IH Hok Hrun]; [apply new_wf|].
  by eapply run_op_wf.
Qed.

(** Every operation but [vio_fifo_clear] runs to its end from a state of
    the invariant; [vio_fifo_clear] does when GET is in the tail lump. *)
Lemma run_op_total v o :
  wf v → op_ok v o →
  (∀ cm, o = OpClear cm → get_lump v = (put_ptr v).1) →
  ∃ v', run_op v o = Some v'.
Proof.
  intros Hwf Hok Hcl. destruct o; cbn [run_op].
  - destruct (put_bytes_spec v bs Hwf) as (w & -> & _). by eexists.
  - destruct (get_bytes_spec v n Hwf) as (w & -> & _). by eexists.
  - destruct (set_hold_mark_spec v Hwf) as (w & -> & _). by eexists.
  - destruct (clear_hold_mark_spec v Hwf) as (w & -> & _). by eexists.
  - destruct Hok as [Hps| ->].
    + destruct (back_to_hold_mark_spec v set Hwf Hps) as (w & h & -> & _).
      by eexists.
    + destruct (p_start v) eqn:Hps.
      * destruct (back_to_hold_mark_none v Hwf Hps) as (w & -> & _). by eexists.
      * destruct (back_to_hold_mark_spec v false Hwf Hps) as (w & h & -> & _).
        by eexists.
  - destruct (set_end_mark_spec v Hwf) as (w & -> & _). by eexists.
  - destruct (step_end_mark_spec v Hwf) as (w & -> & _). by eexists.
  - destruct (clear_end_mark_spec v Hwf) as (w & -> & _). by eexists.
  - destruct (back_to_end_mark_spec v keep Hwf) as (w & -> & _). by eexists.
  - apply clear_total; [done|]. by eapply Hcl.
  - destruct (read_nb_spec v fd request Hwf)
      as (w & fd' & r & bs & s & fd1 & -> & _). by eexists.
  - destruct (write_nb_spec sink v all Hwf) as (w & r & out & sink' & -> & _).
    by eexists.
  - destruct (fwrite_spec file v Hwf) as (w & r & out & file' & -> & _).
    by eexists.
Qed.

(** ** Draining *)

(** With no marks, a FIFO that holds nothing has GET at PUT. *)
Lemma stored_nil_empty v :
  wf v → p_start v = StartGet → p_end v = EndPut → stored v = [] →
  deref_start v = Some (put_ptr v).
Proof.
  intros [Hm Hc Hs] Hps Hpe Hst.
  pose proof (wf_pos v Hm Hc) as (Hp1 & Hp2 & Hp3 & _).
  pose proof (wf_order v Hm Hc) as (Ho1 & Ho2 & _).
  pose proof (wf_get_ptr v Hc) as Hgp.
  pose proof (wf_end v Hc) as Hend. rewrite Hpe in Hend.
  pose proof (wf_put_off v Hc) as Hpo.
  assert (get_pos v = put_pos v) as Hq.
  { apply (f_equal length) in Hst. unfold stored in Hst.
    rewrite slice_length in Hst by done. simpl in Hst.
    assert (end_pos v = put_pos v)
      by (unfold end_pos, put_pos, deref_end; by rewrite Hpe).
    lia. }
  unfold deref_start. rewrite Hps. f_equal.
  unfold get_pos, put_pos, pos in Hq. rewrite Hgp in Hq.
  destruct (decide (get_lump v = end_lump v)) as [Hl|Hl].
  - rewrite Hl, Hend in Hq.
    destruct (get_ptr v) as [g1 g2], (put_ptr v) as [p1 p2].
    cbn [fst snd] in *. f_equal; [congruence|lia].
  - pose proof (wf_get_in v Hc Hl) as Hin.
    assert (ix v (get_lump v) ≠ ix v (end_lump v)) as Hne.
    { intros Heq. apply Hl. eapply lump_index_inj; [by apply wf_get_lump|done]. }
    rewrite <- Hend in Hq. nia.
Qed.

Lemma drained_at_start v n :
  wf v → p_start v = StartGet → p_end v = EndPut → length (visible v) ≤ n →
  ∃ v' t, vio_fifo_get_bytes v n = Some (v', visible v) ∧ wf v'
          ∧ at_start v' t ∧ size v' = size v
          ∧ p_start v' = StartGet ∧ p_end v' = EndPut.
Proof.
  intros Hwf Hps Hpe Hn.
  destruct (get_bytes_spec v n Hwf) as (v' & Hg & Hwf' & Hv & Hs & _ & F1 & F2 & F3).
  rewrite take_ge in Hg by done.
  assert (stored v = visible v) as Hsv.
  { unfold stored, visible, end_pos, put_pos, deref_end. by rewrite Hpe. }
  assert (stored v' = []) as Hnil.
  { rewrite Hs, Hsv. apply drop_ge. lia. }
  destruct (wf_empty_at_start v' Hwf') as (t & Hat).
  { apply stored_nil_empty; congruence. }
  exists v', t. split_and!; try done; congruence.
Qed.


(** * The claims *)


(** C2 (rewind to the hold mark).  The code at work: after HEL is read,
    the hold mark set (at offset 3 of the lump) and LOWO read,
    [vio_fifo_back_to_hold_mark] puts GET at offset 0 of the head lump,
    not at the hold mark, and the drain that follows yields HELLOWORLD:
    the bytes HEL, read before the hold mark was set, come out again. *)
Theorem C2_back_to_hold_mark_ignores_hold_ptr :
  hold_rewind_run
  = Some (take 3 HELLOWORLD, take 4 (drop 3 HELLOWORLD), HELLOWORLD,
          Some (own_lump, 3), (own_lump, 0)).
Proof. vm_compute. reflexivity. Qed.

Lemma set_end_mark_hold v v' :
  vio_fifo_set_end_mark v = Some v' → hold_ok v → hold_ok v'.
Proof.
  unfold vio_fifo_set_end_mark. cbn [base set_p_end set_end_ptr].
  destruct (ddl_tail (base v)); [|done]. by intros [= <-].
Qed.

(** With no end mark, [vio_fifo_back_to_end_mark] changes no cursor and
    no lump of the list. *)
Lemma back_to_end_mark_no_mark v keep :
  wf v → p_end v = EndPut →
  ∃ v', vio_fifo_back_to_end_mark v keep = Some v' ∧ same_cursors v v'.
Proof.
  intros [Hm Hc Hs] Hpe. unfold vio_fifo_back_to_end_mark, optr_eqb, deref_end.
  rewrite Hpe. rewrite bool_decide_eq_true_2 by done.
  cbn [negb mbind option_bind]. destruct keep; cbn [negb].
  - exists v. split; [done|]. apply same_cursors_refl.
  - eexists. split; [done|].
    constructor; cbn [vio_fifo_set_get_end]; try done.
    cbn [p_get_end set_p_get_end get_lump end_lump p_end set_p_end].
    by rewrite (wf_get_end v Hc), Hpe.
Qed.

(** C3 (back to the end mark).  From a state of the invariant with HOLD
    at or before GET: after [vio_fifo_set_end_mark] the visible bytes are
    all the bytes from GET to PUT (those visible before, and those behind
    an earlier end mark, if any); bytes put after that are pending, not
    visible; [vio_fifo_back_to_end_mark] discards them, so that what is
    stored is what was visible and a drain yields exactly that; the lumps
    after the end lump leave the list and are released (kept as the spare
    or freed); an empty FIFO is left in the reset state; the end mark
    stays if asked.  With no end mark the operation changes no cursor and
    no lump of the list, and discards nothing. *)
Theorem C3_back_to_end_mark v bs keep :
  wf v → hold_ok v →
  ∃ v1 v2 v3,
    vio_fifo_set_end_mark v = Some v1
    ∧ vio_fifo_put_bytes v1 bs = Some v2
    ∧ vio_fifo_back_to_end_mark v2 keep = Some v3
    ∧ visible v1 = visible v ++ pending v
    ∧ visible v2 = visible v1 ∧ pending v2 = bs
    ∧ wf v3 ∧ visible v3 = visible v1 ∧ stored v3 = visible v1
    ∧ pending v3 = []
    ∧ (∀ ns, ∃ v4, get_all v3 ns = Some (v4, chunks ns (visible v1)))
    ∧ base v3 = take (S (ix v2 (end_lump v2))) (base v2)
    ∧ (∀ a, a ∈ addrs (base v2) → a ∉ addrs (base v3) → a ∈ released v3)
    ∧ (deref_start v3 = Some (put_ptr v3) → ∃ t, at_start v3 t)
    ∧ p_end v3 = (if keep then EndEnd else EndPut)
    ∧ (p_end v = EndPut →
       ∃ v', vio_fifo_back_to_end_mark v keep = Some v'
             ∧ same_cursors v v' ∧ stored v' = stored v).
Proof.
  intros Hwf Hok. pose proof Hwf as [Hm Hc _].
  destruct (set_end_mark_spec v Hwf)
    as (v1 & H1 & Hwf1 & V1 & S1 & P1 & _ & E1 & _).
  pose proof (set_end_mark_hold v v1 H1 Hok) as Hok1.
  destruct (put_bytes_spec v1 bs Hwf1)
    as (v2 & H2 & Hwf2 & S2 & V2 & P2 & _ & E2 & _ & Hh2).
  rewrite E1 in V2, P2. rewrite app_nil_r in V2. rewrite P1 in P2.
  destruct (back_to_end_mark_spec v2 keep Hwf2)
    as (v3 & H3 & Hwf3 & P3 & S3 & _ & _ & E3 & B3 & R3 & Hh3).
  destruct (Hh3 (Hh2 Hok1)) as [_ V3]. rewrite V2 in V3.
  exists v1, v2, v3. split_and!; try done.
  - rewrite V1. pose proof (wf_pos v Hm Hc) as (? & ? & _).
    unfold stored, visible, pending. by rewrite slice_app.
  - by rewrite S3.
  - intros ns. destruct (get_all_spec v3 ns Hwf3) as (v4 & Hg & _).
    exists v4. by rewrite Hg, V3.
  - by apply wf_empty_at_start.
  - rewrite E3, E2, E1. by destruct keep.
  - intros Hpe. destruct (back_to_end_mark_no_mark v keep Hwf Hpe) as (v' & ? & Hs).
    exists v'. split_and!; try done. by destruct (contents_same _ _ Hs) as (_ & ? & _).
Qed.

Lemma chunks_nil ns : concat (chunks ns []) = [].
Proof. by rewrite concat_chunks, take_nil. Qed.

(** C4 (end mark).  For every lump size: ABCDE is put, the end mark is
    set (PUT is at byte 5), FGHIJ is put.  A [vio_fifo_get_bytes] of any
    size [n] returns the first [n] bytes of ABCDE, so ABCDE and no more
    when [n] is 5 or more; further calls then get no byte, until
    [vio_fifo_step_end_mark] or [vio_fifo_clear_end_mark], after which
    FGHIJ is got.  [vio_fifo_set_get_end] selects the end mark as the
    limit of GET exactly when [get_lump] is [end_lump] and an end mark is
    set. *)
Theorem C4_end_mark_limits_get debug size n :
  (∃ v1 v2 v3 v4,
     vio_fifo_put_bytes (vio_fifo_new debug size) ABCDE = Some v1
     ∧ vio_fifo_set_end_mark v1 = Some v2
     ∧ vio_fifo_put_bytes v2 FGHIJ = Some v3
     ∧ vio_fifo_get_bytes v3 n = Some (v4, take n ABCDE)
     ∧ (5 ≤ n →
        (∀ ms, ∃ v5 outs, get_all v4 ms = Some (v5, outs) ∧ concat outs = [])
        ∧ (∃ v5, vio_fifo_step_end_mark v4 = Some v5
                 ∧ ∀ m, ∃ v6, vio_fifo_get_bytes v5 m = Some (v6, take m FGHIJ))
        ∧ (∃ v5, vio_fifo_clear_end_mark v4 = Some v5
                 ∧ ∀ m, ∃ v6, vio_fifo_get_bytes v5 m
                              = Some (v6, take m FGHIJ))))
  ∧ (∀ v, p_get_end (vio_fifo_set_get_end v) = GetEndEnd
          ↔ get_lump v = end_lump v ∧ p_end v = EndEnd).
Proof.
  split.
  - destruct (new_contents debug size) as (Hv0 & Hs0 & _ & Hpe0 & _).
    destruct (put_bytes_spec _ ABCDE (new_wf debug size))
      as (v1 & H1 & Hwf1 & S1 & V1 & _).
    rewrite Hs0 in S1. cbn [app] in S1.
    destruct (set_end_mark_spec v1 Hwf1)
      as (v2 & H2 & Hwf2 & V2 & S2 & P2 & _ & E2 & _).
    destruct (put_bytes_spec v2 FGHIJ Hwf2)
      as (v3 & H3 & Hwf3 & S3 & V3 & P3 & _ & E3 & _).
    rewrite E2 in V3, P3. rewrite app_nil_r in V3.
    rewrite V2, S1 in V3. rewrite S2, S1 in S3. rewrite P2 in P3.
    cbn [app] in P3.
    destruct (get_bytes_spec v3 n Hwf3)
      as (v4 & H4 & Hwf4 & V4 & S4 & P4 & _ & E4 & _).
    rewrite V3 in H4, V4, S4. rewrite S3 in S4.
    exists v1, v2, v3, v4. split_and!; try done.
    intros Hn.
    assert (visible v4 = []) as V4' by (rewrite V4; by apply drop_ge).
    assert (stored v4 = FGHIJ) as S4'.
    { rewrite S4. replace (n `min` length ABCDE) with 5 by (cbn; lia). done. }
    split_and!.
    + intros ms. destruct (get_all_spec v4 ms Hwf4) as (v5 & Hg & _).
      exists v5, (chunks ms (visible v4)). split; [done|].
      rewrite V4'. apply chunks_nil.
    + destruct (step_end_mark_spec v4 Hwf4) as (v5 & H5 & Hwf5 & V5 & _).
      rewrite E4, E3, E2, S4' in V5. exists v5. split; [done|]. intros m.
      destruct (get_bytes_spec v5 m Hwf5) as (v6 & H6 & _).
      exists v6. by rewrite H6, V5.
    + destruct (clear_end_mark_spec v4 Hwf4) as (v5 & H5 & Hwf5 & V5 & _).
      rewrite S4' in V5. exists v5. split; [done|]. intros m.
      destruct (get_bytes_spec v5 m Hwf5) as (v6 & H6 & _).
      exists v6. by rewrite H6, V5.
  - intros v. unfold vio_fifo_set_get_end. cbn [p_get_end set_p_get_end].
    case_bool_decide as Hq; destruct (p_end v); cbn [get_end_of];
      split; try done; intros [? ?]; done.
Qed.

(** ** Lumps: the spare and the embedded one *)

Lemma wf_mem_perm v b :
  wf_mem v → base v ≡ₚ b → wf_mem (set_base v b).
Proof.
  intros [Mz Md Mn Ma Mo Mf] Hp. unfold lumps in *.
  assert (b ++ option_list (spare v) ≡ₚ base v ++ option_list (spare v)) as Hq
    by (by rewrite Hp).
  constructor; unfold lumps in *;
    cbn [base size spare allocated freed set_base]; try done.
  - by rewrite Hq.
  - unfold addrs. by rewrite Hq.
  - unfold addrs. by rewrite Hq.
  - unfold addrs. by rewrite Hq.
Qed.

(** [vio_fifo_add_lump] at a full tail lump takes the spare when there is
    one, and allocates only when there is none. *)
Lemma add_lump_reuse v :
  wf v → (put_ptr v).2 = size v →
  ∃ v', vio_fifo_add_lump v = Some v' ∧ spare v' = None ∧ freed v' = freed v
        ∧ match spare v with
          | Some sp => base v' = base v ++ [sp] ∧ allocated v' = allocated v
          | None =>
              base v' = base v ++ [Lump (S (allocated v)) (fresh_data (size v))]
              ∧ allocated v' = S (allocated v)
          end.
Proof.
  intros [Hm Hc Hs] Hfull.
  assert (deref_start v ≠ Some (put_ptr v)) as Hne.
  { intros Hd. destruct (wf_empty v Hs Hd). pose proof (wf_size v Hm). lia. }
  unfold vio_fifo_add_lump.
  rewrite (wf_put_end v Hc). unfold ptr_eqb, optr_eqb, lump_end_ptr.
  assert (put_ptr v = ((put_ptr v).1, size v)) as Hpf.
  { rewrite <- Hfull. by destruct (put_ptr v). }
  rewrite (bool_decide_eq_true_2 _ Hpf).
  rewrite bool_decide_eq_false_2 by done. cbn [assert negb mbind option_bind].
  destruct (spare v) as [sp|].
  - exists (grown (set_spare v None) sp). split; [unfold grown; reflexivity|].
    destruct (grown_fields (set_spare v None) sp)
      as (Fb & _ & _ & _ & _ & Fsp & Fal & Ffr & _).
    rewrite Fb, Fsp, Fal, Ffr. repeat split.
  - exists (grown (set_allocated (set_spare v None) (S (allocated v)))
              (Lump (S (allocated v)) (fresh_data (size v)))).
    split; [unfold grown; reflexivity|].
    destruct (grown_fields (set_allocated (set_spare v None) (S (allocated v)))
                (Lump (S (allocated v)) (fresh_data (size v))))
      as (Fb & _ & _ & _ & _ & Fsp & Fal & Ffr & _).
    rewrite Fb, Fsp, Fal, Ffr. repeat split.
Qed.

Lemma release_lump_cases v l v' :
  vio_fifo_release_lump v (Some l) = Some v' →
  match spare v with
  | None => spare v' = Some l ∧ freed v' = freed v
  | Some sp =>
      if bool_decide (lump_addr l = own_lump)
      then spare v' = Some l ∧ freed v' = lump_addr sp :: freed v
      else spare v' = Some sp ∧ freed v' = lump_addr l :: freed v
  end.
Proof.
  intros Hr. unfold vio_fifo_release_lump in Hr.
  cbn [mbind option_bind] in Hr.
  destruct (bool_decide (lump_addr l = get_lump v)); [done|].
  destruct (bool_decide (lump_addr l = end_lump v)); [done|].
  cbn [assert negb mbind option_bind] in Hr.
  destruct (spare v) as [sp|] eqn:Hsp;
    [destruct (bool_decide (lump_addr l = own_lump))|];
    injection Hr as <-; cbn [spare freed set_spare set_freed]; by rewrite ?Hsp.
Qed.


(** ** The empty FIFO *)

(** The runs of C5.  130 bytes are put into a FIFO of 128-byte lumps and
    [vio_fifo_skip_to_end] is called: the FIFO is empty, and its list has
    two lumps. *)
Lemma skip_run :
  (v ← vio_fifo_put_bytes (vio_fifo_new false 128) (replicate 130 x41);
   v ← vio_fifo_skip_to_end v;
   Some (optr_eqb (deref_start v) (Some (put_ptr v)), length (base v)))
  = Some (true, 2).
Proof. vm_compute. reflexivity. Qed.

(** ABCDE is put and five bytes are got: the FIFO is empty, no mark is
    set, and [hold_ptr] and [end_ptr] point at the lump. *)
Lemma drain_run :
  (v ← vio_fifo_put_bytes (vio_fifo_new false 128) ABCDE;
   r ← vio_fifo_get_bytes v 5;
   Some (optr_eqb (deref_start r.1) (Some (put_ptr r.1)), p_start r.1,
         p_end r.1, hold_ptr r.1, end_ptr r.1))
  = Some (true, StartGet, EndPut, Some (own_lump, 0), Some (own_lump, 0)).
Proof. vm_compute. reflexivity. Qed.




(** ** Descriptors *)





(** ** Copy *)

Lemma lump_size_idem debug n :
  lump_size debug (lump_size debug n) = lump_size debug n.
Proof.
  unfold lump_size. destruct debug; [done|].
  set (m := if bool_decide (n = 0) then VIO_FIFO_DEFAULT_LUMP_SIZE else n).
  assert (0 < m) as Hm.
  { subst m. destruct (bool_decide (n = 0)) eqn:E;
      [unfold VIO_FIFO_DEFAULT_LUMP_SIZE; lia
      |apply bool_decide_eq_false in E; lia]. }
  set (k := (m + 128 - 1) / 128).
  assert (0 < k) as Hk.
  { subst k. apply Nat.div_str_pos. lia. }
  rewrite bool_decide_eq_false_2 by lia.
  replace (k * 128 + 128 - 1) with (k * 128 + 127) by lia.
  rewrite Nat.div_add_l by lia. rewrite (Nat.div_small 127 128) by lia. lia.
Qed.



(** C10 ([vio_fifo_copy_tail]).  For [src] in a state of the invariant
    and [dst] NULL, or another FIFO in a state of the invariant: the call
    returns the address [d] of a FIFO, which is [dst], or a new FIFO made
    with [vio_fifo_new (src->size)] before the end mark of [src] is looked
    at.  With no end mark in [src] the destination is left as it is (a
    new one is empty); with an end mark it has had the bytes of [src] from
    the end mark to PUT appended.  [src] is as it was, every field of it,
    and so is every other FIFO. *)
Theorem C10_copy_tail debug st dst src s :
  st !! src = Some s → wf s →
  (∀ d, dst = Some d → d ≠ src ∧ ∃ dv, st !! d = Some dv ∧ wf dv) →
  ∃ st' d dv dv',
    vio_fifo_copy_tail debug st dst src = Some (st', d)
    ∧ st' !! src = Some s
    ∧ (∀ i, i ≠ d → i < length st → st' !! i = st !! i)
    ∧ st' !! d = Some dv'
    ∧ match dst with
      | Some d0 => d = d0 ∧ st !! d0 = Some dv
      | None =>
          d = length st ∧ dv = vio_fifo_new debug (size s)
          ∧ size dv = lump_size debug (size s)
          ∧ (p_end s = EndPut → stored dv' = [] ∧ visible dv' = [])
      end
    ∧ match p_end s with
      | EndPut => dv' = dv
      | EndEnd =>
          wf dv' ∧ stored dv' = stored dv ++ pending s ∧ size dv' = size dv
      end.
Proof.
  intros Hs Hwf Hdst.
  destruct (copy_tail_spec debug st dst src s Hs Hwf Hdst)
    as (st0 & d & dv & dv' & Hc & Hst0 & Hd & Hne & Hcase).
  pose proof (lookup_lt_Some _ _ _ Hs) as Hlt.
  pose proof (lookup_lt_Some _ _ _ Hd) as Hdl.
  exists (<[d := dv']> st0), d, dv, dv'. split_and!; try done.
  - rewrite list_lookup_insert_ne by done.
    destruct dst; destruct Hst0 as [-> _]; [done|]. by rewrite lookup_app_l.
  - intros i Hi Hil. rewrite list_lookup_insert_ne by done.
    destruct dst; destruct Hst0 as [-> _]; [done|]. by rewrite lookup_app_l.
  - by apply list_lookup_insert_eq.
  - destruct dst as [d0|]; destruct Hst0 as [-> ->]; [done|].
    rewrite lookup_app_r in Hd by lia. rewrite Nat.sub_diag in Hd.
    injection Hd as <-. split_and!; try done.
    intros Hpe. rewrite Hpe in Hcase. subst dv'.
    by destruct (new_contents debug (size s)) as (? & ? & _).
  - destruct (p_end s); [done|].
    by destruct Hcase as (? & ? & _ & _ & _ & ?).
Qed.

Lemma C10_copy_tail_witness :
  [vio_fifo_new false 128] !! 0 = Some (vio_fifo_new false 128)
  ∧ wf (vio_fifo_new false 128)
  ∧ ∃ st' d dv',
      vio_fifo_copy_tail false [vio_fifo_new false 128] None 0 = Some (st', d)
      ∧ st' !! 0 = Some (vio_fifo_new false 128)
      ∧ st' !! d = Some dv' ∧ d = 1.
Proof.
  split; [reflexivity|]. split; [apply new_wf|].
  destruct (C10_copy_tail false [vio_fifo_new false 128] None 0
              (vio_fifo_new false 128) eq_refl (new_wf false 128))
    as (st' & d & dv & dv' & Hc & Hs & _ & Hd & (Hl & _) & _).
  { intros d Hd. discriminate Hd. }
  exists st', d, dv'.
  split; [exact Hc|]. split; [exact Hs|]. split; [exact Hd|exact Hl].
Defined.

Lemma C3_back_to_end_mark_witness :
  wf (vio_fifo_new false 128) ∧ hold_ok (vio_fifo_new false 128)
  ∧ ∃ v1 v2 v3,
      vio_fifo_set_end_mark (vio_fifo_new false 128) = Some v1
      ∧ vio_fifo_put_bytes v1 ABCDE = Some v2
      ∧ vio_fifo_back_to_end_mark v2 true = Some v3
      ∧ pending v2 = ABCDE ∧ stored v3 = visible v1 ∧ pending v3 = [].
Proof.
  split; [apply new_wf|]. split; [exact I|].
  destruct (C3_back_to_end_mark (vio_fifo_new false 128) ABCDE true
              (new_wf false 128) I)
    as (v1 & v2 & v3 & H1 & H2 & H3 & _ & _ & P2 & _ & _ & S3 & P3 & _).
  exists v1, v2, v3. repeat split; assumption.
Defined.



(** * Further properties of the operations *)

(** ** Put and get *)

Lemma stored_split v : wf v → stored v = visible v ++ pending v.
Proof.
  intros [Hm Hc _]. pose proof (wf_pos v Hm Hc) as (? & ? & _).
  unfold stored, visible, pending. by rewrite slice_app.
Qed.

Lemma lump_size_round n :
  0 < n → n ≤ lump_size false n < n + 128 ∧ lump_size false n mod 128 = 0.
Proof.
  intros Hn. unfold lump_size.
  rewrite bool_decide_eq_false_2 by lia.
  pose proof (Nat.div_mod_eq (n + 128 - 1) 128) as Hd.
  pose proof (Nat.mod_upper_bound (n + 128 - 1) 128) as Hu.
  split; [lia|]. by rewrite Nat.Div0.mod_mul.
Qed.


(** X2 ([vio_fifo_put_bytes]).  From every state of the invariant the call
    returns and the bytes are appended to what the FIFO stores, in order,
    across as many lumps as they need.  With no end mark they are visible
    at once; with an end mark set they are pending: the visible bytes stay
    as they were.  No mark is changed. *)
Theorem put_bytes_appends v src :
  wf v →
  ∃ v', vio_fifo_put_bytes v src = Some v' ∧ wf v'
        ∧ stored v' = stored v ++ src
        ∧ visible v' = visible v
                       ++ (match p_end v with EndPut => src | EndEnd => [] end)
        ∧ pending v' = (match p_end v with
                        | EndPut => []
                        | EndEnd => pending v ++ src
                        end)
        ∧ p_start v' = p_start v ∧ p_end v' = p_end v ∧ size v' = size v.
Proof.
  intros Hwf.
  destruct (put_bytes_spec v src Hwf)
    as (v' & H1 & H2 & H3 & H4 & H5 & H6 & H7 & H8 & _).
  exists v'. by split_and!.
Qed.

Lemma put_bytes_appends_witness :
  wf (vio_fifo_new false 128)
  ∧ ∃ v', vio_fifo_put_bytes (vio_fifo_new false 128) HELLOWORLD = Some v'
          ∧ stored v' = stored (vio_fifo_new false 128) ++ HELLOWORLD.
Proof.
  split; [apply new_wf|].
  destruct (put_bytes_appends (vio_fifo_new false 128) HELLOWORLD
              (new_wf false 128)) as (v' & H1 & _ & H3 & _).
  exists v'. split; assumption.
Defined.

Lemma get_bytes_rest v n :
  wf v →
  take n (visible v) ++ drop (n `min` length (visible v)) (stored v) = stored v.
Proof.
  intros Hwf. rewrite (stored_split v Hwf).
  destruct (decide (n ≤ length (visible v))) as [Hn|Hn].
  - rewrite Nat.min_l by done. rewrite drop_app_le by done.
    by rewrite app_assoc, take_drop.
  - rewrite Nat.min_r by lia. rewrite take_ge by lia.
    by rewrite drop_app_length.
Qed.

(** Nothing visible: a get returns at once. *)
Lemma get_bytes_empty v n :
  wf v → visible v = [] → vio_fifo_get_bytes v n = Some (v, []).
Proof.
  intros [Hm Hc _] Hv. unfold vio_fifo_get_bytes.
  destruct n as [|n]; [done|]. cbn [get_bytes_loop].
  rewrite (deref_get_end_spec v Hc). cbn [mbind option_bind].
  pose proof (get_end_off_bounds v Hm Hc) as (Hb1 & Hb2 & Hb3).
  destruct (visible_take v Hm Hc) as [_ Hl]. rewrite Hv in Hl. simpl in Hl.
  destruct Hc as [H1 H2 H3 H4 H5 H6 H7 H8 H9 H10].
  unfold ptr_sub. cbn [fst snd]. rewrite H3.
  rewrite (bool_decide_eq_true_2 (get_lump v = get_lump v)) by done.
  rewrite (bool_decide_eq_true_2 _ Hb1). cbn [andb mbind option_bind].
  assert (get_end_off v - (get_ptr v).2 = 0) as -> by lia.
  rewrite (bool_decide_eq_false_2 (S n < 0)) by lia. done.
Qed.

(** X3 ([vio_fifo_get_bytes]).  From every state of the invariant a call
    for [n] bytes returns the first [n] visible bytes, all of them when
    fewer are visible, and never a byte put after the end mark; the bytes
    returned leave the FIFO, the others stay in their order, and no mark is
    changed.  With nothing visible the call returns no byte and leaves the
    FIFO exactly as it was. *)
Theorem get_bytes_takes_visible v n :
  wf v →
  ∃ v', vio_fifo_get_bytes v n = Some (v', take n (visible v)) ∧ wf v'
        ∧ visible v' = drop n (visible v)
        ∧ take n (visible v) ++ stored v' = stored v
        ∧ pending v' = pending v
        ∧ p_start v' = p_start v ∧ p_end v' = p_end v ∧ size v' = size v
        ∧ (visible v = [] → v' = v).
Proof.
  intros Hwf.
  destruct (get_bytes_spec v n Hwf)
    as (v' & H1 & H2 & H3 & H4 & H5 & H6 & H7 & H8).
  exists v'. split_and!; try done.
  - rewrite H4. by apply get_bytes_rest.
  - intros Hv. rewrite (get_bytes_empty v n Hwf Hv) in H1. congruence.
Qed.

Lemma get_bytes_takes_visible_witness :
  wf (vio_fifo_new false 128)
  ∧ ∃ v', vio_fifo_get_bytes (vio_fifo_new false 128) 7
          = Some (v', take 7 (visible (vio_fifo_new false 128)))
          ∧ take 7 (visible (vio_fifo_new false 128)) ++ stored v'
            = stored (vio_fifo_new false 128).
Proof.
  split; [apply new_wf|].
  destruct (get_bytes_takes_visible (vio_fifo_new false 128) 7
              (new_wf false 128)) as (v' & H1 & _ & _ & H4 & _).
  exists v'. split; assumption.
Defined.

(** X4 (first in, first out).  Whatever the order of the
    [vio_fifo_put_bytes] and [vio_fifo_get_bytes] calls made on a FIFO of
    the invariant, every call returns, and the bytes got followed by the
    bytes still stored are the bytes stored at first followed by the bytes
    put: no byte is lost, repeated or out of order. *)
Theorem put_get_any_order v l :
  wf v →
  ∃ v' out, run_io v l = Some (v', out) ∧ wf v'
            ∧ out ++ stored v' = stored v ++ io_put l
            ∧ p_start v' = p_start v ∧ p_end v' = p_end v ∧ size v' = size v.
Proof.
  revert v. induction l as [|[bs|n] l IH]; intros v Hwf.
  - exists v, []. simpl. by rewrite app_nil_r.
  - destruct (put_bytes_spec v bs Hwf)
      as (v1 & H1 & Hwf1 & S1 & _ & _ & A1 & B1 & C1 & _).
    destruct (IH v1 Hwf1) as (v' & out & Hr & Hwf' & Hs & A & B & C).
    exists v', out. simpl. rewrite H1. simpl. split_and!; try congruence.
    by rewrite Hs, S1, app_assoc.
  - destruct (get_bytes_spec v n Hwf)
      as (v1 & H1 & Hwf1 & _ & S1 & _ & A1 & B1 & C1).
    pose proof (get_bytes_rest v n Hwf) as Hrest. rewrite <- S1 in Hrest.
    destruct (IH v1 Hwf1) as (v' & out & Hr & Hwf' & Hs & A & B & C).
    exists v', (take n (visible v) ++ out). simpl. rewrite H1. simpl.
    rewrite Hr. simpl. split_and!; try congruence.
    by rewrite <- app_assoc, Hs, app_assoc, Hrest.
Qed.

Lemma put_get_any_order_witness :
  wf (vio_fifo_new false 128)
  ∧ ∃ v' out,
      run_io (vio_fifo_new false 128)
        [IoPut ABCDE; IoGet 3; IoPut FGHIJ; IoGet 4] = Some (v', out)
      ∧ out ++ stored v' = stored (vio_fifo_new false 128) ++ ABCDE ++ FGHIJ.
Proof.
  split; [apply new_wf|].
  destruct (put_get_any_order (vio_fifo_new false 128)
              [IoPut ABCDE; IoGet 3; IoPut FGHIJ; IoGet 4] (new_wf false 128))
    as (v' & out & H1 & _ & H3 & _).
  exists v', out. split; [exact H1|exact H3].
Defined.

(** ** Hold mark *)

Lemma set_hold_mark_ptr v v' :
  wf v → vio_fifo_set_hold_mark v = Some v' →
  hold_ptr v' = Some (get_ptr v')
  ∧ base v' = drop (ix v (get_lump v)) (base v).
Proof.
  intros Hwf. unfold vio_fifo_set_hold_mark.
  destruct (release_upto_get v Hwf)
    as (u & -> & Hm & Hc & Hi0 & Hb & Hsame & _).
  cbn [mbind option_bind]. unfold ptr_eqb.
  case_bool_decide as Hq.
  - unfold vio_fifo_reset_ptrs. destruct (ddl_tail (base u)) as [t|]; [|done].
    cbn [mbind option_bind]. intros [= <-]. by split.
  - cbn [mbind option_bind]. intros [= <-]. by split.
Qed.

Lemma clear_hold_mark_base v v' :
  wf v → vio_fifo_clear_hold_mark v = Some v' →
  base v' = drop (ix v (get_lump v)) (base v).
Proof.
  intros Hwf. unfold vio_fifo_clear_hold_mark.
  destruct (release_upto_get v Hwf)
    as (u & -> & Hm & Hc & Hi0 & Hb & Hsame & _).
  cbn [mbind option_bind]. unfold ptr_eqb.
  case_bool_decide as Hq.
  - unfold vio_fifo_reset_ptrs. destruct (ddl_tail (base u)) as [t|]; [|done].
    cbn [mbind option_bind]. by intros [= <-].
  - cbn [mbind option_bind]. by intros [= <-].
Qed.

(** X5 ([vio_fifo_set_hold_mark], [vio_fifo_clear_hold_mark]).  From every
    state of the invariant both calls return, and neither changes the
    bytes visible, stored or pending, nor the end mark.  Both release the
    lumps before GET's lump: the list is left starting at GET's lump.
    After [vio_fifo_set_hold_mark] the hold mark is set and [hold_ptr] is
    [get_ptr]; after [vio_fifo_clear_hold_mark] no hold mark is set. *)
Theorem hold_mark_set_clear v :
  wf v →
  (∃ v', vio_fifo_set_hold_mark v = Some v' ∧ wf v'
         ∧ p_start v' = StartHold ∧ hold_ptr v' = Some (get_ptr v')
         ∧ base v' = drop (ix v (get_lump v)) (base v)
         ∧ visible v' = visible v ∧ stored v' = stored v
         ∧ pending v' = pending v ∧ p_end v' = p_end v ∧ size v' = size v)
  ∧ (∃ v', vio_fifo_clear_hold_mark v = Some v' ∧ wf v'
           ∧ p_start v' = StartGet
           ∧ base v' = drop (ix v (get_lump v)) (base v)
           ∧ visible v' = visible v ∧ stored v' = stored v
           ∧ pending v' = pending v ∧ p_end v' = p_end v ∧ size v' = size v).
Proof.
  intros Hwf. split.
  - destruct (set_hold_mark_spec v Hwf)
      as (v' & H1 & H2 & _ & H4 & H5 & H6 & _ & H8 & H9 & H10).
    destruct (set_hold_mark_ptr v v' Hwf H1) as [Hh Hb].
    exists v'. by split_and!.
  - destruct (clear_hold_mark_spec v Hwf)
      as (v' & H1 & H2 & _ & H4 & H5 & H6 & _ & H8 & H9 & H10).
    pose proof (clear_hold_mark_base v v' Hwf H1) as Hb.
    exists v'. by split_and!.
Qed.

Lemma hold_mark_set_clear_witness :
  wf (vio_fifo_new false 128)
  ∧ (∃ v', vio_fifo_set_hold_mark (vio_fifo_new false 128) = Some v'
           ∧ p_start v' = StartHold ∧ hold_ptr v' = Some (get_ptr v'))
  ∧ (∃ v', vio_fifo_clear_hold_mark (vio_fifo_new false 128) = Some v'
           ∧ p_start v' = StartGet).
Proof.
  split; [apply new_wf|].
  destruct (hold_mark_set_clear (vio_fifo_new false 128) (new_wf false 128))
    as [(v1 & H1 & _ & H2 & H3 & _) (v2 & H4 & _ & H5 & _)].
  split; [exists v1|exists v2]; repeat split; assumption.
Defined.

(** X6 ([vio_fifo_back_to_hold_mark]).  With a hold mark set, the call
    puts GET at the start of the head lump, whatever [hold_ptr] is: the
    visible bytes are then all the bytes of the list from the start of
    the head lump to the end of the visible data, the bytes before the
    hold mark in that lump included.  The list, PUT, [hold_ptr], the
    pending bytes and the end mark are unchanged and the hold mark is left
    set or cleared as asked.  With no hold mark, and asked to leave none,
    the call changes no cursor. *)
Theorem back_to_hold_mark_head v set :
  wf v →
  match p_start v with
  | StartHold =>
      ∃ v' h, vio_fifo_back_to_hold_mark v set = Some v' ∧ wf v'
              ∧ ddl_head (base v) = Some h
              ∧ get_ptr v' = lump_data_ptr h
              ∧ visible v' = take (end_pos v) (flat (base v))
              ∧ base v' = base v ∧ put_ptr v' = put_ptr v
              ∧ hold_ptr v' = hold_ptr v ∧ pending v' = pending v
              ∧ p_start v' = (if set then StartHold else StartGet)
              ∧ p_end v' = p_end v ∧ size v' = size v
  | StartGet =>
      ∃ v', vio_fifo_back_to_hold_mark v false = Some v' ∧ wf v'
            ∧ same_cursors v v'
  end.
Proof.
  intros Hwf. destruct (p_start v) eqn:Hps.
  - by apply back_to_hold_mark_none.
  - destruct (back_to_hold_mark_spec v set Hwf Hps)
      as (v' & h & H1 & H2 & H3 & H4 & _ & H6 & H7 & H8 & H9 & H10 & H11
          & H12 & H13).
    exists v', h. by split_and!.
Qed.

Lemma back_to_hold_mark_head_witness :
  wf (vio_fifo_new false 128)
  ∧ ∃ v', vio_fifo_back_to_hold_mark (vio_fifo_new false 128) false = Some v'
          ∧ same_cursors (vio_fifo_new false 128) v'.
Proof.
  split; [apply new_wf|].
  destruct (back_to_hold_mark_head (vio_fifo_new false 128) false
              (new_wf false 128)) as (v' & H1 & _ & H2).
  exists v'. split; assumption.
Defined.

(** ** Clear *)

(** X7 ([vio_fifo_clear]).  From a state of the invariant the call
    completes exactly when GET's lump is the tail lump: otherwise
    [vio_fifo_release_upto] hands GET's lump to [vio_fifo_release_lump],
    whose assert fails.  When it completes, the FIFO is empty, with one
    lump and every cursor at its start; the marks are cleared when asked
    and kept when not; the lump size stays. *)
Theorem clear_needs_get_in_tail v clear_marks :
  wf v →
  (is_Some (vio_fifo_clear v clear_marks)
   ↔ addr_of (ddl_tail (base v)) = Some (get_lump v))
  ∧ ∀ v', vio_fifo_clear v clear_marks = Some v' →
      wf v' ∧ (∃ t, at_start v' t)
      ∧ stored v' = [] ∧ visible v' = [] ∧ pending v' = []
      ∧ p_start v' = (if clear_marks then StartGet else p_start v)
      ∧ p_end v' = (if clear_marks then EndPut else p_end v)
      ∧ size v' = size v.
Proof.
  intros Hwf. pose proof Hwf as [Hm Hc _].
  destruct (ddl_tail_put v Hc) as (t & Ht & Hta).
  unfold addr_of. rewrite Ht. simpl. rewrite Hta. split.
  - split.
    + intros [v' Hv']. destruct (clear_spec v clear_marks v' Hwf Hv') as [Hg _].
      by rewrite Hg.
    + intros [= Hg]. by apply clear_total.
  - intros v' Hv'.
    destruct (clear_spec v clear_marks v' Hwf Hv')
      as (_ & Hwf' & [t' Hat] & H1 & H2 & H3).
    destruct (at_start_contents v' t' Hat) as (? & ? & ? & _).
    split_and!; try done. by exists t'.
Qed.

Lemma clear_needs_get_in_tail_witness :
  wf (vio_fifo_new false 128)
  ∧ is_Some (vio_fifo_clear (vio_fifo_new false 128) true).
Proof.
  split; [apply new_wf|].
  destruct (clear_needs_get_in_tail (vio_fifo_new false 128) true
              (new_wf false 128)) as [[_ H] _].
  apply H. reflexivity.
Defined.

(** ** End mark *)

(** X8 ([vio_fifo_set_end_mark], [vio_fifo_step_end_mark],
    [vio_fifo_clear_end_mark]).  From every state of the invariant:
    setting the end mark makes every stored byte visible and leaves none
    pending; bytes put after that are pending and the visible bytes stay
    as they were; stepping the end mark, or clearing it, then makes them
    visible too, the first with the end mark still set and the second with
    none.  With no end mark set, stepping changes nothing. *)
Theorem end_mark_holds_back v bs :
  wf v →
  ∃ v1 v2 v3 v4,
    vio_fifo_set_end_mark v = Some v1
    ∧ visible v1 = stored v ∧ pending v1 = [] ∧ p_end v1 = EndEnd
    ∧ vio_fifo_put_bytes v1 bs = Some v2
    ∧ visible v2 = stored v ∧ pending v2 = bs
    ∧ vio_fifo_step_end_mark v2 = Some v3 ∧ wf v3
    ∧ visible v3 = stored v ++ bs ∧ pending v3 = [] ∧ p_end v3 = EndEnd
    ∧ vio_fifo_clear_end_mark v2 = Some v4 ∧ wf v4
    ∧ visible v4 = stored v ++ bs ∧ pending v4 = [] ∧ p_end v4 = EndPut
    ∧ p_start v3 = p_start v ∧ p_start v4 = p_start v
    ∧ (p_end v = EndPut → vio_fifo_step_end_mark v = Some v).
Proof.
  intros Hwf.
  destruct (set_end_mark_spec v Hwf)
    as (v1 & H1 & Hwf1 & V1 & S1 & P1 & A1 & E1 & _).
  destruct (put_bytes_spec v1 bs Hwf1)
    as (v2 & H2 & Hwf2 & S2 & V2 & P2 & A2 & E2 & _).
  rewrite E1 in V2, P2. rewrite app_nil_r in V2. rewrite P1 in P2.
  destruct (step_end_mark_spec v2 Hwf2)
    as (v3 & H3 & Hwf3 & V3 & S3 & P3 & A3 & E3 & _).
  rewrite E2, E1 in V3, P3.
  destruct (clear_end_mark_spec v2 Hwf2)
    as (v4 & H4 & Hwf4 & V4 & S4 & P4 & A4 & E4 & _).
  exists v1, v2, v3, v4. split_and!; try done; try congruence.
  intros Hpe. unfold vio_fifo_step_end_mark, vio_fifo_have_end_mark.
  rewrite bool_decide_eq_false_2; [done|]. by rewrite Hpe.
Qed.

Lemma end_mark_holds_back_witness :
  wf (vio_fifo_new false 128)
  ∧ ∃ v1 v2 v3,
      vio_fifo_set_end_mark (vio_fifo_new false 128) = Some v1
      ∧ vio_fifo_put_bytes v1 FGHIJ = Some v2
      ∧ visible v2 = stored (vio_fifo_new false 128) ∧ pending v2 = FGHIJ
      ∧ vio_fifo_step_end_mark v2 = Some v3
      ∧ visible v3 = stored (vio_fifo_new false 128) ++ FGHIJ.
Proof.
  split; [apply new_wf|].
  destruct (end_mark_holds_back (vio_fifo_new false 128) FGHIJ
              (new_wf false 128))
    as (v1 & v2 & v3 & v4 & H1 & _ & _ & _ & H2 & H3 & H4 & H5 & _ & H6 & _).
  exists v1, v2, v3. repeat split; assumption.
Defined.

(** ** Writing to a file *)

(** A turn of [vio_fifo_fwrite] that fails passes to the file a prefix of
    the visible bytes and leaves the FIFO as it was. *)
Lemma fwrite_turn_fail v e v' bs r :
  wf v → fwrite_turn v e = Some (v', bs, Some r) →
  v' = v ∧ ∃ k, bs = take k (visible v).
Proof.
  intros Hwf. pose proof Hwf as [Hm Hc Hs]. unfold fwrite_turn.
  rewrite (vio_fifo_get_spec v Hm Hc). cbn [mbind option_bind].
  set (have := get_end_off v - (get_ptr v).2).
  case_bool_decide as Hz.
  { intros [= <- <- <-]. split; [done|]. by exists 0. }
  assert (∀ n, n ≤ have →
            lump_read (base v) (vio_fifo_get_ptr v) n
            = Some (take n (visible v))) as Hrd.
  { intros n Hn. unfold vio_fifo_get_ptr. apply lump_read_visible; try done. }
  destruct e as [[n|]|]; cbn [fwrite].
  - case_bool_decide as Hle.
    + rewrite Hrd by done. cbn [mbind option_bind].
      rewrite bool_decide_eq_false_2 by lia.
      destruct (vio_fifo_step v have); [|done]. cbn [mbind option_bind]. done.
    + rewrite Hrd by lia. cbn [mbind option_bind].
      rewrite bool_decide_eq_true_2 by lia.
      intros [= <- <- <-]. split; [done|]. by exists n.
  - rewrite Hrd by lia. cbn [mbind option_bind].
    rewrite bool_decide_eq_true_2 by lia.
    intros [= <- <- <-]. split; [done|]. by exists 0.
  - rewrite Hrd by lia. cbn [mbind option_bind].
    rewrite bool_decide_eq_true_2 by lia.
    intros [= <- <- <-]. split; [done|]. by exists 0.
Qed.

Lemma fwrite_out file v v' r out file' :
  wf v → vio_fifo_fwrite v file = Some (v', r, out, file') →
  ∃ gone k, visible v = gone ++ visible v'
            ∧ stored v = gone ++ stored v'
            ∧ out = gone ++ take k (visible v').
Proof.
  revert v out. induction file as [|e file IH]; intros v out Hwf;
    cbn [vio_fifo_fwrite].
  - destruct (fwrite_turn_spec v None Hwf)
      as (v1 & bs & r1 & Ht & Hwf1 & _ & _ & _ & _ & Hr).
    cbn [head]. rewrite Ht. cbn [mbind option_bind].
    destruct r1 as [r1|]; [|by destruct Hr as (_ & _ & _ & n & ?)].
    intros [= <- <- <- <-].
    destruct (fwrite_turn_fail v None v1 bs r1 Hwf Ht) as [-> [k ->]].
    by exists [], k.
  - destruct (fwrite_turn_spec v (Some e) Hwf)
      as (v1 & bs & r1 & Ht & Hwf1 & _ & _ & _ & P1 & Hr).
    cbn [head]. rewrite Ht. cbn [mbind option_bind].
    destruct r1 as [r1|].
    + intros [= <- <- <- <-].
      destruct (fwrite_turn_fail v (Some e) v1 bs r1 Hwf Ht) as [-> [k ->]].
      by exists [], k.
    + destruct Hr as (V & _).
      destruct (vio_fifo_fwrite v1 file) as [[[[v2 r2] out2] f2]|] eqn:Hf;
        [|done].
      cbn [mbind option_bind]. intros [= <- <- <- <-].
      destruct (IH v1 out2 Hwf1 Hf) as (gone & k & Hv & Hs & ->).
      exists (bs ++ gone), k. rewrite <- !app_assoc. split_and!; try done.
      * by rewrite V, Hv.
      * rewrite (stored_split v Hwf), V, <- P1, <- app_assoc.
        by rewrite <- (stored_split v1 Hwf1), Hs.
Qed.



(** ** The states a FIFO goes through *)







(** ** Skip to the end *)

Lemma deref_end_eff v : wf_cur v → deref_end v = Some (eff_end v).
Proof.
  intros Hc. unfold eff_end, deref_end.
  destruct Hc as [_ _ _ _ _ _ He _ _ _].
  destruct (p_end v); [done|]. by destruct He as (e & -> & _).
Qed.

Lemma skipped_cur v :
  wf_mem v → wf_cur v →
  wf_cur (skipped v) ∧ visible (skipped v) = []
  ∧ stored (skipped v) = pending v ∧ pending (skipped v) = pending v.
Proof.
  intros Hm Hc. pose proof (wf_eff_end v Hc) as He1.
  split.
  - destruct Hc as [H1 H2 H3 H4 H5 H6 H7 H8 H9 H10].
    constructor; try done.
    + simpl. by rewrite bool_decide_eq_true_2.
    + apply lex_le_refl.
  - unfold visible, stored, pending, get_pos, end_pos, put_pos.
    split_and!; try done. apply slice_nil. done.
Qed.

Lemma single_lump v a :
  wf_mem v → wf_cur v → a ∈ addrs (base v) → ix v (put_ptr v).1 = 0 →
  ∃ t, base v = [t] ∧ lump_addr t = a ∧ (put_ptr v).1 = a.
Proof.
  intros Hm Hc Ha Hi. pose proof (wf_order v Hm Hc) as (_ & _ & Hl).
  pose proof (wf_put_in v Hc) as Hp.
  rewrite Hi in Hl. destruct (base v) as [|t [|]] eqn:Hb; try done.
  exists t. simpl in Ha, Hp.
  apply list_elem_of_singleton in Ha. apply list_elem_of_singleton in Hp.
  split_and!; congruence.
Qed.

Lemma skip_to_end_spec v :
  wf v →
  ∃ v', vio_fifo_skip_to_end v = Some v'
        ∧ wf_mem v' ∧ wf_cur v'
        ∧ visible v' = [] ∧ stored v' = pending v ∧ pending v' = pending v
        ∧ base v' = base v ∧ spare v' = spare v ∧ freed v' = freed v
        ∧ get_lump v' = end_lump v
        ∧ p_start v' = p_start v ∧ p_end v' = p_end v ∧ size v' = size v
        ∧ (p_start v = StartHold ∨ get_lump v = end_lump v → wf v')
        ∧ (p_start v = StartGet → get_lump v ≠ end_lump v →
           ix v' (get_lump v') ≠ 0 ∧ ¬ wf v').
Proof.
  intros Hwf. pose proof Hwf as [Hm Hc Hs].
  unfold vio_fifo_skip_to_end.
  replace (deref_end (set_get_lump v (end_lump v))) with (deref_end v) by done.
  rewrite (deref_end_eff v Hc). cbn [mbind option_bind].
  change (set_p_get_end _ _) with (skipped v).
  destruct (skipped_cur v Hm Hc) as (Hc' & V' & S' & P').
  assert (wf_mem (skipped v)) as Hm' by (by apply (wf_mem_same v)).
  pose proof (wf_eff_end v Hc) as He1.
  pose proof (wf_order v Hm Hc) as (Ho1 & Ho2 & Ho3).
  assert (p_start v = StartGet → get_lump v ≠ end_lump v →
          ix v (end_lump v) ≠ 0) as Hbad.
  { intros Hps Hne Hi. destruct Hs as [Hh _]. rewrite Hps in Hh.
    apply Hne. apply (lump_index_inj _ _ (base v)).
    - by destruct Hc.
    - unfold ix in *. congruence. }
  unfold vio_fifo_sync_get.
  rewrite (bool_decide_eq_true_2 (get_lump (skipped v) = end_lump (skipped v)))
    by done.
  unfold optr_eqb. case_bool_decide as Hq.
  - (* empty: the pointers are reset, to the start of the tail lump *)
    destruct (ddl_tail_put v Hc) as (t & Ht & Hta).
    unfold vio_fifo_reset_ptrs.
    replace (base (skipped v)) with (base v) by done. rewrite Ht.
    cbn [mbind option_bind].
    assert (end_lump v = (put_ptr v).1 ∧ pending v = []) as [Hel Hpn].
    { unfold deref_start in Hq. simpl in Hq.
      destruct (p_start v) eqn:Hps.
      - assert (eff_end v = put_ptr v) as Hep by congruence.
        split; [by rewrite <- He1, Hep|]. by apply eff_end_at_put.
      - assert (deref_start v = Some (put_ptr v)) as Hd.
        { unfold deref_start. by rewrite Hps. }
        destruct (wf_empty_at_start v Hwf Hd) as [t' Hat].
        destruct (at_start_contents v t' Hat) as (_ & _ & ? & _).
        split; [|done]. destruct Hat as [_ _ -> _ -> _ _ _ _]. done. }
    eexists. split; [done|].
    set (v' := set_put_ptr _ _).
    assert (wf_mem v') as Hmv by (by apply (wf_mem_same v)).
    assert (wf_cur v') as Hcv.
    { destruct Hc as [H1 H2 H3 H4 H5 H6 H7 H8 H9 H10].
      constructor; subst v'; simpl; try done.
      - congruence.
      - by rewrite H4, Hta.
      - rewrite H5. unfold lump_end_ptr. simpl. by rewrite Hta.
      - lia.
      - destruct (p_end v); simpl; [congruence|].
        exists (lump_data_ptr t). split_and!; try done; [simpl; congruence|].
        apply lex_le_refl.
      - by rewrite bool_decide_eq_true_2.
      - unfold eff_end, deref_end. simpl. destruct (p_end v); apply lex_le_refl. }
    assert (visible v' = [] ∧ stored v' = [] ∧ pending v' = []) as (? & ? & ?).
    { destruct (contents_at_put v') as (? & ? & ? & _); try done.
      - unfold eff_end, deref_end. subst v'. simpl. by destruct (p_end v).
      - subst v'. simpl. congruence. }
    split_and!; try done; try congruence.
    + intros Hor.
      assert (ix v (end_lump v) = 0) as Hi0.
      { destruct Hor as [Hps|Hge].
        - assert (deref_start v = Some (put_ptr v)) as Hd.
          { unfold deref_start in *. simpl in Hq. by rewrite Hps in *. }
          destruct Hs as [_ Hemp]. destruct (Hemp Hd) as [Hl _].
          rewrite Hl in Ho3. lia.
        - destruct Hs as [Hh Hemp]. destruct (p_start v) eqn:Hps.
          + by rewrite <- Hge.
          + assert (deref_start v = Some (put_ptr v)) as Hd.
            { unfold deref_start in *. simpl in Hq. by rewrite Hps in *. }
            destruct (Hemp Hd) as [Hl _]. rewrite Hl in Ho3. lia. }
      destruct (single_lump v (end_lump v) Hm Hc) as (t1 & Hb1 & Ht1 & Hp1).
      { by destruct Hc. } { by rewrite <- Hel. }
      assert (t1 = t) as ->.
      { unfold ddl_tail in Ht. rewrite Hb1 in Ht. simpl in Ht. congruence. }
      apply (at_start_wf v' t Hmv).
      destruct Hc as [G1 G2 G3 G4 G5 G6 G7 G8 G9 G10].
      constructor; subst v'; simpl; try done.
      * rewrite G5. unfold lump_end_ptr. by rewrite Hta.
    + intros Hps Hne. specialize (Hbad Hps Hne).
      assert (ix v' (get_lump v') ≠ 0) as Hix by done.
      split; [done|]. intros [_ _ [Hh _]].
      replace (p_start v') with (p_start v) in Hh by done.
      rewrite Hps in Hh. done.
  - (* not empty: the state is left as it is *)
    eexists. split; [done|].
    split_and!; try done.
    + intros Hor. constructor; try done.
      destruct Hs as [Hh Hemp]. constructor.
      * replace (p_start (skipped v)) with (p_start v) by done.
        destruct (p_start v) eqn:Hps; [|done].
        destruct Hor as [?|Hge]; [done|]. unfold ix in *. simpl.
        by rewrite <- Hge.
      * intros Hd. done.
    + intros Hps Hne. specialize (Hbad Hps Hne).
      split; [done|]. intros [_ _ [Hh _]].
      replace (p_start (skipped v)) with (p_start v) in Hh by done.
      rewrite Hps in Hh. done.
Qed.

(** ** Lumps made, kept and freed *)

Lemma same_lumps_refl v : same_lumps v v.
Proof. done. Qed.

Lemma same_lumps_trans v1 v2 v3 :
  same_lumps v1 v2 → same_lumps v2 v3 → same_lumps v1 v3.
Proof. intros (? & ? & ? & ?) (? & ? & ? & ?). split_and!; congruence. Qed.

Lemma accounted_same v v' : same_lumps v v' → accounted v → accounted v'.
Proof.
  intros (Hb & Hs & Hf & Ha). unfold accounted, released.
  by rewrite Hb, Hs, Hf, Ha.
Qed.

Lemma lump_write_addrs b p bs b' :
  lump_write b p bs = Some b' → addrs b' = addrs b.
Proof.
  revert b'. induction b as [|l r IH]; intros b'; unfold lump_write; fold lump_write;
    [done|].
  case_bool_decide.
  - case_bool_decide; [|done]. by intros [= <-].
  - destruct (lump_write r p bs) as [r'|]; [|done]. simpl.
    intros [= <-]. simpl. by rewrite (IH r').
Qed.

Lemma release_lump_accounted v l v' :
  vio_fifo_release_lump v (Some l) = Some v' →
  base v' = base v ∧ allocated v' = allocated v
  ∧ released v' ≡ₚ lump_addr l :: released v.
Proof.
  unfold vio_fifo_release_lump, assert. cbn [mbind option_bind].
  destruct (bool_decide (lump_addr l = get_lump v)); [done|].
  destruct (bool_decide (lump_addr l = end_lump v)); [done|].
  cbn [negb mbind option_bind]. unfold released.
  destruct (spare v) as [sp|] eqn:Hsp.
  - case_bool_decide; intros [= <-]; simpl; rewrite ?Hsp; simpl;
      split_and!; try done.
    apply perm_swap.
  - intros [= <-]. simpl. done.
Qed.

Lemma release_upto_loop_accounted ls v upto v' :
  release_upto_loop ls v upto = Some v' → base v = ls →
  accounted v → accounted v' ∧ allocated v' = allocated v.
Proof.
  revert v. induction ls as [|l r IH]; intros v; simpl; [done|].
  case_bool_decide; [by intros [= <-]|].
  destruct (vio_fifo_release_lump (set_base v r) (Some l)) as [v1|] eqn:Hr;
    [|done].
  cbn [mbind option_bind]. intros Hl Hb Ha.
  destruct (release_lump_accounted _ _ _ Hr) as (Hb1 & Ha1 & Hp1).
  simpl in Hb1, Ha1.
  destruct (IH v1 Hl Hb1) as [? ?]; [|split; [done|congruence]].
  unfold accounted in *. rewrite Hb1, Hp1, Ha1, <- Ha, Hb. simpl.
  unfold released at 1. simpl.
  by rewrite <- Permutation_middle.
Qed.

Lemma crop_loop_accounted fuel v v' :
  crop_loop fuel v = Some v' →
  accounted v → accounted v' ∧ allocated v' = allocated v.
Proof.
  revert v. induction fuel as [|fuel IH]; intros v; simpl; [done|].
  destruct (vio_fifo_release_lump (set_base v (removelast (base v)))
              (last (base v))) as [v1|] eqn:Hr; [|done].
  cbn [mbind option_bind]. intros Hl Ha.
  destruct (last (base v)) as [l|] eqn:Hlast; [|done].
  destruct (release_lump_accounted _ _ _ Hr) as (Hb1 & Ha1 & Hp1).
  simpl in Hb1, Ha1.
  assert (accounted v1) as Hacc.
  { unfold accounted in Ha |- *. rewrite Hb1, Hp1, Ha1, <- Ha.
    unfold released at 1. simpl.
    assert (base v = removelast (base v) ++ [l]) as Hb.
    { destruct (base v) as [|x b] using rev_ind; [done|].
      rewrite last_snoc in Hlast. injection Hlast as ->.
      by rewrite removelast_last. }
    rewrite Hb at 2. unfold addrs. rewrite fmap_app. simpl.
    rewrite <- app_assoc. simpl. done. }
  destruct (negb _).
  - destruct (IH v1 Hl Hacc) as [? ?]. split; [done|congruence].
  - injection Hl as <-. done.
Qed.

Lemma reset_ptrs_lumps v v' :
  vio_fifo_reset_ptrs v = Some v' → same_lumps v v'.
Proof.
  unfold vio_fifo_reset_ptrs. destruct (ddl_tail (base v)); [|done].
  by intros [= <-].
Qed.

Lemma release_upto_accounted v upto v' :
  vio_fifo_release_upto v upto = Some v' → accounted v → accounted v'.
Proof.
  intros H Ha.
  by destruct (release_upto_loop_accounted (base v) v upto v' H eq_refl Ha).
Qed.

Lemma add_lump_accounted v v' :
  vio_fifo_add_lump v = Some v' → accounted v → accounted v'.
Proof.
  unfold vio_fifo_add_lump, assert.
  destruct (ptr_eqb (put_ptr v) (put_end v)); [|done].
  destruct (negb _); [|done]. cbn [mbind option_bind].
  unfold accounted, released.
  destruct (spare v) as [sp|] eqn:Hsp.
  - intros [= <-]. unfold vio_fifo_set_get_end, ddl_append.
    repeat match goal with |- context [if ?b then _ else _] => destruct b end;
      cbn; intros <-; unfold addrs; rewrite fmap_app, <- app_assoc; done.
  - intros [= <-] Ha. cbn -[seq] in Ha.
    unfold vio_fifo_set_get_end, ddl_append.
    repeat match goal with |- context [if ?b then _ else _] => destruct b end;
      cbn -[seq]; unfold addrs; rewrite fmap_app, <- app_assoc; cbn -[seq];
      rewrite <- Permutation_middle; unfold addrs in Ha; rewrite Ha;
      by rewrite (seq_S (S (allocated v))), <- Permutation_cons_append.
Qed.

Lemma sync_get_accounted v v' :
  vio_fifo_sync_get v = Some v' → accounted v → accounted v'.
Proof.
  unfold vio_fifo_sync_get. case_bool_decide as Hq.
  - destruct (optr_eqb _ _).
    + intros Hr%reset_ptrs_lumps. by apply accounted_same.
    + by intros [= <-].
  - destruct (ddl_next _ _) as [nl|]; [|done]. cbn [mbind option_bind].
    destruct (negb _).
    + intros Hr Ha. by apply (release_upto_accounted _ _ _ Hr).
    + by intros [= <-].
Qed.

Lemma step_accounted v k v' :
  vio_fifo_step v k = Some v' → accounted v → accounted v'.
Proof.
  unfold vio_fifo_step. destruct (deref_get_end _); [|done].
  cbn [mbind option_bind]. destruct (ptr_ge _ _) as [[|]|]; [| |done].
  - cbn [mbind option_bind]. intros H Ha.
    by apply (sync_get_accounted _ _ H).
  - cbn [mbind option_bind]. by intros [= <-].
Qed.

Lemma get_bytes_loop_accounted fuel v n v' bs :
  get_bytes_loop fuel v n = Some (v', bs) → accounted v → accounted v'.
Proof.
  revert v n bs. induction fuel as [|fuel IH]; intros v n bs;
    unfold get_bytes_loop; fold get_bytes_loop.
  - destruct n; [by intros [= <- <-]|done].
  - destruct n as [|n]; [by intros [= <- <-]|].
    destruct (deref_get_end v); [|done]. cbn [mbind option_bind].
    destruct (ptr_sub _ _) as [have|]; [|done]. cbn [mbind option_bind].
    destruct (_ && _); [by intros [= <- <-]|].
    destruct (lump_read _ _ _); [|done]. cbn [mbind option_bind].
    destruct (vio_fifo_step v _) as [v1|] eqn:Hs; [|done].
    cbn [mbind option_bind].
    destruct (get_bytes_loop fuel v1 _) as [[v2 rest]|] eqn:Hg; [|done].
    cbn [mbind option_bind]. intros [= <- <-] Ha.
    apply (IH _ _ _ Hg). by apply (step_accounted _ _ _ Hs).
Qed.

Lemma put_bytes_loop_accounted fuel v src v' :
  put_bytes_loop fuel v src = Some v' → accounted v → accounted v'.
Proof.
  revert v src. induction fuel as [|fuel IH]; intros v src;
    unfold put_bytes_loop; fold put_bytes_loop.
  - destruct src; [by intros [= <-]|done].
  - destruct src as [|b src]; [by intros [= <-]|].
    destruct (ptr_ge _ _) as [full|]; [|done]. cbn [mbind option_bind].
    destruct (if full then vio_fifo_add_lump v else Some v) as [v1|] eqn:H1;
      [|done].
    cbn [mbind option_bind].
    destruct (ptr_sub _ _) as [room|]; [|done]. cbn [mbind option_bind].
    destruct (lump_write _ _ _) as [b'|] eqn:Hw; [|done].
    cbn [mbind option_bind]. intros Hl Ha.
    apply (IH _ _ Hl).
    assert (accounted v1) as Ha1.
    { destruct full; [by apply (add_lump_accounted v)|congruence]. }
    apply lump_write_addrs in Hw.
    apply (accounted_same v1); [|done]. by split_and!.
Qed.

Lemma read_nb_loop_accounted fuel v fd request total v' fd' r :
  read_nb_loop fuel v fd request total = Some (v', fd', r) →
  accounted v → accounted v'.
Proof.
  revert v fd request total. induction fuel as [|fuel IH];
    intros v fd request total; unfold read_nb_loop; fold read_nb_loop; [done|].
  destruct (ptr_ge _ _) as [full|]; [|done]. cbn [mbind option_bind].
  destruct (if full then _ else _) as [[v1 rq]|] eqn:H1; [|done].
  cbn [mbind option_bind].
  assert (accounted v → accounted v1) as Ha1.
  { destruct full.
    - destruct (vio_fifo_add_lump v) as [v2|] eqn:H2; [|done].
      cbn [mbind option_bind] in H1.
      assert (v1 = v2) as -> by congruence. by apply add_lump_accounted.
    - by assert (v1 = v) as -> by congruence. }
  destruct (ptr_sub _ _) as [room|]; [|done]. cbn [mbind option_bind].
  destruct (read_nb fd room) as [[got bs] fd1].
  destruct (bool_decide (got ≤ 0)%Z).
  - intros Hq Ha. assert (v' = v1) as ->; [|by apply Ha1].
    destruct (bool_decide (got = -2)%Z); by injection Hq.
  - destruct (lump_write _ _ _) as [b'|] eqn:Hw; [|done].
    cbn [mbind option_bind].
    apply lump_write_addrs in Hw.
    assert (accounted v →
            accounted (set_put_ptr (set_base v1 b')
                         (ptr_add (put_ptr (set_base v1 b')) (Z.to_nat got))))
      as Ha2.
    { intros Ha%Ha1. apply (accounted_same v1); [|done]. by split_and!. }
    destruct (bool_decide (0 < rq)).
    + intros Hl Ha. apply (IH _ _ _ _ Hl). by apply Ha2.
    + intros Hq Ha. assert (v' = set_put_ptr (set_base v1 b')
                         (ptr_add (put_ptr (set_base v1 b')) (Z.to_nat got)))
        as -> by (by injection Hq).
      by apply Ha2.
Qed.

Lemma write_nb_accounted sink v all v' r out sink' :
  vio_fifo_write_nb v sink all = Some (v', r, out, sink') →
  accounted v → accounted v'.
Proof.
  revert v out. induction sink as [|e sink IH]; intros v out;
    unfold vio_fifo_write_nb; fold vio_fifo_write_nb.
  - destruct (write_nb_turn v all (head [])) as [[[v1 bs] r1]|] eqn:Ht; [|done].
    cbn [mbind option_bind]. destruct r1 as [r1|]; [|done].
    intros [= <- _ _ _]. revert Ht. unfold write_nb_turn.
    destruct (_ && _); [by intros [= <- _ _]|].
    destruct (vio_fifo_get v); [|done]. cbn [mbind option_bind].
    case_bool_decide; [by intros [= <- _ _]|].
    case_bool_decide; [by intros [= <- _ _]|].
    destruct (lump_read _ _ _); [|done]. cbn [mbind option_bind].
    destruct (vio_fifo_step v _) as [v2|] eqn:Hs; [|done].
    cbn [mbind option_bind]. intros Hq Ha.
    assert (v1 = v2) as -> by (by case_bool_decide; injection Hq).
    by apply (step_accounted _ _ _ Hs).
  - destruct (write_nb_turn v all (head (e :: sink))) as [[[v1 bs] r1]|] eqn:Ht;
      [|done].
    cbn [mbind option_bind].
    assert (accounted v → accounted v1) as Ha1.
    { revert Ht. unfold write_nb_turn.
      destruct (_ && _); [by intros [= <- _ _]|].
      destruct (vio_fifo_get v); [|done]. cbn [mbind option_bind].
      case_bool_decide; [by intros [= <- _ _]|].
      case_bool_decide; [by intros [= <- _ _]|].
      destruct (lump_read _ _ _); [|done]. cbn [mbind option_bind].
      destruct (vio_fifo_step v _) as [v2|] eqn:Hs; [|done].
      cbn [mbind option_bind]. intros Hq Ha.
      assert (v1 = v2) as -> by (by case_bool_decide; injection Hq).
      by apply (step_accounted _ _ _ Hs). }
    destruct r1 as [r1|]; [by intros [= <- _ _ _]|].
    destruct (vio_fifo_write_nb v1 sink all) as [[[[v2 r2] o2] s2]|] eqn:Hw;
      [|done].
    cbn [mbind option_bind]. intros [= <- <- _ <-] Ha.
    apply (IH _ _ Hw). by apply Ha1.
Qed.

Lemma fwrite_turn_accounted v e v' bs r :
  fwrite_turn v e = Some (v', bs, r) → accounted v → accounted v'.
Proof.
  unfold fwrite_turn. destruct (vio_fifo_get v); [|done].
  cbn [mbind option_bind]. case_bool_decide; [by intros [= <- _ _]|].
  destruct (fwrite e _) as [dn n0].
  destruct (lump_read _ _ _); [|done]. cbn [mbind option_bind].
  case_bool_decide; [by intros [= <- _ _]|].
  destruct (vio_fifo_step v _) as [v2|] eqn:Hs; [|done].
  cbn [mbind option_bind]. intros [= <- _ _] Ha.
  by apply (step_accounted _ _ _ Hs).
Qed.

Lemma fwrite_accounted file v v' r out file' :
  vio_fifo_fwrite v file = Some (v', r, out, file') →
  accounted v → accounted v'.
Proof.
  revert v out. induction file as [|e file IH]; intros v out;
    unfold vio_fifo_fwrite; fold vio_fifo_fwrite.
  - destruct (fwrite_turn v (head [])) as [[[v1 bs] r1]|] eqn:Ht; [|done].
    cbn [mbind option_bind]. destruct r1 as [r1|]; [|done].
    intros [= <- _ _ _]. by apply (fwrite_turn_accounted _ _ _ _ _ Ht).
  - destruct (fwrite_turn v (head (e :: file))) as [[[v1 bs] r1]|] eqn:Ht;
      [|done].
    cbn [mbind option_bind].
    pose proof (fwrite_turn_accounted _ _ _ _ _ Ht) as Ha1.
    destruct r1 as [r1|]; [by intros [= <- _ _ _]|].
    destruct (vio_fifo_fwrite v1 file) as [[[[v2 r2] o2] s2]|] eqn:Hw; [|done].
    cbn [mbind option_bind]. intros [= <- <- _ <-] Ha.
    apply (IH _ _ Hw). by apply Ha1.
Qed.

Lemma back_to_end_mark_accounted v keep v' :
  vio_fifo_back_to_end_mark v keep = Some v' → accounted v → accounted v'.
Proof.
  unfold vio_fifo_back_to_end_mark. intros H Ha.
  apply bind_Some in H as (w & Hw & H).
  assert (accounted w) as Haw.
  { destruct (negb (optr_eqb (deref_end v) (Some (put_ptr v))));
      [|by injection Hw as <-].
    apply bind_Some in Hw as (u & Hu & Hw).
    assert (accounted u) as Hau.
    { destruct (negb _); [|by injection Hu as <-].
      apply bind_Some in Hu as (u1 & Hu1 & Hu).
      injection Hu as <-.
      by destruct (crop_loop_accounted _ _ _ Hu1 Ha). }
    destruct (optr_eqb _ _).
    - apply reset_ptrs_lumps in Hw. by apply (accounted_same u).
    - apply bind_Some in Hw as (e & _ & Hw). by injection Hw as <-. }
  destruct (negb keep); by injection H as <-.
Qed.

Lemma hold_mark_accounted v v' :
  vio_fifo_set_hold_mark v = Some v' ∨ vio_fifo_clear_hold_mark v = Some v' →
  accounted v → accounted v'.
Proof.
  unfold vio_fifo_set_hold_mark, vio_fifo_clear_hold_mark.
  intros [H|H] Ha; apply bind_Some in H as (u & Hu & H);
    apply release_upto_accounted in Hu; try done;
    apply bind_Some in H as (w & Hw & H); injection H as <-;
    (destruct (ptr_eqb _ _);
     [apply reset_ptrs_lumps in Hw; by apply (accounted_same u)
     |by injection Hw as <-]).
Qed.

Lemma clear_accounted v cm v' :
  vio_fifo_clear v cm = Some v' → accounted v → accounted v'.
Proof.
  unfold vio_fifo_clear. intros H Ha.
  apply bind_Some in H as (t & _ & H).
  apply bind_Some in H as (u & Hu & H).
  apply release_upto_accounted in Hu; [|done].
  apply bind_Some in H as (w & Hw & H).
  apply reset_ptrs_lumps in Hw. injection H as <-.
  assert (accounted w) as Haw by (by apply (accounted_same _ _ Hw)).
  by destruct cm.
Qed.

Lemma run_op_accounted v o v' :
  run_op v o = Some v' → accounted v → accounted v'.
Proof.
  destruct o; cbn [run_op].
  - apply put_bytes_loop_accounted.
  - intros H. apply bind_Some in H as ([u bs] & H & [= <-]).
    by apply (get_bytes_loop_accounted _ _ _ _ _ H).
  - intros H. apply hold_mark_accounted. by left.
  - intros H. apply hold_mark_accounted. by right.
  - unfold vio_fifo_back_to_hold_mark. intros H.
    apply bind_Some in H as (w & Hw & [= <-]).
    destruct (vio_fifo_have_hold_mark v); [|by injection Hw as <-].
    apply bind_Some in Hw as (h & _ & [= <-]). done.
  - unfold vio_fifo_set_end_mark. intros H.
    apply bind_Some in H as (t & _ & [= <-]). done.
  - unfold vio_fifo_step_end_mark.
    destruct (vio_fifo_have_end_mark v); [|by intros [= <-]].
    intros H. apply bind_Some in H as (t & _ & [= <-]). done.
  - unfold vio_fifo_clear_end_mark. intros H.
    apply bind_Some in H as (t & _ & [= <-]). done.
  - apply back_to_end_mark_accounted.
  - apply clear_accounted.
  - intros H. apply bind_Some in H as ([[u fd'] r] & H & [= <-]).
    by apply (read_nb_loop_accounted _ _ _ _ _ _ _ _ H).
  - intros H. apply bind_Some in H as ([[[u r] out] s] & H & [= <-]).
    by apply (write_nb_accounted _ _ _ _ _ _ _ H).
  - intros H. apply bind_Some in H as ([[[u r] out] s] & H & [= <-]).
    by apply (fwrite_accounted _ _ _ _ _ _ H).
Qed.

Lemma reachable_accounted v : reachable v → accounted v.
Proof.
  induction 1 as [debug n|v o v' _ IH _ Hr].
  - unfold accounted. done.
  - by apply (run_op_accounted v o v').
Qed.

Lemma free_loop_spec ls lump fr :
  free_loop ls lump fr
  ≡ₚ filter (λ a, a ≠ own_lump) (addrs ls)
     ++ filter (λ a, a ≠ own_lump) (addrs (option_list lump)) ++ fr.
Proof.
  assert (∀ lump fr,
            match lump with
            | Some l =>
                if bool_decide (lump_addr l = own_lump) then fr
                else lump_addr l :: fr
            | None => fr
            end
            = filter (λ a, a ≠ own_lump) (addrs (option_list lump)) ++ fr)
    as Hk.
  { intros [l|] fr'; [|done].
    change (addrs (option_list (Some l))) with [lump_addr l].
    rewrite filter_cons, filter_nil.
    case_bool_decide; destruct (decide (lump_addr l ≠ own_lump)); done. }
  revert lump fr. induction ls as [|l r IH]; intros lump fr.
  - cbn [free_loop]. by rewrite Hk.
  - cbn [free_loop]. rewrite IH, (Hk lump fr).
    change (addrs (l :: r)) with (lump_addr l :: addrs r).
    change (addrs (option_list (Some l))) with [lump_addr l].
    rewrite !filter_cons, filter_nil.
    destruct (decide (lump_addr l ≠ own_lump)); [|done].
    cbn [app]. by rewrite <- Permutation_middle.
Qed.

Lemma filter_not_own n :
  filter (λ a, a ≠ own_lump) (seq 0 (S n)) = seq 1 n.
Proof.
  change (seq 0 (S n)) with (0 :: seq 1 n). rewrite filter_cons.
  destruct (decide (0 ≠ own_lump)) as [Hd|_]; [done|].
  assert (Forall (λ a, a ≠ own_lump) (seq 1 n)) as Hf.
  { apply Forall_forall. intros a Ha%elem_of_seq. unfold own_lump. lia. }
  induction Hf as [|a l Ha Hl IH]; [done|].
  rewrite filter_cons. destruct (decide (a ≠ own_lump)); [|done].
  by rewrite IH.
Qed.





(** ** What [vio_fifo_verify] accepts *)

(** The walks. *)
Lemma own_seen_step l seen pre :
  (seen = true ↔ own_lump ∈ addrs pre) →
  (seen || bool_decide (lump_addr l = own_lump) = true
   ↔ own_lump ∈ addrs (pre ++ [l])).
Proof.
  intros Hs. unfold addrs in *. rewrite fmap_app, elem_of_app.
  change (lump_addr <$> [l]) with [lump_addr l].
  rewrite orb_true_iff, bool_decide_eq_true, list_elem_of_singleton, Hs.
  split; (intros [?|?]; [by left|by right]).
Qed.

Lemma verify_find_spec pre ls seen target :
  target ∈ addrs ls →
  (seen = true ↔ own_lump ∈ addrs pre) →
  ∃ pre' ls' seen',
    verify_find ls seen target = Some (ls', seen')
    ∧ pre' ++ ls' = pre ++ ls ∧ head (addrs ls') = Some target
    ∧ (seen' = true ↔ own_lump ∈ addrs (pre' ++ take 1 ls')).
Proof.
  revert pre seen. induction ls as [|l r IH]; intros pre seen Hin Hs.
  - by apply elem_of_nil in Hin.
  - cbn [verify_find]. case_bool_decide as Hq.
    + exists pre, (l :: r), (seen || bool_decide (lump_addr l = own_lump)).
      split_and!; try done; [simpl; by rewrite Hq|].
      by apply own_seen_step.
    + destruct (IH (pre ++ [l]) (seen || bool_decide (lump_addr l = own_lump)))
        as (pre' & ls' & seen' & H1 & H2 & H3 & H4).
      * simpl in Hin. apply elem_of_cons in Hin as [?|?]; [congruence|done].
      * by apply own_seen_step.
      * exists pre', ls', seen'. split_and!; try done.
        by rewrite H2, <- app_assoc.
Qed.

Lemma verify_walk_spec pre ls seen target :
  target ∈ addrs ls →
  (seen = true ↔ own_lump ∈ addrs (pre ++ take 1 ls)) →
  ∃ pre' ls' seen',
    verify_walk ls seen target = Some (ls', seen')
    ∧ pre' ++ ls' = pre ++ ls ∧ head (addrs ls') = Some target
    ∧ (seen' = true ↔ own_lump ∈ addrs (pre' ++ take 1 ls')).
Proof.
  revert pre seen. induction ls as [|l r IH]; intros pre seen Hin Hs.
  - by apply elem_of_nil in Hin.
  - cbn [verify_walk]. case_bool_decide as Hq.
    + exists pre, (l :: r), seen. split_and!; try done. simpl. by rewrite Hq.
    + simpl in Hin. apply elem_of_cons in Hin as [?|Hin]; [congruence|].
      destruct r as [|n r']; [by apply elem_of_nil in Hin|].
      destruct (IH (pre ++ [l]) (seen || bool_decide (lump_addr n = own_lump)))
        as (pre' & ls' & seen' & H1 & H2 & H3 & H4); [done| |].
      * change (take 1 (n :: r')) with [n].
        change (take 1 (l :: n :: r')) with [l] in Hs.
        by apply own_seen_step.
      * exists pre', ls', seen'. split_and!; try done.
        by rewrite H2, <- app_assoc.
Qed.

Lemma ptr_gt_same a b :
  a.1 = b.1 → ptr_gt a b = Some (bool_decide (b.2 < a.2)).
Proof.
  intros Hq. unfold ptr_gt, ptr_ge. rewrite bool_decide_eq_true_2 by done.
  cbn [mbind option_bind]. f_equal.
  case_bool_decide; case_bool_decide; simpl; try done; lia.
Qed.

Lemma ptr_gt_le a b : a.1 = b.1 → a.2 ≤ b.2 → ptr_gt a b = Some false.
Proof.
  intros Hq Hl. rewrite ptr_gt_same by done.
  by rewrite bool_decide_eq_false_2 by lia.
Qed.

Lemma wf_head v :
  wf v → ∃ h, ddl_head (base v) = Some h
              ∧ (∀ a, a ∈ addrs (base v) → ix v a = 0 → a = lump_addr h).
Proof.
  intros [Hm Hc _]. destruct (ddl_tail_put v Hc) as (t & Ht & _).
  destruct (base v) as [|h r] eqn:Hb; [done|]. exists h. split; [done|].
  intros a Ha Hi. unfold ix in Hi. rewrite Hb in Hi.
  pose proof (lump_index_head a (h :: r) Ha Hi) as Hh. simpl in Hh. congruence.
Qed.

Lemma verify_hold_block v h :
  wf v → hold_ok v →
  ddl_head (base v) = Some h →
  (∀ a, a ∈ addrs (base v) → ix v a = 0 → a = lump_addr h) →
  (if vio_fifo_have_hold_mark v then
     p ← hold_ptr v;
     out ← or_else (ptr_gt (lump_data_ptr h) p)
             (ptr_gt p (lump_end_ptr v (lump_addr h)));
     _ ← zabort_if out;
     if bool_decide (get_lump v = lump_addr h)
     then gt ← ptr_gt p (get_ptr v); zabort_if gt
     else Some ()
   else zabort_if (negb (bool_decide (get_lump v = lump_addr h))))
  = Some ().
Proof.
  intros [Hm Hc Hs] Hok Hh Hhead.
  destruct Hc as [H1 H2 H3 H4 H5 H6 H7 H8 H9 H10].
  destruct Hs as [Hhold _]. unfold hold_ok in Hok.
  unfold vio_fifo_have_hold_mark. destruct (p_start v) eqn:Hps.
  - rewrite bool_decide_eq_false_2 by done.
    rewrite bool_decide_eq_true_2; [done|]. by apply Hhead.
  - rewrite bool_decide_eq_true_2 by done.
    destruct Hhold as (p & Hp & Hi & Hin & Hsz & _).
    destruct Hok as (p' & Hp' & Hle).
    assert (p' = p) as -> by congruence.
    rewrite Hp. cbn [mbind option_bind].
    pose proof (Hhead p.1 Hin Hi) as Hp1.
    rewrite (ptr_gt_le (lump_data_ptr h) p) by (simpl; (done || lia)).
    cbn [or_else mbind option_bind].
    rewrite (ptr_gt_le p (lump_end_ptr v (lump_addr h))) by (simpl; done).
    cbn [mbind option_bind zabort_if].
    destruct (decide (get_lump v = lump_addr h)) as [Hg|Hg];
      [rewrite (bool_decide_eq_true_2 _ Hg)
      |by rewrite (bool_decide_eq_false_2 _ Hg)].
    rewrite (ptr_gt_le p (get_ptr v)); [done|congruence|].
    unfold lex_le, ipos in Hle. simpl in Hle.
    rewrite H3, Hg, <- Hp1 in Hle. lia.
Qed.

Lemma suffix_later pre ls a b :
  NoDup (addrs (pre ++ ls)) → head (addrs ls) = Some a →
  b ∈ addrs (pre ++ ls) →
  lump_index a (pre ++ ls) ≤ lump_index b (pre ++ ls) → b ∈ addrs ls.
Proof.
  intros Hnd Ha Hb Hle. unfold addrs in Hb, Hnd.
  rewrite fmap_app in Hb, Hnd. apply elem_of_app in Hb as [Hb|Hb]; [|done].
  exfalso. apply NoDup_app in Hnd as (_ & Hd & _).
  assert (a ∈ addrs ls) as Hin.
  { destruct ls as [|x r]; [done|]. simpl in Ha. injection Ha as <-.
    apply list_elem_of_here. }
  assert (a ∉ addrs pre) as Hnot by (intros Hp; by apply (Hd a)).
  rewrite (lump_index_app_l b pre ls Hb) in Hle.
  rewrite (lump_index_app_r a pre ls Hnot) in Hle.
  pose proof (lump_index_lt b pre Hb). lia.
Qed.

Lemma suffix_last pre ls a :
  NoDup (addrs (pre ++ ls)) → head (addrs ls) = Some a →
  last (addrs (pre ++ ls)) = Some a → pre ++ take 1 ls = pre ++ ls.
Proof.
  intros Hnd Ha Hl. destruct ls as [|x [|y r]]; [done..|]. exfalso.
  simpl in Ha. injection Ha as <-.
  unfold addrs in Hnd, Hl. rewrite fmap_app in Hnd, Hl.
  apply NoDup_app in Hnd as (_ & _ & Hnd).
  change (lump_addr <$> x :: y :: r)
    with ([lump_addr x] ++ (lump_addr <$> y :: r)) in Hl.
  rewrite app_assoc in Hl. rewrite last_app in Hl.
  destruct (last (lump_addr <$> y :: r)) as [z|] eqn:Hz.
  - injection Hl as ->. apply last_Some_elem_of in Hz.
    apply NoDup_cons in Hnd as [Hn _]. done.
  - by apply last_None in Hz.
Qed.

Lemma suffix_has_last (pre ls : list vio_fifo_lump) t :
  ls ≠ [] → last (pre ++ ls) = Some t → t ∈ ls.
Proof.
  intros Hne Hl. rewrite last_app in Hl.
  destruct (last ls) as [z|] eqn:Hz.
  - injection Hl as ->. by apply last_Some_elem_of.
  - by apply last_None in Hz.
Qed.

(** The three walks of [vio_fifo_verify] reach the tail, and [own_seen]
    tells whether the embedded lump is in the list. *)
Lemma verify_walks v t :
  wf v → ddl_tail (base v) = Some t →
  ∃ ls1 s1 ls2 s2 ls3 s3,
    verify_find (base v) false (get_lump v) = Some (ls1, s1)
    ∧ verify_walk ls1 s1 (end_lump v) = Some (ls2, s2)
    ∧ verify_walk ls2 s2 (lump_addr t) = Some (ls3, s3)
    ∧ (s3 = true ↔ own_lump ∈ addrs (base v)).
Proof.
  intros [Hm Hc _] Ht. pose proof (wf_mem_nodup_base v Hm) as Hnd.
  pose proof (wf_order v Hm Hc) as (Ho1 & _ & _).
  destruct Hc as [H1 H2 H3 H4 H5 H6 H7 H8 H9 H10].
  destruct (verify_find_spec [] (base v) false (get_lump v))
    as (pre1 & ls1 & s1 & F1 & E1 & T1 & S1); [done| |].
  { split; [done|]. intros Hn. by apply elem_of_nil in Hn. }
  simpl in E1.
  destruct (verify_walk_spec pre1 ls1 s1 (end_lump v))
    as (pre2 & ls2 & s2 & F2 & E2 & T2 & S2); [|done|].
  { apply (suffix_later pre1 ls1 (get_lump v)); rewrite ?E1; done. }
  assert (lump_addr t ∈ addrs ls2) as Hin.
  { unfold addrs. apply list_elem_of_fmap_2.
    apply (suffix_has_last pre2 ls2).
    - by destruct ls2.
    - by rewrite E2, E1. }
  destruct (verify_walk_spec pre2 ls2 s2 (lump_addr t))
    as (pre3 & ls3 & s3 & F3 & E3 & T3 & S3); [done..|].
  exists ls1, s1, ls2, s2, ls3, s3. split_and!; try done.
  rewrite S3. rewrite (suffix_last pre3 ls3 (lump_addr t)).
  - by rewrite E3, E2, E1.
  - by rewrite E3, E2, E1.
  - done.
  - rewrite E3, E2, E1. unfold ddl_tail in Ht.
    unfold addrs. rewrite fmap_last, Ht. done.
Qed.

Lemma verify_spare_check v s :
  wf_mem v → (s = true ↔ own_lump ∈ addrs (base v)) →
  (if bool_decide (addr_of (spare v) = Some own_lump) then s else negb s)
  = false.
Proof.
  intros [_ _ Hnd _ Hown _] Hs. unfold lumps, addrs in Hnd, Hown.
  rewrite fmap_app in Hnd, Hown.
  apply NoDup_app in Hnd as (_ & Hd & _).
  apply elem_of_app in Hown as [Hown|Hown].
  - rewrite bool_decide_eq_false_2.
    + apply negb_false_iff. by apply Hs.
    + intros Hq. apply (Hd _ Hown). destruct (spare v) as [sp|]; [|done].
      simpl in Hq. injection Hq as Hq. simpl. rewrite Hq.
      apply list_elem_of_here.
  - destruct (spare v) as [sp|]; [|by apply elem_of_nil in Hown].
    simpl in Hown. apply list_elem_of_singleton in Hown.
    rewrite bool_decide_eq_true_2 by (simpl; congruence).
    destruct s; [|done]. exfalso.
    assert (own_lump ∈ (lump_addr <$> base v)) as Hb by (by apply Hs).
    apply (Hd _ Hb). simpl. rewrite <- Hown. apply list_elem_of_here.
Qed.

Lemma verify_end_block v t :
  wf v → ddl_tail (base v) = Some t →
  (if vio_fifo_have_end_mark v then
     e ← end_ptr v;
     out ← or_else (ptr_gt (end_lump v, 0) e)
             (ptr_gt e (lump_end_ptr v (end_lump v)));
     _ ← zabort_if out;
     if bool_decide (end_lump v = lump_addr t)
     then gt ← ptr_gt e (put_ptr v); zabort_if gt
     else Some ()
   else zabort_if (negb (bool_decide (end_lump v = lump_addr t))))
  = Some ().
Proof.
  intros [Hm Hc Hs] Ht.
  destruct (ddl_tail_put v Hc) as (t' & Ht' & Hta).
  assert (t' = t) as -> by congruence.
  pose proof (wf_eff_end_off v Hc) as Hoff.
  destruct Hc as [H1 H2 H3 H4 H5 H6 H7 H8 H9 H10].
  unfold vio_fifo_have_end_mark. unfold eff_end, deref_end in Hoff.
  destruct (p_end v) eqn:Hpe.
  - rewrite bool_decide_eq_false_2 by done.
    rewrite bool_decide_eq_true_2; [done|]. congruence.
  - rewrite bool_decide_eq_true_2 by done.
    destruct H7 as (e & He & He1 & Hle & _). rewrite He in Hoff |- *.
    cbn [mbind option_bind]. simpl in Hoff.
    rewrite (ptr_gt_le (end_lump v, 0) e) by (simpl; (done || lia)).
    cbn [or_else mbind option_bind].
    rewrite (ptr_gt_le e (lump_end_ptr v (end_lump v))) by (simpl; done).
    cbn [mbind option_bind zabort_if].
    destruct (decide (end_lump v = lump_addr t)) as [Hg|Hg];
      [rewrite (bool_decide_eq_true_2 _ Hg)
      |by rewrite (bool_decide_eq_false_2 _ Hg)].
    rewrite (ptr_gt_le e (put_ptr v)); [done|congruence|].
    unfold lex_le, ipos in Hle. simpl in Hle.
    rewrite He1, Hg, Hta in Hle. lia.
Qed.

Lemma verify_at_end v :
  wf v →
  (if optr_eqb (Some (get_ptr v)) (deref_get_end v) then
     if negb (optr_eqb (deref_start v) (Some (put_ptr v))) then
       zabort_if (negb (vio_fifo_have_hold_mark v || vio_fifo_have_end_mark v))
     else Some ()
   else Some ())
  = Some ().
Proof.
  intros [Hm Hc Hs]. rewrite (deref_get_end_spec v Hc).
  unfold optr_eqb. case_bool_decide as Hq; [|done].
  case_bool_decide as He; [done|]. cbn [negb].
  unfold vio_fifo_have_hold_mark, vio_fifo_have_end_mark.
  destruct (p_start v) eqn:Hps; [|done].
  destruct (p_end v) eqn:Hpe; [|by rewrite orb_true_r].
  exfalso. apply He. unfold deref_start. rewrite Hps. f_equal.
  destruct Hc as [H1 H2 H3 H4 H5 H6 H7 H8 H9 H10]. rewrite Hpe in H7.
  injection Hq as Hq. unfold get_end_off, eff_end, deref_end in Hq.
  rewrite Hpe in Hq. simpl in Hq.
  destruct (decide (get_lump v = end_lump v)) as [Hg|Hg].
  - rewrite (bool_decide_eq_true_2 _ Hg) in Hq. rewrite Hq.
    rewrite Hg, H7. by destruct (put_ptr v).
  - rewrite (bool_decide_eq_false_2 _ Hg) in Hq. specialize (H10 Hg).
    rewrite Hq in H10. simpl in H10. lia.
Qed.

Lemma verify_empty v h t :
  wf v → marks_tidy v →
  ddl_head (base v) = Some h → ddl_tail (base v) = Some t →
  (if optr_eqb (deref_start v) (Some (put_ptr v)) then
     zabort_if
       (negb (bool_decide (lump_addr t = lump_addr h))
        || negb (bool_decide (get_lump v = lump_addr h))
        || negb (bool_decide (end_lump v = lump_addr h))
        || negb (ptr_eqb (get_ptr v) (lump_data_ptr h))
        || negb (ptr_eqb (put_ptr v) (lump_data_ptr h))
        || negb (ptr_eqb (put_end v) (lump_end_ptr v (lump_addr h)))
        || negb (optr_eqb (hold_ptr v) None
                 || optr_eqb (hold_ptr v) (Some (lump_data_ptr h)))
        || negb (optr_eqb (end_ptr v) None
                 || optr_eqb (end_ptr v) (Some (lump_data_ptr h))))
   else Some ())
  = Some ().
Proof.
  intros Hwf Htidy Hh Ht. unfold optr_eqb at 1.
  case_bool_decide as He; [|done].
  destruct (wf_empty_at_start v Hwf He) as [t' Hat].
  destruct (Htidy He) as [Hhp Hep].
  destruct Hat as [Hb Hgl Hel Hgp Hpp Hpe _ _ _].
  unfold ddl_head in Hh. unfold ddl_tail in Ht. rewrite Hb in Hh, Ht.
  simpl in Hh, Ht. injection Hh as <-. injection Ht as <-.
  unfold ptr_eqb, optr_eqb, lump_data_ptr, lump_end_ptr.
  rewrite Hgl, Hel, Hgp, Hpp, Hpe. rewrite Hpp in Hhp, Hep.
  rewrite !(bool_decide_eq_true_2 (lump_addr t' = lump_addr t')) by done.
  rewrite !(bool_decide_eq_true_2 ((lump_addr t', 0) = (lump_addr t', 0)))
    by done.
  rewrite (bool_decide_eq_true_2
             ((lump_addr t', size v) = (lump_addr t', size v))) by done.
  cbn [negb orb].
  destruct Hhp as [->| ->], Hep as [->| ->];
    rewrite ?(bool_decide_eq_true_2 (None = None)) by done;
    rewrite ?(bool_decide_eq_true_2
                (Some (lump_addr t', 0) = Some (lump_addr t', 0))) by done;
    rewrite ?orb_true_r; done.
Qed.

Lemma verify_accepts_invariant v :
  wf v → hold_ok v → marks_tidy v → vio_fifo_verify v = Some ().
Proof.
  intros Hwf Hok Htidy. pose proof Hwf as [Hm Hc Hs].
  destruct (wf_head v Hwf) as (h & Hh & Hhead).
  destruct (ddl_tail_put v Hc) as (t & Ht & Hta).
  destruct (verify_walks v t Hwf Ht)
    as (ls1 & s1 & ls2 & s2 & ls3 & s3 & F1 & F2 & F3 & S3).
  unfold vio_fifo_verify. rewrite Hh, Ht. cbn [mbind option_bind].
  rewrite F1. cbn [mbind option_bind]. rewrite F2. cbn [mbind option_bind].
  rewrite F3. cbn [mbind option_bind].
  rewrite (verify_spare_check v s3 Hm S3). cbn [zabort_if mbind option_bind].
  pose proof (get_end_off_bounds v Hm Hc) as (Hb1 & Hb2 & _).
  pose proof (deref_get_end_spec v Hc) as Hge.
  pose proof (verify_at_end v Hwf) as Hae.
  pose proof (verify_empty v h t Hwf Htidy Hh Ht) as Hem.
  pose proof (verify_hold_block v h Hwf Hok Hh Hhead) as Hhb.
  pose proof (verify_end_block v t Hwf Ht) as Heb.
  destruct Hc as [H1 H2 H3 H4 H5 H6 H7 H8 H9 H10].
  rewrite (bool_decide_eq_true_2 _ H8). cbn [negb zabort_if mbind option_bind].
  rewrite Hhb. cbn [mbind option_bind].
  rewrite Hge. cbn [mbind option_bind].
  rewrite (ptr_gt_le (get_lump v, 0) (get_ptr v)) by (simpl; (done || lia)).
  cbn [or_else mbind option_bind].
  rewrite (ptr_gt_le (get_ptr v) (get_lump v, get_end_off v))
    by (simpl; done).
  cbn [or_else mbind option_bind].
  rewrite (ptr_gt_le (get_lump v, get_end_off v) (lump_end_ptr v (get_lump v)))
    by (simpl; done).
  cbn [zabort_if mbind option_bind].
  rewrite Heb. cbn [mbind option_bind].
  rewrite (ptr_gt_le (lump_data_ptr t) (put_ptr v)) by (simpl; (done || lia)).
  cbn [or_else mbind option_bind].
  rewrite (ptr_gt_le (put_ptr v) (put_end v)) by (rewrite H5; simpl; done).
  cbn [or_else mbind option_bind].
  assert (ptr_eqb (put_end v) (lump_end_ptr v (lump_addr t)) = true) as ->.
  { apply bool_decide_eq_true_2. by rewrite H5, Hta. }
  cbn [negb zabort_if mbind option_bind].
  rewrite Hge in Hae. rewrite Hae. cbn [mbind option_bind].
  exact Hem.
Qed.

Lemma zabort_if_Some b : zabort_if b = Some () → b = false.
Proof. by destruct b. Qed.

(** What a state that passes [vio_fifo_verify] is sure to have. *)
Lemma verify_demands v :
  vio_fifo_verify v = Some () →
  ∃ h, ddl_head (base v) = Some h
    ∧ (if vio_fifo_have_hold_mark v then
         ∃ p, hold_ptr v = Some p
              ∧ (get_lump v = lump_addr h → ptr_gt p (get_ptr v) = Some false)
       else get_lump v = lump_addr h)
    ∧ (deref_start v = Some (put_ptr v) →
       put_ptr v = lump_data_ptr h
       ∧ (hold_ptr v = None ∨ hold_ptr v = Some (lump_data_ptr h))
       ∧ (end_ptr v = None ∨ end_ptr v = Some (lump_data_ptr h))).
Proof.
  unfold vio_fifo_verify. intros H.
  apply bind_Some in H as (h & Hh & H).
  apply bind_Some in H as (t & Ht & H).
  apply bind_Some in H as ([ls1 s1] & _ & H).
  apply bind_Some in H as ([ls2 s2] & _ & H).
  apply bind_Some in H as ([ls3 s3] & _ & H).
  apply bind_Some in H as ([] & _ & H).
  apply bind_Some in H as ([] & _ & H).
  apply bind_Some in H as ([] & Hhold & H).
  apply bind_Some in H as (e & _ & H).
  apply bind_Some in H as (o1 & _ & H).
  apply bind_Some in H as ([] & _ & H).
  apply bind_Some in H as ([] & _ & H).
  apply bind_Some in H as (o2 & _ & H).
  apply bind_Some in H as ([] & _ & H).
  apply bind_Some in H as ([] & _ & H).
  exists h. split; [done|]. split.
  - destruct (vio_fifo_have_hold_mark v).
    + apply bind_Some in Hhold as (p & Hp & Hhold).
      apply bind_Some in Hhold as (o & _ & Hhold).
      apply bind_Some in Hhold as ([] & _ & Hhold).
      exists p. split; [done|]. intros Hg.
      rewrite (bool_decide_eq_true_2 _ Hg) in Hhold.
      apply bind_Some in Hhold as (gt & Hgt & Hz).
      apply zabort_if_Some in Hz. by rewrite Hz in Hgt.
    + apply zabort_if_Some in Hhold. apply negb_false_iff in Hhold.
      by apply bool_decide_eq_true in Hhold.
  - intros He. unfold optr_eqb at 1 in H.
    rewrite (bool_decide_eq_true_2 _ He) in H.
    apply zabort_if_Some in H.
    repeat (apply orb_false_iff in H as [H ?]).
    repeat match goal with
           | Hx : negb _ = false |- _ => apply negb_false_iff in Hx
           end.
    repeat match goal with
           | Hx : ptr_eqb _ _ = true |- _ => apply bool_decide_eq_true in Hx
           | Hx : _ || _ = true |- _ => apply orb_true_iff in Hx
           end.
    split_and!; try done.
    + match goal with
      | Hx : optr_eqb (hold_ptr v) None = true ∨ _ |- _ =>
          destruct Hx as [Hx|Hx]; apply bool_decide_eq_true in Hx;
            [by left|by right]
      end.
    + match goal with
      | Hx : optr_eqb (end_ptr v) None = true ∨ _ |- _ =>
          destruct Hx as [Hx|Hx]; apply bool_decide_eq_true in Hx;
            [by left|by right]
      end.
Qed.

(** X15 ([vio_fifo_skip_to_end]).  From every state of the invariant the
    call returns with no byte visible: what is stored afterwards is what
    was pending behind the end mark.  It releases no lump: the list, the
    spare lump and the freed lumps are as they were, and so are the marks.
    The invariant is kept when a hold mark is set or GET was in the end
    lump already.  With no hold mark and GET in an earlier lump it is not:
    the lumps before GET's new lump stay in the list, and
    [vio_fifo_verify] aborts on the state reached. *)
Theorem skip_to_end_keeps_lumps v :
  wf v →
  ∃ v', vio_fifo_skip_to_end v = Some v'
        ∧ wf_mem v' ∧ wf_cur v'
        ∧ visible v' = [] ∧ stored v' = pending v ∧ pending v' = pending v
        ∧ base v' = base v ∧ spare v' = spare v ∧ freed v' = freed v
        ∧ get_lump v' = end_lump v
        ∧ p_start v' = p_start v ∧ p_end v' = p_end v ∧ size v' = size v
        ∧ (p_start v = StartHold ∨ get_lump v = end_lump v → wf v')
        ∧ (p_start v = StartGet → get_lump v ≠ end_lump v →
           ix v' (get_lump v') ≠ 0 ∧ ¬ wf v'
           ∧ vio_fifo_verify v' = None).
Proof.
  intros Hwf.
  destruct (skip_to_end_spec v Hwf)
    as (v' & H1 & H2 & H3 & H4 & H5 & H6 & H7 & H8 & H9 & H10 & H11 & H12
        & H13 & H14 & H15).
  exists v'. split_and!; try done.
  intros Hps Hne. destruct (H15 Hps Hne) as [Hix Hnwf].
  split_and!; try done.
  destruct (vio_fifo_verify v') as [[]|] eqn:Hv; [exfalso|done].
  destruct (verify_demands v' Hv) as (h & Hh & Hhold & _).
  unfold vio_fifo_have_hold_mark in Hhold. rewrite H11, Hps in Hhold.
  rewrite bool_decide_eq_false_2 in Hhold by done.
  apply Hix. unfold ix. apply lump_index_head_2.
  unfold ddl_head in Hh. destruct (base v') as [|x r]; [done|].
  simpl in Hh. injection Hh as ->. simpl. by rewrite Hhold.
Qed.

Lemma skip_to_end_keeps_lumps_witness :
  wf (vio_fifo_new false 128)
  ∧ ∃ v', vio_fifo_skip_to_end (vio_fifo_new false 128) = Some v'
          ∧ visible v' = [] ∧ base v' = base (vio_fifo_new false 128).
Proof.
  split; [apply new_wf|].
  destruct (skip_to_end_keeps_lumps (vio_fifo_new false 128) (new_wf false 128))
    as (v' & H1 & _ & _ & H2 & _ & _ & H3 & _).
  exists v'. repeat split; assumption.
Defined.

(** X16 ([vio_fifo_verify]).  In a state of the invariant the check of
    the debug build passes, with no abort, exactly when HOLD is at or
    before GET and, if the FIFO is empty, the two mark pointers are NULL
    or at PUT.  So the invariant implies everything else that
    [vio_fifo_verify] demands: the order of the lumps, the place of the
    embedded lump, the pointer bounds and the shape of an empty FIFO. *)
Theorem verify_passes_iff v :
  wf v → (vio_fifo_verify v = Some () ↔ hold_ok v ∧ marks_tidy v).
Proof.
  intros Hwf. split; [|intros [? ?]; by apply verify_accepts_invariant].
  intros Hv. destruct (verify_demands v Hv) as (h & Hh & Hhold & Hemp).
  destruct (wf_head v Hwf) as (h' & Hh' & Hhead).
  assert (h' = h) as -> by congruence.
  destruct Hwf as [Hm Hc Hs]. split.
  - unfold hold_ok. unfold vio_fifo_have_hold_mark in Hhold.
    destruct Hs as [Hwh _]. destruct (p_start v) eqn:Hps; [done|].
    rewrite bool_decide_eq_true_2 in Hhold by done.
    destruct Hhold as (p & Hp & Hgt). exists p. split; [done|].
    destruct Hwh as (p' & Hp' & Hi & Hin & _).
    assert (p' = p) as -> by congruence.
    destruct Hc as [H1 H2 H3 H4 H5 H6 H7 H8 H9 H10].
    unfold lex_le, ipos. simpl. rewrite H3.
    destruct (decide (get_lump v = lump_addr h)) as [Hg|Hg].
    + right. pose proof (Hhead p.1 Hin Hi) as Hp1.
      specialize (Hgt Hg). rewrite ptr_gt_same in Hgt by congruence.
      injection Hgt as Hgt. apply bool_decide_eq_false in Hgt.
      split; [|lia]. by rewrite Hg, Hp1.
    + left. rewrite Hi.
      destruct (ix v (get_lump v)) eqn:Hz; [|lia].
      exfalso. apply Hg. by apply Hhead.
  - intros He. destruct (Hemp He) as (-> & ? & ?). done.
Qed.

Lemma verify_passes_iff_witness :
  wf (vio_fifo_new false 128)
  ∧ vio_fifo_verify (vio_fifo_new false 128) = Some ().
Proof.
  split; [apply new_wf|].
  apply (verify_passes_iff (vio_fifo_new false 128) (new_wf false 128)).
  split; [exact I|]. intros _. split; left; reflexivity.
Defined.

(** ** What a hold mark keeps *)

Lemma get_moved_refl v : get_moved v v.
Proof. by constructor. Qed.

Lemma get_moved_trans v1 v2 v3 :
  get_moved v1 v2 → get_moved v2 v3 → get_moved v1 v3.
Proof.
  intros [A1 A2 A3 A4 A5 A6 A7 A8 A9 A10 A11 A12]
         [B1 B2 B3 B4 B5 B6 B7 B8 B9 B10 B11 B12].
  constructor; congruence.
Qed.

(** With a hold mark over some data, [vio_fifo_sync_get] neither resets
    the pointers nor releases a lump. *)
Lemma step_held v k v' :
  p_start v = StartHold → hold_ptr v ≠ Some (put_ptr v) →
  vio_fifo_step v k = Some v' → get_moved v v'.
Proof.
  intros Hps Hne. unfold vio_fifo_step.
  destruct (deref_get_end _); [|done]. cbn [mbind option_bind].
  destruct (ptr_ge _ _) as [[|]|]; [| |done]; cbn [mbind option_bind].
  - unfold vio_fifo_sync_get. cbn [get_lump end_lump set_get_ptr].
    case_bool_decide as Hq.
    + unfold optr_eqb, deref_start. cbn [p_start set_get_ptr hold_ptr put_ptr].
      rewrite Hps. rewrite (bool_decide_eq_false_2 _ Hne).
      by intros [= <-].
    + destruct (ddl_next _ _) as [nl|]; [|done]. cbn [mbind option_bind].
      unfold vio_fifo_have_hold_mark. cbn. rewrite Hps.
      rewrite bool_decide_eq_true_2 by done. by intros [= <-].
  - by intros [= <-].
Qed.

Lemma get_bytes_loop_held fuel v n v' bs :
  p_start v = StartHold → hold_ptr v ≠ Some (put_ptr v) →
  get_bytes_loop fuel v n = Some (v', bs) → get_moved v v'.
Proof.
  revert v n bs. induction fuel as [|fuel IH]; intros v n bs Hps Hne;
    unfold get_bytes_loop; fold get_bytes_loop.
  - destruct n; [|done]. intros [= <- <-]. apply get_moved_refl.
  - destruct n as [|n]; [intros [= <- <-]; apply get_moved_refl|].
    destruct (deref_get_end v); [|done]. cbn [mbind option_bind].
    destruct (ptr_sub _ _) as [have|]; [|done]. cbn [mbind option_bind].
    destruct (_ && _); [intros [= <- <-]; apply get_moved_refl|].
    destruct (lump_read _ _ _); [|done]. cbn [mbind option_bind].
    destruct (vio_fifo_step v _) as [v1|] eqn:Hs; [|done].
    cbn [mbind option_bind].
    destruct (get_bytes_loop fuel v1 _) as [[v2 rest]|] eqn:Hg; [|done].
    cbn [mbind option_bind]. intros [= <- <-].
    pose proof (step_held v _ v1 Hps Hne Hs) as Hm1.
    apply (get_moved_trans v v1 v2 Hm1).
    assert (p_start v1 = StartHold ∧ hold_ptr v1 ≠ Some (put_ptr v1))
      as [Hps1 Hne1].
    { destruct Hm1 as [_ A2 A3 _ _ A6 _ _ _ _ _ _]. split; congruence. }
    apply (IH _ _ _ Hps1 Hne1 Hg).
Qed.

Lemma get_bytes_held v n v' bs :
  wf v → p_start v = StartHold →
  vio_fifo_get_bytes v n = Some (v', bs) → get_moved v v'.
Proof.
  intros Hwf Hps Hg.
  destruct (decide (hold_ptr v = Some (put_ptr v))) as [Hq|Hq].
  - assert (deref_start v = Some (put_ptr v)) as Hd.
    { unfold deref_start. by rewrite Hps. }
    destruct (wf_empty_at_start v Hwf Hd) as [t Hat].
    destruct (at_start_contents v t Hat) as (Hv & _).
    rewrite (get_bytes_empty v n Hwf Hv) in Hg. injection Hg as <- _.
    apply get_moved_refl.
  - by apply (get_bytes_loop_held n v n v' bs).
Qed.

Lemma end_pos_moved v v' : get_moved v v' → end_pos v' = end_pos v.
Proof.
  intros [A1 A2 A3 A4 A5 A6 A7 A8 A9 A10 A11 A12].
  unfold end_pos, pos, ix, deref_end. by rewrite A1, A5, A6, A8, A9.
Qed.

(** X17 (what a hold mark keeps).  From every state of the invariant:
    once [vio_fifo_set_hold_mark] is called, a [vio_fifo_get_bytes] moves
    GET and nothing else: no lump leaves the list, and HOLD, END and PUT
    stay.  [vio_fifo_back_to_hold_mark] then makes visible again the bytes
    that were visible when the mark was set, after the bytes of the head
    lump that lie before the mark; the rewind is to the mark exactly when
    the mark is at the start of the head lump. *)
Theorem hold_mark_keeps_data v n set :
  wf v →
  ∃ v1 v2 v3 h,
    vio_fifo_set_hold_mark v = Some v1
    ∧ vio_fifo_get_bytes v1 n = Some (v2, take n (visible v))
    ∧ get_moved v1 v2
    ∧ vio_fifo_back_to_hold_mark v2 set = Some v3 ∧ wf v3
    ∧ ddl_head (base v1) = Some h
    ∧ hold_ptr v1 = Some (lump_addr h, (get_ptr v1).2)
    ∧ visible v3 = take (get_ptr v1).2 (lump_data h) ++ visible v
    ∧ ((get_ptr v1).2 = 0 → visible v3 = visible v).
Proof.
  intros Hwf.
  destruct (set_hold_mark_spec v Hwf)
    as (v1 & H1 & Hwf1 & _ & V1 & _ & _ & _ & Hps1 & _).
  destruct (set_hold_mark_ptr v v1 Hwf H1) as [Hh1 _].
  destruct (get_bytes_spec v1 n Hwf1)
    as (v2 & H2 & Hwf2 & _ & _ & _ & Hps2 & _).
  pose proof (get_bytes_held v1 n v2 _ Hwf1 Hps1 H2) as Hgm.
  rewrite Hps1 in Hps2.
  destruct (back_to_hold_mark_spec v2 set Hwf2 Hps2)
    as (v3 & h & H3 & Hwf3 & Hhd & _ & _ & _ & _ & _ & _ & V3 & _).
  rewrite (end_pos_moved v1 v2 Hgm) in V3.
  pose proof Hgm as [A1 _ _ _ _ _ _ _ _ _ _ _]. rewrite A1 in V3, Hhd.
  destruct (wf_head v1 Hwf1) as (h' & Hh' & Hhead).
  assert (h' = h) as -> by congruence.
  pose proof Hwf1 as [Hm Hc Hs].
  pose proof (wf_pos v1 Hm Hc) as (Hp1 & _).
  pose proof (get_end_off_bounds v1 Hm Hc) as (Hb1 & Hb2 & _).
  assert ((get_ptr v1).1 = lump_addr h ∧ ix v1 (get_ptr v1).1 = 0) as [Hg1 Hi].
  { destruct Hs as [Hh _]. rewrite Hps1 in Hh.
    destruct Hh as (p & Hp & Hi & Hin & _).
    assert (p = get_ptr v1) as -> by congruence.
    split; [by apply Hhead|done]. }
  assert (get_pos v1 = (get_ptr v1).2) as Hgp.
  { unfold get_pos, pos. rewrite Hi. lia. }
  assert (visible v3 = take (get_ptr v1).2 (lump_data h) ++ visible v) as Hv.
  { rewrite V3, <- V1. rewrite <- slice_0.
    rewrite <- (slice_app 0 (get_pos v1) (end_pos v1)) by lia.
    fold (visible v1). f_equal. rewrite slice_0, Hgp.
    unfold ddl_head in Hhd. destruct (base v1) as [|x r] eqn:Hb; [done|].
    simpl in Hhd. injection Hhd as ->. simpl.
    destruct Hm as [_ Hd _ _ _ _]. unfold lumps in Hd. rewrite Hb in Hd.
    apply Forall_app in Hd as [Hd _]. apply Forall_cons in Hd as [Hd _].
    rewrite take_app_le by lia. done. }
  exists v1, v2, v3, h. rewrite V1 in H2. split_and!; try done.
  - rewrite Hh1. f_equal. rewrite <- Hg1. by destruct (get_ptr v1).
  - intros Hz. rewrite Hv, Hz. by rewrite take_0.
Qed.

Lemma hold_mark_keeps_data_witness :
  wf (vio_fifo_new false 128)
  ∧ ∃ v1 v2 v3,
      vio_fifo_set_hold_mark (vio_fifo_new false 128) = Some v1
      ∧ vio_fifo_get_bytes v1 4
        = Some (v2, take 4 (visible (vio_fifo_new false 128)))
      ∧ get_moved v1 v2
      ∧ vio_fifo_back_to_hold_mark v2 false = Some v3.
Proof.
  split; [apply new_wf|].
  destruct (hold_mark_keeps_data (vio_fifo_new false 128) 4 false
              (new_wf false 128))
    as (v1 & v2 & v3 & h & H1 & H2 & H3 & H4 & _).
  exists v1, v2, v3.
  split; [exact H1|]. split; [exact H2|]. split; [exact H3|exact H4].
Defined.

(** ** Reading by lumps *)

Lemma read_nb_cases fd room :
  0 < room →
  ∃ got chunk fd2,
    read_nb fd room = (got, chunk, fd2)
    ∧ fd_weight fd2 ≤ fd_weight fd
    ∧ ((got ≤ 0)%Z
       ∨ (got = Z.of_nat (length chunk) ∧ 0 < length chunk
          ∧ length chunk ≤ room ∧ fd_weight fd2 < fd_weight fd)).
Proof.
  intros Hroom. destruct fd as [|[c| |] fd]; cbn [read_nb].
  - exists (-2)%Z, [], []. split_and!; try done. left. lia.
  - assert (fd_weight (FdData c :: fd) = S (length c) + fd_weight fd) as Hwt
      by done.
    case_bool_decide as Hlt.
    + eexists _, _, _. split; [done|].
      change (fd_weight (FdData (drop room c) :: fd))
        with (S (length (drop room c)) + fd_weight fd).
      rewrite Hwt, length_drop, length_take. split; [lia|]. right.
      split_and!; lia.
    + eexists _, _, _. split; [done|]. rewrite Hwt. split; [lia|].
      destruct c as [|c0 c]; [left; simpl; lia|right].
      split_and!; try done; simpl in *; lia.
  - exists 0%Z, [], fd. split_and!; try done.
    + change (fd_weight (FdBlock :: fd)) with (1 + fd_weight fd). lia.
    + left. lia.
  - exists (-1)%Z, [], fd. split_and!; try done.
    + change (fd_weight (FdError :: fd)) with (1 + fd_weight fd). lia.
    + left. lia.
Qed.

Lemma read_nb_loop_limit fuel v fd request total v' fd' r bs :
  wf v → fd_weight fd < fuel →
  read_nb_loop fuel v fd request total = Some (v', fd', r) →
  stored v' = stored v ++ bs → length bs ≤ read_limit v request.
Proof.
  revert v fd request total bs.
  induction fuel as [|fuel IH]; intros v fd request total bs Hwf Hfuel; [lia|].
  cbn [read_nb_loop].
  destruct (ptr_ge_put v (wf_cursors v Hwf)) as [-> _]. cbn [mbind option_bind].
  pose proof (wf_put_off v (wf_cursors v Hwf)) as Hoff.
  pose proof (wf_size v (wf_lumps v Hwf)) as Hsz.
  assert (∃ v1 req1,
            (if bool_decide (size v ≤ (put_ptr v).2)
             then v0 ← vio_fifo_add_lump v;
                  Some (v0, if bool_decide (0 < request) then request - 1
                            else request)
             else Some (v, request)) = Some (v1, req1)
            ∧ wf v1 ∧ (put_ptr v1).2 < size v1
            ∧ stored v1 = stored v ∧ size v1 = size v
            ∧ size v1 - (put_ptr v1).2 + req1 * size v1 ≤ read_limit v request)
    as (v1 & req1 & -> & Hwf1 & Hroom & Cs & Fz & Hlim).
  { unfold read_limit. case_bool_decide as Hfull.
    - destruct (add_lump_spec v Hwf)
        as (v1 & -> & ? & ? & ? & ? & ? & ? & Hz & Hp & _ & _ & ?); [lia|].
      cbn [mbind option_bind]. eexists v1, _. rewrite Hp, Hz.
      split_and!; try done; try lia.
      case_bool_decide; nia.
    - exists v, request. split_and!; try done; lia. }
  cbn [mbind option_bind].
  destruct (ptr_ge_put v1 (wf_cursors v1 Hwf1)) as [_ ->].
  cbn [mbind option_bind].
  set (room := size v1 - (put_ptr v1).2) in *.
  assert (0 < room) as Hr0 by (subst room; lia).
  destruct (read_nb_cases fd room Hr0)
    as (got & chunk & fd2 & -> & Hw & [Hneg|(-> & Hl0 & Hlr & Hw2)]).
  - rewrite (bool_decide_eq_true_2 _ Hneg). intros Hq Hs.
    assert (v' = v1) as ->.
    { destruct (bool_decide (got = -2)%Z); by injection Hq. }
    rewrite Cs in Hs. rewrite <- (app_nil_r (stored v)) in Hs at 1.
    apply app_inv_head in Hs. subst bs. simpl. lia.
  - rewrite (bool_decide_eq_false_2 (Z.of_nat (length chunk) ≤ 0)%Z) by lia.
    rewrite Nat2Z.id.
    destruct (put_chunk_spec v1 chunk Hwf1) as (b' & -> & Hv2);
      [done|subst room; lia|].
    cbn [mbind option_bind]. cbn zeta in Hv2 |- *.
    destruct Hv2 as (Hwf2 & Ds & _).
    match goal with |- context [set_put_ptr ?a ?b] =>
      set (v2 := set_put_ptr a b) in * end.
    assert (size v2 = size v1 ∧ (put_ptr v2).2 = (put_ptr v1).2 + length chunk)
      as [Hz2 Hp2] by done.
    case_bool_decide as Hreq.
    + intros Hq Hs.
      destruct (read_nb_loop_spec fuel v2 fd2 req1 (total + length chunk) Hwf2)
        as (v'' & fd'' & r'' & bs2 & s & fd1 & Hq' & _ & Es & _); [lia|].
      rewrite Hq in Hq'. injection Hq' as <- _ _.
      rewrite Es, Ds, Cs, <- app_assoc in Hs. apply app_inv_head in Hs.
      subst bs. rewrite length_app.
      pose proof (IH v2 fd2 req1 (total + length chunk) bs2 Hwf2 ltac:(lia)
                    Hq Es) as Hb.
      unfold read_limit in Hb. rewrite Hz2, Hp2 in Hb.
      subst room. case_bool_decide; nia.
    + intros [= <- _ _] Hs.
      rewrite Ds, Cs in Hs. apply app_inv_head in Hs. subst bs.
      subst room. lia.
Qed.



(** ** What [vio_fifo_verify] rejects *)

(** X19 ([vio_fifo_verify] after a read that would block).  In the debug
    build, for every size asked for, every byte value, every descriptor
    whose next read would block and every [request]: a byte is put and
    got, 29 bytes (a lump-full) are put, [vio_fifo_read_nb] adds a lump
    and reads nothing, and the 29 bytes are got.  Every call returns and
    [vio_fifo_verify] passes up to the last call; after it the FIFO is
    empty in the new lump without its pointers having been reset:
    [hold_ptr] still points at the start of the embedded lump, now the
    spare, and [vio_fifo_verify] aborts ("pointers not valid for empty
    fifo"). *)
Theorem verify_aborts_after_blocked_read n b c fd request :
  blocked_read_run n b c fd request
  = Some ([Some (); Some (); Some (); Some (); Some (); None],
          Some (own_lump, 0), (1, 0), Some own_lump, [1]).
Proof. vm_compute. reflexivity. Qed.
